(** * nova-simd [detail/vec_math.hpp]: vectorised single-precision math

    A shallow embedding of the generic vector math kernels of
    [src/common/include/nova-simd/detail/vec_math.hpp].

    Every kernel of the header is a template over a vector type [VecType]
    and is built from lane-wise operations only, so a kernel is modelled by
    the function it computes on one lane, and a vector by the list of its
    lanes ([vmap]).  A lane is the 32-bit pattern of an IEEE-754 binary32
    number, kept as a [Z]; the integer vector [int_vec] has the same lanes
    read as two's complement numbers.  Floating-point arithmetic is the
    binary32 instance ([prec = 24], [emax = 128]) of the standard library's
    executable specification [SpecFloat]. *)

From Stdlib Require Import ZArith Lia Bool List.
From Stdlib Require Import Reals Lra.
From Stdlib Require Import SpecFloat.
Import ListNotations.

Local Open Scope Z_scope.

(** ** Lanes *)

Definition lane := Z.

Definition prec32 : Z := 24.
Definition emax32 : Z := 128.

Definition lane_mod : Z := 4294967296.   (* 2^32 *)

Definition wrap (z : Z) : lane := z mod lane_mod.

(** Two's complement reading of an integer lane. *)
Definition signed (z : lane) : Z :=
  let u := wrap z in if u <? 2147483648 then u else u - lane_mod.

Module Bits.

Definition sign_bit (b : lane) : bool := Z.testbit b 31.
Definition expo_field (b : lane) : Z := Z.land (Z.shiftr b 23) 255.
Definition frac_field (b : lane) : Z := Z.land b 8388607.

  (** The number a bit pattern stands for. *)
Definition decode (b : lane) : spec_float :=
    let s := sign_bit b in
    let e := expo_field b in
    let m := frac_field b in
    if e =? 0 then
      match m with
      | Zpos p => S754_finite s p (-149)
      | _ => S754_zero s
      end
    else if e =? 255 then
      (if m =? 0 then S754_infinity s else S754_nan)
    else
      match m + 8388608 with
      | Zpos p => S754_finite s p (e - 150)
      | _ => S754_nan
      end.

Definition sign_word (s : bool) : Z := if s then 2147483648 else 0.

  (** The three fields of a pattern put together, each cut to its
      width. *)
Definition pack (s : bool) (E F : Z) : lane :=
    sign_word s + Z.land E 255 * 8388608 + Z.land F 8388607.

  (** The bit pattern of a number; every NaN is written as the quiet NaN
      [0x7FC00000] ([spec_float] carries no payload). *)
Definition encode (f : spec_float) : lane :=
    match f with
    | S754_zero s => pack s 0 0
    | S754_infinity s => pack s 255 0
    | S754_nan => pack false 255 4194304
    | S754_finite s m e =>
        if Zpos m <? 8388608 then pack s 0 (Zpos m)
        else pack s (e + 150) (Zpos m - 8388608)
    end.

End Bits.

(** A lane holds 32 bits. *)
Definition lane_ok (x : lane) : Prop := 0 <= x < lane_mod.

(** Order key of a pattern: patterns of numbers compare like these
    integers. *)
Definition magnitude (b : lane) : Z := b mod 2147483648.
Definition skey (b : lane) : Z :=
  if Bits.sign_bit b then - magnitude b else magnitude b.
Definition is_nan (b : lane) : bool := 2139095040 <? magnitude b.

(** ** The vector capability contract, on one lane *)

Module Lane.
Import Bits.

  (** Modelled from the spec: the vector type the kernels are instantiated
      with is not part of [vec_math.hpp]; its operations are the capability
      contract of the specification (bitwise operations on the 32-bit
      patterns, IEEE-754 lane arithmetic in round-to-nearest-even,
      comparisons giving all-ones or all-zeros lanes, shifts, conversions
      and [select]). *)

Definition ones : lane := 4294967295.

  (* mask generators *)
Definition gen_zero : lane := 0.
Definition gen_one : lane := 1065353216.        (* 0x3F800000, 1.0f *)
Definition gen_05 : lane := 1056964608.         (* 0x3F000000, 0.5f *)
Definition gen_sign_mask : lane := 2147483648.  (* 0x80000000 *)
Definition gen_abs_mask : lane := 2147483647.   (* 0x7FFFFFFF *)
Definition gen_exp_mask : lane := 2139095040.   (* 0x7F800000 *)
Definition gen_exp_mask_1 : lane := 1056964608. (* 0x3F000000 *)
Definition minus_infinity : lane := 4286578688. (* 0xFF800000 *)

  (* bitwise operations *)
Definition vand (a b : lane) : lane := Z.land a b.
Definition vor (a b : lane) : lane := Z.lor a b.
Definition vxor (a b : lane) : lane := Z.lxor a b.
  (** [andnot a b] is [~a & b]. *)
Definition andnot (a b : lane) : lane := Z.ldiff b a.
  (** [select a b m] takes the bits of [b] where [m] is set, of [a]
      elsewhere. *)
Definition select (a b m : lane) : lane := Z.lor (Z.ldiff a m) (Z.land b m).

  (* lane arithmetic *)
Definition fadd (a b : lane) : lane :=
    encode (SFadd prec32 emax32 (decode a) (decode b)).
Definition fsub (a b : lane) : lane :=
    encode (SFsub prec32 emax32 (decode a) (decode b)).
Definition fmul (a b : lane) : lane :=
    encode (SFmul prec32 emax32 (decode a) (decode b)).
Definition fdiv (a b : lane) : lane :=
    encode (SFdiv prec32 emax32 (decode a) (decode b)).
Definition fsqrt (a : lane) : lane :=
    encode (SFsqrt prec32 emax32 (decode a)).
  (** Unary minus flips the sign bit. *)
Definition fneg (a : lane) : lane := Z.lxor a gen_sign_mask.

  (* comparisons *)
Definition flt (a b : lane) : bool := SFltb (decode a) (decode b).
Definition fle (a b : lane) : bool := SFleb (decode a) (decode b).
Definition feq (a b : lane) : bool := SFeqb (decode a) (decode b).

Definition mask_of (c : bool) : lane := if c then ones else 0.

Definition mask_lt (a b : lane) : lane := mask_of (flt a b).
Definition mask_gt (a b : lane) : lane := mask_of (flt b a).
Definition mask_eq (a b : lane) : lane := mask_of (feq a b).
Definition mask_neq (a b : lane) : lane := mask_of (negb (feq a b)).

  (* integer lanes *)
Definition iadd (a b : lane) : lane := wrap (a + b).
Definition isub (a b : lane) : lane := wrap (a - b).
Definition iand (a b : lane) : lane := Z.land a b.
Definition iandnot (a b : lane) : lane := Z.ldiff b a.
Definition slli (a : lane) (n : Z) : lane := wrap (Z.shiftl a n).
Definition srli (a : lane) (n : Z) : lane := Z.shiftr (wrap a) n.
Definition imask_eq (a b : lane) : lane := mask_of (wrap a =? wrap b).
Definition int_vec (n : Z) : lane := wrap n.

  (** Truncating conversion; a lane that does not fit 32 bits (or is not a
      number) gives [0x80000000]. *)
Definition truncate_to_int (a : lane) : lane :=
    match decode a with
    | S754_zero _ => 0
    | S754_finite s m e =>
        let q := match e with
                 | Z0 => Zpos m
                 | Zpos _ => Z.shiftl (Zpos m) e
                 | Zneg _ => Z.shiftr (Zpos m) (- e)
                 end in
        if s then (if q <=? 2147483648 then wrap (- q) else 2147483648)
        else (if q <? 2147483648 then q else 2147483648)
    | _ => 2147483648
    end.

Definition convert_to_float (a : lane) : lane :=
    encode (binary_normalize prec32 emax32 (signed a) 0 false).

End Lane.

(** ** Literals *)

Module Lit.
Import Bits.

Definition ratio (p e : Z) (neg : bool) (digits : positive) (scale : nat)
    : spec_float :=
    SFdiv p e (S754_finite neg digits 0)
              (S754_finite false (Z.to_pos (10 ^ Z.of_nat scale)) 0).

  (** [flit neg d k] is the float literal [d * 10^-k] (negated when [neg]),
      rounded to nearest. *)
Definition flit (neg : bool) (digits : positive) (scale : nat) : lane :=
    encode (ratio prec32 emax32 neg digits scale).

  (** [dlit neg d k] is the double literal [d * 10^-k] narrowed to [float],
      as happens when a [double] meets a [VecType] operand. *)
Definition dlit (neg : bool) (digits : positive) (scale : nat) : lane :=
    match ratio 53 1024 neg digits scale with
    | S754_finite s m e => encode (binary_round prec32 emax32 s m e)
    | f => encode f
    end.

End Lit.

Declare Scope lane_scope.
Delimit Scope lane_scope with lane.
Infix "+!" := Lane.fadd (at level 50, left associativity) : lane_scope.
Infix "-!" := Lane.fsub (at level 50, left associativity) : lane_scope.
Infix "*!" := Lane.fmul (at level 40, left associativity) : lane_scope.
Infix "/!" := Lane.fdiv (at level 40, left associativity) : lane_scope.

(** ** The kernels of [vec_math.hpp] *)

Module Kernels.
Import Lane Lit.
Local Open Scope lane_scope.

Definition vec_sign (arg : lane) : lane :=
    let zero := gen_zero in
    let one := gen_one in
    let sign_mask := gen_sign_mask in
    let nonzero := mask_neq arg zero in
    let sign := vand arg sign_mask in
    let abs_ret := vand nonzero one in
    vor sign abs_ret.

Definition two_to_23_ps : lane := 1258291200.  (* 0x1.0p23f = 0x4B000000 *)

Definition vec_round_float (arg : lane) : lane :=
    let sign := vand arg gen_sign_mask in
    let abs_arg := vxor sign arg in
    let rounded := (abs_arg +! two_to_23_ps) -! two_to_23_ps in
    vxor sign rounded.

Definition vec_floor_float (arg : lane) : lane :=
    let rounded := vec_round_float arg in
    let rounded_larger := mask_gt rounded arg in
    let add := vand rounded_larger gen_one in
    rounded -! add.

Definition vec_ceil_float (arg : lane) : lane :=
    let rounded := vec_round_float arg in
    let rounded_smaller := mask_lt rounded arg in
    let add := vand rounded_smaller gen_one in
    rounded +! add.

Definition ldexp_float (x n : lane) : lane :=
    let exponent_mask := gen_exp_mask in
    let exponent := vand exponent_mask x in
    let x_wo_x := andnot exponent_mask x in
    let new_exp := iadd (slli n (16 + 7)) exponent in
    let new_exp_float := new_exp in
    let ret := vor x_wo_x new_exp_float in
    ret.

  (** Returns the mantissa together with the exponent that the source
      writes through its reference parameter [exp]. *)
Definition frexp_float (x : lane) : lane * lane :=
    let exponent_mask := gen_exp_mask in
    let exponent := vand exponent_mask x in
    let x_wo_x := andnot exponent_mask x in
    let exp_int := exponent in
    let exp := isub (srli exp_int (16 + 7)) (int_vec 126) in
    (vor x_wo_x gen_exp_mask_1, exp).

  (** [round] on a vector is the rounding kernel above. *)
Definition round (x : lane) : lane := vec_round_float x.

Definition exp_log2e : lane := Eval vm_compute in flit false 144269504088896341 17.
Definition exp_c1 : lane := Eval vm_compute in flit false 693359375 9.
Definition exp_c2 : lane := Eval vm_compute in flit true 212194440 12.
Definition exp_p1 : lane := Eval vm_compute in flit false 100000035762786865234375 23.
Definition exp_p2 : lane := Eval vm_compute in flit false 4999996721744537353515625 25.
Definition exp_p3 : lane := Eval vm_compute in flit false 16665561497211456298828125 26.
Definition exp_p4 : lane := Eval vm_compute in flit false 4167006909847259521484375 26.
Definition exp_p5 : lane := Eval vm_compute in flit false 8420792408287525177001953125 30.
Definition exp_p6 : lane := Eval vm_compute in flit false 1386119984090328216552734375 30.
Definition maxlogf : lane := Eval vm_compute in flit false 8872283905206835 14.
Definition minlogf : lane := Eval vm_compute in flit true 103278929903431851103 18.
  (** [std::numeric_limits<float>::max()] *)
Definition max_float : lane := 2139095039.  (* 0x7F7FFFFF *)
Definition one_f : lane := Eval vm_compute in flit false 1 0.   (* 1.f *)

  (** The statements of [vec_exp_float] before its boundary handling:
      range reduction, polynomial and [ldexp_float]. *)
Definition exp_approx (arg : lane) : lane :=
    let x := arg in
    let z := round (exp_log2e *! x) in
    let n := truncate_to_int z in
    let x := x -! z *! exp_c1 in
    let x := x -! z *! exp_c2 in
    let p := gen_one +!
      x *! (exp_p1 +!
      x *! (exp_p2 +!
      x *! (exp_p3 +!
      x *! (exp_p4 +!
      x *! (exp_p5 +!
      x *! exp_p6))))) in
    (* multiply by power of 2 *)
    let approx := ldexp_float p n in
    approx.

Definition vec_exp_float (arg : lane) : lane :=
    let approx := exp_approx arg in
    (* handle min/max boundaries *)
    let zero := gen_zero in
    let too_large := mask_gt arg maxlogf in
    let too_small := mask_lt arg minlogf in
    let ret := select approx max_float too_large in
    let ret := select ret zero too_small in
    ret.

Definition log_sqrt_05 : lane := Eval vm_compute in flit false 707106781186547524 18.
Definition log_c0 : lane := Eval vm_compute in dlit false 70376836292 12.
Definition log_c1 : lane := Eval vm_compute in dlit false 11514610310 11.
Definition log_c2 : lane := Eval vm_compute in dlit false 11676998740 11.
Definition log_c3 : lane := Eval vm_compute in dlit false 12420140846 11.
Definition log_c4 : lane := Eval vm_compute in dlit false 14249322787 11.
Definition log_c5 : lane := Eval vm_compute in dlit false 16668057665 11.
Definition log_c6 : lane := Eval vm_compute in dlit false 20000714765 11.
Definition log_c7 : lane := Eval vm_compute in dlit false 24999993993 11.
Definition log_c8 : lane := Eval vm_compute in dlit false 33333331174 11.
Definition log_q1 : lane := Eval vm_compute in dlit true 212194440 12.
Definition log_half : lane := Eval vm_compute in dlit false 5 1.
Definition log_q2 : lane := Eval vm_compute in dlit false 693359375 9.

  (** The first statements of [vec_log_float]: [frexp_float], then the
      fold of the mantissa around [sqrt(0.5)].  Gives the reduced argument
      and the exponent. *)
Definition log_reduce (x : lane) : lane * lane :=
    let '(x, e) := frexp_float x in
    let sqrt_05 := log_sqrt_05 in
    let x_smaller_sqrt_05 := mask_lt x sqrt_05 in
    let e := iadd e x_smaller_sqrt_05 in
    let x_add := x in
    let x_add := vand x_add x_smaller_sqrt_05 in
    let x := x +! (x_add -! gen_one) in
    (x, e).

Definition vec_log_float (x : lane) : lane :=
    let '(x, e) := log_reduce x in
    let y :=
      (((((((( log_c0 *! x
      -! log_c1) *! x
      +! log_c2) *! x
      -! log_c3) *! x
      +! log_c4) *! x
      -! log_c5) *! x
      +! log_c6) *! x
      -! log_c7) *! x
      +! log_c8) *! x *! x *! x in
    let fe := convert_to_float e in
    let y := y +! fe *! log_q1 in
    let y := y -! log_half *! x *! x in
    let z := x +! y in
    z +! log_q2 *! fe.

Definition vec_exp_tanh_float (arg : lane) : lane :=
    let x := arg in
    let z := round (exp_log2e *! x) in
    let n := truncate_to_int z in
    let x := x -! z *! exp_c1 in
    let x := x -! z *! exp_c2 in
    let p := one_f +!
      x *! (exp_p1 +!
      x *! (exp_p2 +!
      x *! (exp_p3 +!
      x *! (exp_p4 +!
      x *! (exp_p5 +!
      x *! exp_p6))))) in
    let approx := ldexp_float p n in
    approx.

Definition four_over_pi : lane :=
    Eval vm_compute in
      dlit false 127323954473516268615107010698011489627567716592367 50.
Definition DP1 : lane := Eval vm_compute in dlit false 78515625 8.
Definition DP2 : lane := Eval vm_compute in dlit false 24187564849853515625 23.
Definition DP3 : lane := Eval vm_compute in dlit false 377489497744594108 25.
Definition cos_c0 : lane := Eval vm_compute in dlit false 2443315711809948 20.
Definition cos_c1 : lane := Eval vm_compute in dlit false 1388731625493765 18.
Definition cos_c2 : lane := Eval vm_compute in dlit false 4166664568298827 17.
Definition cos_half : lane := Eval vm_compute in flit false 5 1.
Definition sin_c0 : lane := Eval vm_compute in dlit true 19515295891 14.
Definition sin_c1 : lane := Eval vm_compute in dlit false 83321608736 13.
Definition sin_c2 : lane := Eval vm_compute in dlit false 16666654611 11.

Definition vec_sin_float (arg : lane) : lane :=
    let sign := vand arg gen_sign_mask in
    let abs_arg := vand arg gen_abs_mask in
    let y := abs_arg *! four_over_pi in
    let j := truncate_to_int y in
    (* cephes: j=(j+1) & (~1) *)
    let j := iand (iadd j (int_vec 1)) (int_vec (Z.lnot 1)) in
    let y := convert_to_float j in
    (* sign based on quadrant *)
    let swap_sign_bit := slli (iand j (int_vec 4)) 29 in
    let sign := vxor sign swap_sign_bit in
    (* polynomial mask *)
    let poly_mask := imask_eq (iand j (int_vec 2)) (int_vec 0) in
    let base := ((abs_arg -! y *! DP1) -! y *! DP2) -! y *! DP3 in
    (* [0..pi/4] *)
    let z := base *! base in
    let p1 := ((cos_c0 *! z
        -! cos_c1) *! z
        +! cos_c2) *! z *! z
        -! cos_half *! z +! one_f in
    (* [pi/4..pi/2] *)
    let p2 := ((sin_c0 *! z
         +! sin_c1) *! z
         -! sin_c2) *! z *! base +! base in
    let approximation := select p1 p2 poly_mask in
    vxor approximation sign.

Definition vec_cos_float (arg : lane) : lane :=
    let abs_arg := vand arg gen_abs_mask in
    let y := abs_arg *! four_over_pi in
    let j := truncate_to_int y in
    (* cephes: j=(j+1) & (~1) *)
    let j := iand (iadd j (int_vec 1)) (int_vec (Z.lnot 1)) in
    let y := convert_to_float j in
    (* sign based on quadrant *)
    let jm2 := isub j (int_vec 2) in
    let sign := slli (iandnot jm2 (int_vec 4)) 29 in
    (* polynomial mask *)
    let poly_mask := imask_eq (iand jm2 (int_vec 2)) (int_vec 0) in
    let base := ((abs_arg -! y *! DP1) -! y *! DP2) -! y *! DP3 in
    (* [0..pi/4] *)
    let z := base *! base in
    let p1 := ((cos_c0 *! z
        -! cos_c1) *! z
        +! cos_c2) *! z *! z
        -! cos_half *! z +! one_f in
    (* [pi/4..pi/2] *)
    let p2 := ((sin_c0 *! z
         +! sin_c1) *! z
         -! sin_c2) *! z *! base +! base in
    let approximation := select p1 p2 poly_mask in
    vxor approximation sign.

Definition tan_c0 : lane := Eval vm_compute in dlit false 3333315551280975341796875 25.
Definition tan_c1 : lane := Eval vm_compute in dlit false 1333882510662078857421875 25.
Definition tan_c2 : lane := Eval vm_compute in dlit false 53409568965435028076171875 27.
Definition tan_c3 : lane := Eval vm_compute in dlit false 2443529665470123291015625 26.
Definition tan_c4 : lane := Eval vm_compute in dlit false 31127030961215496063232421875 31.
Definition tan_c5 : lane := Eval vm_compute in dlit false 93892104923725128173828125 28.
Definition minus_one_f : lane := Eval vm_compute in dlit true 10 1.   (* -1.0 *)

  (** The polynomial of [vec_tan_float] on the reduced argument, and the
      reciprocal the source computes from it for every lane. *)
Definition tan_approx (arg : lane) : lane :=
    let abs_arg := vand arg gen_abs_mask in
    let y := abs_arg *! four_over_pi in
    let j := truncate_to_int y in
    let j := iand (iadd j (int_vec 1)) (int_vec (Z.lnot 1)) in
    let y := convert_to_float j in
    let base := ((abs_arg -! y *! DP1) -! y *! DP2) -! y *! DP3 in
    let x := base in
    let x2 := x *! x in
    x +! x *! x2 *! (tan_c0 +! x2 *! (tan_c1 +! x2 *! (tan_c2 +! x2 *!
      (tan_c3 +! x2 *! (tan_c4 +! x2 *! tan_c5))))).

Definition tan_recip (arg : lane) : lane := minus_one_f /! tan_approx arg.

  (** The approximation mask of [vec_tan_float]. *)
Definition tan_poly_mask (arg : lane) : lane :=
    let abs_arg := vand arg gen_abs_mask in
    let y := abs_arg *! four_over_pi in
    let j := truncate_to_int y in
    (* cephes: j=(j+1) & (~1) *)
    let j := iand (iadd j (int_vec 1)) (int_vec (Z.lnot 1)) in
    imask_eq (iand j (int_vec 2)) (int_vec 0).

Definition vec_tan_float (arg : lane) : lane :=
    let sign := vand arg gen_sign_mask in
    let poly_mask := tan_poly_mask arg in
    let approx := tan_approx arg in
    let recip := tan_recip arg in
    let approximation := select recip approx poly_mask in
    vxor approximation sign.

Definition asin_half : lane := Eval vm_compute in dlit false 5 1.
Definition asin_c0 : lane := Eval vm_compute in dlit false 166667520999908447265625 24.
Definition asin_c1 : lane := Eval vm_compute in dlit false 74953101575374603271484375 27.
Definition asin_c2 : lane := Eval vm_compute in dlit false 454690195620059967041015625 28.
Definition asin_c3 : lane := Eval vm_compute in dlit false 2418550290167331695556640625 29.
Definition asin_c4 : lane := Eval vm_compute in dlit false 421570129692554473876953125 28.
Definition pi_2_f : lane := Eval vm_compute in dlit false 157079637050628662109375 23.
Definition pi_f : lane := Eval vm_compute in dlit false 31415927410125732421875 22.
Definition minus_half_f : lane := Eval vm_compute in dlit true 5 1.

Definition vec_asin_float (arg : lane) : lane :=
    let abs_arg := vand arg gen_abs_mask in
    let sign := vand arg gen_sign_mask in
    let one := gen_one in
    let half := gen_05 in
    let zero := gen_zero in
    (* range redution: asin(x) = pi/2 - 2 asin( sqrt( (1-x)/2 ) ). for |arg| > 0.5 *)
    let arg_greater_05 := mask_gt abs_arg asin_half in
    let arg_reduced_sqr := (one -! abs_arg) *! half in
    let arg_reduced := fsqrt ((one -! abs_arg) *! half) in
    let approx_arg := select abs_arg arg_reduced arg_greater_05 in
    let z := select (abs_arg *! abs_arg) arg_reduced_sqr arg_greater_05 in
    let x := approx_arg in
    let x2 := x *! x in
    let approx_poly := x +! x *! x2 *! (asin_c0 +! x2 *! (asin_c1 +! x2 *!
      (asin_c2 +! x2 *! (asin_c3 +! x2 *! asin_c4)))) in
    let approx_poly_reduced := pi_2_f -! approx_poly -! approx_poly in
    let approx := select approx_poly approx_poly_reduced arg_greater_05 in
    let approx := vxor approx sign in
    (* |arg| > 1: return 0 *)
    let ret := select approx zero (mask_gt abs_arg one) in
    ret.

Definition vec_acos_float (arg : lane) : lane :=
    let abs_arg := vand arg gen_abs_mask in
    let one := gen_one in
    let half := gen_05 in
    let zero := gen_zero in
    let arg_greater_05 := mask_gt abs_arg half in
    let asin_arg_greater_05 := fsqrt ((one -! abs_arg) *! half) in
    let asin_arg := select arg asin_arg_greater_05 arg_greater_05 in
    let asin := vec_asin_float asin_arg in
    let two_asin := asin +! asin in
    let ret_m1_m05 := pi_f -! two_asin in
    let ret_m05_05 := pi_2_f -! asin in
    let ret_05_1 := two_asin in
    let ret_m05_1 := select ret_m05_05 ret_05_1 (mask_gt arg half) in
    let ret := select ret_m1_m05 ret_m05_1 (mask_gt arg minus_half_f) in
    (* |arg| > 1: return 0 *)
    let ret := select ret zero (mask_gt abs_arg one) in
    ret.

Definition atan_off1 : lane :=
    Eval vm_compute in
      dlit false 78539816339744830961566084581987572104929234984377 50.
Definition atan_off2 : lane :=
    Eval vm_compute in
      dlit false 157079632679489661923132169163975144209858469968754 50.
Definition atan_t1 : lane :=
    Eval vm_compute in
      dlit false 41421356237309504880168872420969807856967187537695 50.
Definition atan_t2 : lane :=
    Eval vm_compute in
      dlit false 241421356237309504880168872420969807856967187537698 50.
Definition atan_c0 : lane := Eval vm_compute in dlit true 333329498767852783203125 24.
Definition atan_c1 : lane := Eval vm_compute in dlit false 19977732002735137939453125 26.
Definition atan_c2 : lane := Eval vm_compute in dlit true 1387787759304046630859375 25.
Definition atan_c3 : lane := Eval vm_compute in dlit false 8054284751415252685546875 26.

  (** The third candidate argument of [vec_atan_float], computed for
      every lane. *)
Definition atan_arg_range2 (arg : lane) : lane :=
    let abs_arg := vand arg gen_abs_mask in
    fneg gen_one /! abs_arg.

Definition vec_atan_float (arg : lane) : lane :=
    let sign_arg := vand arg gen_sign_mask in
    let abs_arg := vand arg gen_abs_mask in
    let one := gen_one in
    let zero := gen_zero in
    let arg_range0 := abs_arg in
    let arg_range1 := (abs_arg -! one) /! (abs_arg +! one) in
    let arg_range2 := atan_arg_range2 arg in
    let offset_range0 := zero in
    let offset_range1 := atan_off1 in
    let offset_range2 := atan_off2 in
    let mask_range_01 := mask_gt abs_arg atan_t1 in
    let mask_range_12 := mask_gt abs_arg atan_t2 in
    let approx_arg := select arg_range0
                        (select arg_range1 arg_range2 mask_range_12)
                        mask_range_01 in
    let approx_offset := select offset_range0
                           (select offset_range1 offset_range2 mask_range_12)
                           mask_range_01 in
    let x := approx_arg in
    let x2 := x *! x in
    let approx := approx_offset +!
       x +! x *! x2 *! (atan_c0 +! x2 *! (atan_c1 +! x2 *! (atan_c2 +! x2 *! atan_c3))) in
    vxor approx sign_arg.

Definition tanh_two : lane := Eval vm_compute in flit false 2 0.
Definition tanh_maxlogf_2 : lane := Eval vm_compute in flit false 22 0.
Definition tanh_limit_small : lane := Eval vm_compute in flit false 625 3.
Definition tanh_f1 : lane := Eval vm_compute in dlit true 570498872745 14.
Definition tanh_f2 : lane := Eval vm_compute in dlit false 206390887954 13.
Definition tanh_f3 : lane := Eval vm_compute in dlit true 537397155531 13.
Definition tanh_f4 : lane := Eval vm_compute in dlit false 133314422036 12.
Definition tanh_f5 : lane := Eval vm_compute in dlit true 333332819422 12.

(** The polynomial factor of the small branch of [vec_tanh_float], a
    function of the squared argument. *)
Definition tanh_small_factor (arg_sqr : lane) : lane :=
    let f1 := tanh_f1 in
    let f2 := tanh_f2 in
    let f3 := tanh_f3 in
    let f4 := tanh_f4 in
    let f5 := tanh_f5 in
    ((((f1 *! arg_sqr
         +! f2) *! arg_sqr
        +! f3) *! arg_sqr
       +! f4) *! arg_sqr
      +! f5) *! arg_sqr.

(** The medium branch of [vec_tanh_float], a function of the magnitude. *)
Definition tanh_medium (abs_arg : lane) : lane :=
    let one := gen_one in
    let two := tanh_two in
    one -! two /! (vec_exp_tanh_float (abs_arg +! abs_arg) +! one).

Definition vec_tanh_float (arg : lane) : lane :=
    let sign_arg := vand arg gen_sign_mask in
    let abs_arg := vxor arg sign_arg in
    let one := gen_one in
    let maxlogf_2 := tanh_maxlogf_2 in
    let limit_small := tanh_limit_small in
    (* large values *)
    let abs_big := mask_gt abs_arg maxlogf_2 in
    let result_limit_abs := one in
    (* small values *)
    let arg_sqr := abs_arg *! abs_arg in
    let result_small := tanh_small_factor arg_sqr *! arg
                        +! arg in
    let abs_small := mask_lt abs_arg limit_small in
    (* medium values *)
    let result_medium_abs := tanh_medium abs_arg in
    (* select from large and medium branches and set sign *)
    let result_lm_abs := select result_medium_abs result_limit_abs abs_big in
    let result_lm := vor result_lm_abs sign_arg in
    let result := select result_lm result_small abs_small in
    result.

(** compute pow using exp and log *)
Definition vec_pow (arg1 arg2 : lane) : lane :=
    let result := vec_exp_float (arg2 *! vec_log_float arg1) in
    result.

Definition vec_signed_pow (arg1 arg2 : lane) : lane :=
    let sign_arg1 := vand arg1 gen_sign_mask in
    let abs_arg1 := vxor arg1 sign_arg1 in
    let result := vec_pow abs_arg1 arg2 in
    vor sign_arg1 result.

Definition vec_signed_sqrt (arg : lane) : lane :=
    let sign_arg1 := vand arg gen_sign_mask in
    let abs_arg1 := vxor arg sign_arg1 in
    let result := fsqrt abs_arg1 in
    vor sign_arg1 result.

End Kernels.

(** ** Vectors *)

Definition vec := list lane.

(** A kernel applied to a vector works on every lane on its own. *)
Definition vmap (f : lane -> lane) (v : vec) : vec := map f v.

(** ** Vocabulary of the statements *)

(** The patterns of the normal positive floats: exponent field between 1
    and 254, sign bit clear. *)
Definition normal_positive (x : lane) : Prop := 8388608 <= x < 2139095040.

(** The argument handed to [vec_asin_float] on the outer regions of the
    arc cosine. *)
Definition acos_reduced (y : lane) : lane :=
  Lane.fsqrt (Lane.fmul y Lane.gen_05).

(** A pattern that stands for a number: a zero or a finite float. *)
Definition is_number (b : lane) : bool :=
  match Bits.decode b with
  | S754_zero _ | S754_finite _ _ _ => true
  | _ => false
  end.

(** The value of a float in units of [2^-149], the spacing of the
    subnormal numbers: every finite binary32 number is an integer
    multiple of it. *)
Definition SFZ (f : spec_float) : Z :=
  match f with
  | S754_finite s m e => cond_Zopp s (Zpos m * 2 ^ (e + 149))
  | _ => 0
  end.

Definition unit149 : Z := 2 ^ 149.

(** [M / 2^k] rounded to the nearest integer, ties to even. *)
Definition rne_shift (M k : Z) : Z :=
  let q := M / 2 ^ k in
  let r := M mod 2 ^ k in
  let h := 2 ^ (k - 1) in
  if r <? h then q
  else if h <? r then q + 1
  else if Z.even q then q else q + 1.

(** A pattern above zero: not a NaN, sign bit clear, not a zero. *)
Definition positive_lane (y : lane) : Prop := is_nan y = false /\ 0 < skey y.

(** [lane_is a z]: the pattern [a] stands for the integer [z]. *)
Definition lane_is (a : lane) (z : Z) : Prop :=
  lane_ok a /\ is_number a = true /\ SFZ (Bits.decode a) = z * unit149.

(** The float of an integer, as [convert_to_float] builds it. *)
Definition zfloat (z : Z) : spec_float :=
  binary_normalize prec32 emax32 z 0 false.

(** The real number a finite float stands for (zero for the others). *)
Definition SFR (f : spec_float) : R :=
  match f with
  | S754_finite s m e => (IZR (cond_Zopp s (Zpos m)) * powerRZ 2 e)%R
  | _ => 0%R
  end.

Definition lane_R (b : lane) : R := SFR (Bits.decode b).

(** Zeros and finite floats. *)
Definition SF_number (f : spec_float) : bool :=
  match f with
  | S754_zero _ | S754_finite _ _ _ => true
  | _ => false
  end.

(** A float in the form the operations produce for an exact result:
    [+0] or a binary32 number. *)
Inductive canonical_number : spec_float -> Prop :=
| canonical_zero : canonical_number (S754_zero false)
| canonical_finite (s : bool) (P : positive) (E : Z) :
    bounded prec32 emax32 P E = true ->
    canonical_number (S754_finite s P E).

(** The value [vec_round_float] gives, as an integer. *)
Definition round_value (x : lane) : Z :=
  let n := rne_shift (SFZ (Bits.decode (magnitude x))) 149 in
  if Bits.sign_bit x then - n else n.

(** The scaled value of the argument. *)
Definition arg_value (x : lane) : Z := SFZ (Bits.decode x).

(** Powers of two as real numbers. *)
Definition pw (n : Z) : R := powerRZ 2 n.

(** ** Bit patterns and their fields *)

Section BitFacts.
Import Bits.

Lemma fields_of_lane (b : lane) :
    lane_ok b ->
    b = sign_word (sign_bit b) + expo_field b * 8388608 + frac_field b
    /\ 0 <= expo_field b < 256 /\ 0 <= frac_field b < 8388608.
Proof.
    unfold lane_ok, lane_mod, sign_word, sign_bit, expo_field, frac_field.
    intros Hb.
    change 255 with (Z.ones 8). change 8388607 with (Z.ones 23).
    rewrite !Z.land_ones, Z.shiftr_div_pow2 by lia.
    change (2 ^ 23) with 8388608. change (2 ^ 8) with 256.
    assert (Hs : Z.testbit b 31 = (2147483648 <=? b)).
    { destruct (Z.testbit b 31) eqn:E.
      - apply Z.testbit_true in E; [|lia].
        change (2 ^ 31) with 2147483648 in E.
        symmetry; apply Z.leb_le.
        destruct (Z.le_gt_cases 2147483648 b) as [|Hlt]; [assumption|].
        rewrite Z.div_small in E by lia. discriminate.
      - symmetry; apply Z.leb_gt.
        destruct (Z.le_gt_cases 2147483648 b) as [Hge|]; [|assumption].
        assert (Ht : Z.testbit b 31 = true).
        { apply Z.testbit_true; [lia|].
          change (2 ^ 31) with 2147483648.
          assert (b / 2147483648 = 1) as -> by
            (symmetry; apply (Z.div_unique b 2147483648 1 (b - 2147483648)); lia).
          reflexivity. }
        congruence. }
    rewrite Hs.
    pose proof (Z.div_mod b 8388608 ltac:(lia)).
    pose proof (Z.mod_pos_bound b 8388608 ltac:(lia)).
    pose proof (Z.div_mod (b / 8388608) 256 ltac:(lia)).
    pose proof (Z.mod_pos_bound (b / 8388608) 256 ltac:(lia)).
    assert (0 <= b / 8388608 < 512)
      by (split; [apply Z.div_pos; lia | apply Z.div_lt_upper_bound; lia]).
    assert (Hq : b / 8388608 / 256 = if 2147483648 <=? b then 1 else 0).
    { rewrite Z.div_div by lia. change (8388608 * 256) with 2147483648.
      destruct (Z.leb_spec 2147483648 b).
      - symmetry; apply (Z.div_unique b 2147483648 1 (b - 2147483648)); lia.
      - apply Z.div_small; lia. }
    destruct (2147483648 <=? b); lia.
Qed.

Lemma sign_bit_ge (b : lane) :
    lane_ok b -> sign_bit b = (2147483648 <=? b).
Proof.
    intros Hb. destruct (fields_of_lane b Hb) as (E & HE & HF).
    unfold sign_word in E.
    destruct (sign_bit b); symmetry; [apply Z.leb_le | apply Z.leb_gt]; lia.
Qed.

Lemma magnitude_fields (b : lane) :
    lane_ok b -> magnitude b = expo_field b * 8388608 + frac_field b.
Proof.
    intros Hb. destruct (fields_of_lane b Hb) as (E & HE & HF).
    unfold magnitude. unfold sign_word in E.
    symmetry.
    destruct (sign_bit b).
    - apply (Z.mod_unique b 2147483648 1); lia.
    - apply (Z.mod_unique b 2147483648 0); lia.
Qed.

End BitFacts.

(** ** Comparisons read on the patterns *)

Section OrderFacts.
Import Bits.

Lemma is_nan_decode (b : lane) :
    lane_ok b -> is_nan b = true -> decode b = S754_nan.
Proof.
    intros Hb Hn. unfold is_nan in Hn. apply Z.ltb_lt in Hn.
    rewrite magnitude_fields in Hn by assumption.
    destruct (fields_of_lane b Hb) as (_ & HE & HF).
    unfold decode.
    assert (expo_field b = 255) as -> by lia.
    change (255 =? 0) with false. change (255 =? 255) with true. cbv iota.
    destruct (Z.eqb_spec (frac_field b) 0); [lia | reflexivity].
Qed.

Lemma decode_shape (b : lane) :
    lane_ok b -> is_nan b = false ->
    (decode b = S754_zero (sign_bit b) /\ magnitude b = 0) \/
    (decode b = S754_infinity (sign_bit b) /\ magnitude b = 2139095040) \/
    (exists p e, decode b = S754_finite (sign_bit b) p e /\
       0 < magnitude b < 2139095040 /\ -149 <= e <= 104 /\
       Zpos p < 16777216 /\ (e = -149 \/ 8388608 <= Zpos p) /\
       magnitude b = (e + 149) * 8388608 + Zpos p).
Proof.
    intros Hb Hn. unfold is_nan in Hn. apply Z.ltb_ge in Hn.
    rewrite magnitude_fields in * by assumption.
    destruct (fields_of_lane b Hb) as (_ & HE & HF).
    unfold decode.
    destruct (Z.eqb_spec (expo_field b) 0) as [E0|E0].
    - destruct (frac_field b) as [|p|p] eqn:EF.
      + left. split; [reflexivity | lia].
      + right; right. exists p, (-149). repeat split; try lia.
      + lia.
    - destruct (Z.eqb_spec (expo_field b) 255) as [E1|E1].
      + destruct (Z.eqb_spec (frac_field b) 0) as [F0|F0]; [|lia].
        right; left. split; [reflexivity | lia].
      + destruct (frac_field b + 8388608) as [|p|p] eqn:EF; try lia.
        right; right. exists p, (expo_field b - 150).
        repeat split; try lia.
Qed.

Local Ltac cmp_close :=
    f_equal; symmetry;
    first [ apply Z.compare_eq_iff; lia
          | apply Z.compare_lt_iff; lia
          | apply Z.compare_gt_iff; lia ].

Lemma SFcompare_skey (a b : lane) :
    lane_ok a -> lane_ok b -> is_nan a = false -> is_nan b = false ->
    SFcompare (decode a) (decode b) = Some (skey a ?= skey b).
Proof.
    intros Ha Hb Na Nb.
    destruct (decode_shape a Ha Na) as [(Da & Ma)|[(Da & Ma)|(pa & ea & Da & Ma & Ea & Pa & Ca & Va)]];
    destruct (decode_shape b Hb Nb) as [(Db & Mb)|[(Db & Mb)|(pb & eb & Db & Mb & Eb & Pb & Cb & Vb)]];
    rewrite Da, Db; unfold skey;
    destruct (sign_bit a), (sign_bit b); cbn [SFcompare]; try cmp_close.
    - (* both negative *)
      destruct (Z.compare_spec ea eb); [|cmp_close|cmp_close].
      subst eb.
      change (Pos.compare_cont Eq pa pb) with (Z.compare (Zpos pa) (Zpos pb)).
      destruct (Z.compare_spec (Zpos pa) (Zpos pb)); cbn [CompOpp]; cmp_close.
    - (* both positive *)
      destruct (Z.compare_spec ea eb); [|cmp_close|cmp_close].
      subst eb.
      change (Pos.compare_cont Eq pa pb) with (Z.compare (Zpos pa) (Zpos pb)).
      destruct (Z.compare_spec (Zpos pa) (Zpos pb)); cmp_close.
Qed.

  (** [a < b] on lanes, read on the bit patterns. *)
Lemma flt_skey (a b : lane) :
    lane_ok a -> lane_ok b ->
    Lane.flt a b = negb (is_nan a) && negb (is_nan b) && (skey a <? skey b).
Proof.
    intros Ha Hb. unfold Lane.flt, SFltb.
    destruct (is_nan a) eqn:Na.
    { rewrite (is_nan_decode a Ha Na). reflexivity. }
    destruct (is_nan b) eqn:Nb.
    { rewrite (is_nan_decode b Hb Nb). destruct (decode a); reflexivity. }
    rewrite SFcompare_skey by assumption.
    unfold Z.ltb. destruct (skey a ?= skey b); reflexivity.
Qed.

Lemma fle_skey (a b : lane) :
    lane_ok a -> lane_ok b ->
    Lane.fle a b = negb (is_nan a) && negb (is_nan b) && (skey a <=? skey b).
Proof.
    intros Ha Hb. unfold Lane.fle, SFleb.
    destruct (is_nan a) eqn:Na.
    { rewrite (is_nan_decode a Ha Na). reflexivity. }
    destruct (is_nan b) eqn:Nb.
    { rewrite (is_nan_decode b Hb Nb). destruct (decode a); reflexivity. }
    rewrite SFcompare_skey by assumption.
    unfold Z.leb. destruct (skey a ?= skey b); reflexivity.
Qed.

End OrderFacts.

(** ** Lanes stay 32 bits wide *)

Section RangeFacts.
Import Bits Lane.

Lemma lane_ok_land_ones (x : lane) :
    lane_ok x <-> Z.land x (Z.ones 32) = x.
Proof.
    unfold lane_ok, lane_mod. rewrite Z.land_ones by lia.
    change (2 ^ 32) with 4294967296. split; intros H.
    - apply Z.mod_small; exact H.
    - rewrite <- H. apply Z.mod_pos_bound. lia.
Qed.

Local Ltac by_bits :=
    apply Z.bits_inj'; intros i Hi;
    repeat first [ rewrite Z.land_spec | rewrite Z.lor_spec
                 | rewrite Z.lxor_spec | rewrite Z.ldiff_spec ].

Lemma land_ok_r (a b : lane) : lane_ok b -> lane_ok (Z.land a b).
Proof.
    rewrite !lane_ok_land_ones. intros H.
    rewrite <- Z.land_assoc, H. reflexivity.
Qed.

Lemma land_ok_l (a b : lane) : lane_ok a -> lane_ok (Z.land a b).
Proof. rewrite Z.land_comm. apply land_ok_r. Qed.

Lemma lor_ok (a b : lane) : lane_ok a -> lane_ok b -> lane_ok (Z.lor a b).
Proof.
    rewrite !lane_ok_land_ones. intros Ha Hb.
    rewrite Z.land_lor_distr_l, Ha, Hb. reflexivity.
Qed.

Lemma lxor_ok (a b : lane) : lane_ok a -> lane_ok b -> lane_ok (Z.lxor a b).
Proof.
    rewrite !lane_ok_land_ones. intros Ha Hb.
    rewrite <- Ha at 2. rewrite <- Hb at 2.
    by_bits. destruct (Z.testbit a i), (Z.testbit b i), (Z.testbit (Z.ones 32) i);
      reflexivity.
Qed.

Lemma ldiff_ok (a m : lane) : lane_ok a -> lane_ok (Z.ldiff a m).
Proof.
    rewrite !lane_ok_land_ones. intros Ha.
    rewrite <- Ha at 2.
    by_bits. destruct (Z.testbit a i), (Z.testbit m i), (Z.testbit (Z.ones 32) i);
      reflexivity.
Qed.

Lemma wrap_ok (z : Z) : lane_ok (wrap z).
Proof. unfold lane_ok, wrap, lane_mod. apply Z.mod_pos_bound. lia. Qed.

Lemma wrap_id (x : lane) : lane_ok x -> wrap x = x.
Proof. unfold lane_ok, wrap. intros H. apply Z.mod_small; exact H. Qed.

Lemma pack_ok (s : bool) (E F : Z) : lane_ok (pack s E F).
Proof.
    unfold pack, lane_ok, lane_mod, sign_word.
    change 255 with (Z.ones 8). change 8388607 with (Z.ones 23).
    rewrite !Z.land_ones by lia.
    pose proof (Z.mod_pos_bound E (2 ^ 8) ltac:(lia)).
    pose proof (Z.mod_pos_bound F (2 ^ 23) ltac:(lia)).
    change (2 ^ 8) with 256 in *. change (2 ^ 23) with 8388608 in *.
    destruct s; lia.
Qed.

Lemma encode_ok (f : spec_float) : lane_ok (encode f).
Proof.
    destruct f as [s|s| |s m e]; cbn [encode]; try apply pack_ok.
    destruct (Zpos m <? 8388608); apply pack_ok.
Qed.

Lemma fadd_ok (a b : lane) : lane_ok (fadd a b).
Proof. apply encode_ok. Qed.
Lemma fsub_ok (a b : lane) : lane_ok (fsub a b).
Proof. apply encode_ok. Qed.
Lemma fmul_ok (a b : lane) : lane_ok (fmul a b).
Proof. apply encode_ok. Qed.
Lemma fdiv_ok (a b : lane) : lane_ok (fdiv a b).
Proof. apply encode_ok. Qed.
Lemma fsqrt_ok (a : lane) : lane_ok (fsqrt a).
Proof. apply encode_ok. Qed.

Lemma vand_ok_r (a b : lane) : lane_ok b -> lane_ok (vand a b).
Proof. apply land_ok_r. Qed.
Lemma vand_ok_l (a b : lane) : lane_ok a -> lane_ok (vand a b).
Proof. apply land_ok_l. Qed.
Lemma vor_ok (a b : lane) : lane_ok a -> lane_ok b -> lane_ok (vor a b).
Proof. apply lor_ok. Qed.
Lemma vxor_ok (a b : lane) : lane_ok a -> lane_ok b -> lane_ok (vxor a b).
Proof. apply lxor_ok. Qed.

Lemma select_ok (a b m : lane) :
    lane_ok a -> lane_ok b -> lane_ok (select a b m).
Proof.
    intros Ha Hb. unfold select.
    apply lor_ok; [apply ldiff_ok | apply land_ok_l]; assumption.
Qed.

Lemma mask_of_ok (c : bool) : lane_ok (mask_of c).
Proof. destruct c; unfold lane_ok, lane_mod, mask_of, ones; lia. Qed.

  (** [select] with a comparison mask is a choice. *)
Lemma select_mask (a b : lane) (c : bool) :
    lane_ok a -> lane_ok b ->
    select a b (mask_of c) = if c then b else a.
Proof.
    intros Ha Hb. unfold select, mask_of.
    apply lane_ok_land_ones in Ha. apply lane_ok_land_ones in Hb.
    destruct c.
    - change ones with (Z.ones 32). rewrite Hb.
      rewrite <- Ha. by_bits.
      destruct (Z.testbit a i), (Z.testbit b i), (Z.testbit (Z.ones 32) i);
        reflexivity.
    - rewrite Z.ldiff_0_r, Z.land_0_r, Z.lor_0_r. reflexivity.
Qed.

Lemma select_false (a b : lane) : select a b (mask_of false) = a.
Proof.
    unfold select, mask_of. rewrite Z.ldiff_0_r, Z.land_0_r, Z.lor_0_r.
    reflexivity.
Qed.

End RangeFacts.

Create HintDb lane.

#[export] Hint Resolve wrap_ok pack_ok encode_ok fadd_ok fsub_ok fmul_ok fdiv_ok
  fsqrt_ok vand_ok_r vand_ok_l vor_ok vxor_ok select_ok mask_of_ok
  land_ok_r land_ok_l lor_ok lxor_ok ldiff_ok : lane.

Section CompareFacts.
Import Lane.

Lemma flt_true_iff (a b : lane) :
    lane_ok a -> lane_ok b ->
    flt a b = true <-> is_nan a = false /\ is_nan b = false /\ skey a < skey b.
Proof.
    intros Ha Hb. rewrite flt_skey by assumption.
    rewrite !andb_true_iff, !negb_true_iff, Z.ltb_lt. tauto.
Qed.

Lemma fle_true_iff (a b : lane) :
    lane_ok a -> lane_ok b ->
    fle a b = true <-> is_nan a = false /\ is_nan b = false /\ skey a <= skey b.
Proof.
    intros Ha Hb. rewrite fle_skey by assumption.
    rewrite !andb_true_iff, !negb_true_iff, Z.leb_le. tauto.
Qed.

Lemma flt_false_of_le (a b : lane) :
    lane_ok a -> lane_ok b -> skey b <= skey a -> flt a b = false.
Proof.
    intros Ha Hb H. rewrite flt_skey by assumption.
    apply Z.ltb_ge in H. rewrite H. apply andb_false_r.
Qed.

Lemma ldexp_float_ok (p n : lane) : lane_ok p -> lane_ok (Kernels.ldexp_float p n).
Proof.
    intros Hp. unfold Kernels.ldexp_float, vor, andnot, iadd.
    apply lor_ok; [apply ldiff_ok; assumption | apply wrap_ok].
Qed.

Lemma exp_approx_ok (x : lane) : lane_ok (Kernels.exp_approx x).
Proof. unfold Kernels.exp_approx. apply ldexp_float_ok. apply fadd_ok. Qed.

End CompareFacts.

#[export] Hint Resolve ldexp_float_ok exp_approx_ok : lane.

Ltac lane_const := unfold lane_ok; vm_compute; split; [discriminate | reflexivity].

(** ** Boundary handling of the exponential *)

Section ExpClamp.
Import Lane Kernels.

Lemma maxlogf_ok : lane_ok maxlogf.
Proof. lane_const. Qed.
Lemma minlogf_ok : lane_ok minlogf.
Proof. lane_const. Qed.
Lemma max_float_ok : lane_ok max_float.
Proof. lane_const. Qed.
Lemma gen_zero_ok : lane_ok gen_zero.
Proof. lane_const. Qed.


  (** Between the two bounds both selects of [vec_exp_float] keep their
      first argument. *)
Lemma vec_exp_float_inside (x : lane) :
    lane_ok x -> fle minlogf x = true -> fle x maxlogf = true ->
    vec_exp_float x = exp_approx x.
Proof.
    intros Hx Hlo Hhi.
    pose proof maxlogf_ok as Hmax. pose proof minlogf_ok as Hmin.
    unfold vec_exp_float, mask_gt, mask_lt. cbv zeta.
    apply fle_true_iff in Hlo; try assumption.
    apply fle_true_iff in Hhi; try assumption.
    rewrite (flt_false_of_le maxlogf x) by (try assumption; lia).
    rewrite (flt_false_of_le x minlogf) by (try assumption; lia).
    rewrite !select_false. reflexivity.
Qed.



  (** C7.  [vec_exp_float] is [vec_exp_tanh_float] followed by the two
      boundary selects, and inside the bounds the two kernels give the same
      lane. *)
Theorem vec_exp_tanh_float_agrees (x : lane) :
    lane_ok x ->
    vec_exp_float x =
      select (select (vec_exp_tanh_float x) max_float (mask_gt x maxlogf))
             gen_zero (mask_lt x minlogf) /\
    (fle minlogf x = true -> fle x maxlogf = true ->
       vec_exp_tanh_float x = vec_exp_float x).
Proof.
    intros Hx. split.
    { unfold vec_exp_float, vec_exp_tanh_float, exp_approx, one_f, gen_one.
      reflexivity. }
    intros Hlo Hhi.
    rewrite (vec_exp_float_inside x Hx Hlo Hhi).
    unfold vec_exp_tanh_float, exp_approx, one_f, gen_one. reflexivity.
Qed.

Lemma vec_exp_tanh_float_agrees_witness :
    vec_exp_tanh_float gen_one = vec_exp_float gen_one.
Proof.
    apply (vec_exp_tanh_float_agrees gen_one);
      [lane_const | vm_compute; reflexivity | vm_compute; reflexivity].
Defined.

End ExpClamp.

(** ** The exponential at the bounds themselves *)

Section ExpBounds.
Import Bits Lane Kernels.


End ExpBounds.

(** ** Inverse sine and cosine outside their domain *)

Section OutOfDomain.
Import Lane Kernels.

  (** C4.  On a lane whose magnitude is above one, [vec_asin_float] and
      [vec_acos_float] both give zero. *)
Theorem asin_acos_out_of_domain (x : lane) :
    flt gen_one (vand x gen_abs_mask) = true ->
    vec_asin_float x = gen_zero /\ vec_acos_float x = gen_zero.
Proof.
    intros H.
    assert (Hm : mask_gt (vand x gen_abs_mask) gen_one = mask_of true)
      by (unfold mask_gt; rewrite H; reflexivity).
    split.
    - unfold vec_asin_float. cbv zeta. rewrite Hm.
      rewrite select_mask; [reflexivity | | apply gen_zero_ok].
      apply vxor_ok; [|apply vand_ok_r; lane_const].
      apply select_ok; auto with lane.
    - unfold vec_acos_float. cbv zeta. rewrite Hm.
      rewrite select_mask; [reflexivity | | apply gen_zero_ok].
      repeat apply select_ok; auto with lane.
Qed.

  (** [asin(2)] and [acos(-2)] are zero. *)
Lemma asin_acos_out_of_domain_witness :
    vec_asin_float 1073741824 = gen_zero /\
    vec_acos_float 3221225472 = gen_zero.
Proof.
    split.
    - apply (asin_acos_out_of_domain 1073741824). vm_compute. reflexivity.
    - apply (asin_acos_out_of_domain 3221225472). vm_compute. reflexivity.
Defined.

End OutOfDomain.

(** ** Tangent and arc tangent at zero *)

Section AtZero.
Import Lane Kernels.

  (** C10.  At input zero the tangent and the arc tangent are zero.  The
      divisor of the reciprocal branch of [vec_tan_float] ([approx]) and
      of the third candidate of [vec_atan_float] ([abs_arg]) is zero there,
      the quotient is minus infinity, and the masks of that lane select the
      other branch. *)
Theorem tan_atan_total_at_zero :
    vec_tan_float gen_zero = gen_zero /\
    vec_atan_float gen_zero = gen_zero /\
    tan_approx gen_zero = gen_zero /\
    tan_recip gen_zero = minus_infinity /\
    tan_poly_mask gen_zero = ones /\
    vand gen_zero gen_abs_mask = gen_zero /\
    atan_arg_range2 gen_zero = minus_infinity /\
    mask_gt (vand gen_zero gen_abs_mask) atan_t1 = 0.
Proof. vm_compute. repeat split. Qed.

End AtZero.

(** ** The fold of the logarithm *)

Section LogFold.
Import Bits Lane Kernels.
Local Open Scope lane_scope.

Lemma fadd_minus_one (m : lane) : fadd m minus_one_f = fsub m gen_one.
Proof.
    unfold fadd, fsub.
    replace (decode minus_one_f) with (S754_finite true 8388608 (-23))
      by (vm_compute; reflexivity).
    replace (decode gen_one) with (S754_finite false 8388608 (-23))
      by (vm_compute; reflexivity).
    destruct (decode m) as [s|s| |s p e]; reflexivity.
Qed.

Lemma frexp_float_ok (x : lane) :
    lane_ok x ->
    lane_ok (fst (frexp_float x)) /\ lane_ok (snd (frexp_float x)).
Proof.
    intros Hx. unfold frexp_float. cbn [fst snd]. split.
    - apply vor_ok; [apply ldiff_ok; assumption | lane_const].
    - apply wrap_ok.
Qed.

Lemma iadd_ones (e : lane) : iadd e ones = isub e (int_vec 1).
Proof.
    unfold iadd, isub, int_vec, wrap, ones, lane_mod.
    change (1 mod 4294967296) with 1.
    replace (e + 4294967295) with (e - 1 + 1 * 4294967296) by lia.
    apply Z_mod_plus_full.
Qed.

  (** The reduction at [x = 1]: [frexp_float] gives the mantissa 0.5 and
      the exponent 1, the mantissa is below [sqrt(0.5)], and the exponent
      after the fold is 0, not 2. *)
Lemma log_reduce_at_one :
    frexp_float gen_one = (gen_05, 1) /\
    flt gen_05 log_sqrt_05 = true /\
    snd (log_reduce gen_one) = 0 /\
    snd (log_reduce gen_one) <> iadd 1 (int_vec 1).
Proof. vm_compute. repeat split; discriminate. Qed.

  (** C1, as the code has it.  With [(m, e)] the result of [frexp_float]:
      on a lane whose mantissa is below [sqrt(0.5)] the exponent is
      decremented by one and the mantissa becomes [m + (m - 1)]; on every
      other lane the exponent is kept and the mantissa becomes [m - 1]. *)
Theorem log_reduce_fold (x : lane) :
    lane_ok x ->
    let m := fst (frexp_float x) in
    let e := snd (frexp_float x) in
    (flt m log_sqrt_05 = true ->
       log_reduce x = (m +! (m -! gen_one), isub e (int_vec 1))) /\
    (flt m log_sqrt_05 = false ->
       log_reduce x = (m -! gen_one, e)).
Proof.
    intros Hx m e.
    destruct (frexp_float_ok x Hx) as (Hm & He). fold m in Hm. fold e in He.
    unfold log_reduce.
    assert (Hf : frexp_float x = (m, e)) by (unfold m, e; destruct (frexp_float x); reflexivity).
    rewrite Hf. cbv zeta. unfold mask_lt. split; intros Hc; rewrite Hc.
    - f_equal.
      + unfold vand, mask_of. change ones with (Z.ones 32).
        apply lane_ok_land_ones in Hm. rewrite Hm. reflexivity.
      + apply iadd_ones.
    - f_equal.
      + unfold vand, mask_of. rewrite Z.land_0_r.
        replace (0 -! gen_one)%lane with minus_one_f by (vm_compute; reflexivity).
        apply fadd_minus_one.
      + unfold iadd, mask_of. rewrite Z.add_0_r. apply wrap_id. exact He.
Qed.

Lemma log_reduce_fold_witness :
    log_reduce gen_one = (gen_05 +! (gen_05 -! gen_one), isub 1 (int_vec 1)) /\
    log_reduce 1069547520 = (1061158912 -! gen_one, 1).
Proof.
    split.
    - apply (log_reduce_fold gen_one); [lane_const | vm_compute; reflexivity].
    - apply (log_reduce_fold 1069547520); [lane_const | vm_compute; reflexivity].
Defined.

End LogFold.

(** ** Sign handling of sine, cosine and arc tangent *)

Section SignSymmetry.
Import Lane Kernels.

Local Ltac bitwise :=
  apply Z.bits_inj'; intros i Hi;
  repeat first [ rewrite Z.land_spec | rewrite Z.lor_spec
               | rewrite Z.lxor_spec | rewrite Z.ldiff_spec ].

Lemma abs_fneg (x : lane) :
  vand (fneg x) gen_abs_mask = vand x gen_abs_mask.
Proof.
  unfold vand, fneg. bitwise.
  replace gen_sign_mask with (Z.shiftl 1 31) by reflexivity.
  replace gen_abs_mask with (Z.ones 31) by reflexivity.
  rewrite Z.shiftl_spec by lia.
  destruct (Z.ltb_spec i 31).
  - rewrite (Z.testbit_neg_r 1) by lia. rewrite xorb_false_r. reflexivity.
  - rewrite Z.ones_spec_high by lia. rewrite !andb_false_r. reflexivity.
Qed.

Lemma sign_fneg (x : lane) :
  vand (fneg x) gen_sign_mask = vxor (vand x gen_sign_mask) gen_sign_mask.
Proof.
  unfold vand, vxor, fneg. bitwise.
  destruct (Z.testbit x i), (Z.testbit gen_sign_mask i); reflexivity.
Qed.

Lemma vxor_fneg_r (a s : lane) :
  vxor a (vxor s gen_sign_mask) = fneg (vxor a s).
Proof. unfold vxor, fneg. symmetry. apply Z.lxor_assoc. Qed.

Lemma vec_sin_float_fneg (x : lane) :
  vec_sin_float (fneg x) = fneg (vec_sin_float x).
Proof.
  unfold vec_sin_float. cbv zeta.
  rewrite abs_fneg, sign_fneg.
  unfold vxor, fneg. bitwise.
  repeat match goal with |- context [Z.testbit ?a i] =>
    let b := fresh "b" in generalize (Z.testbit a i); intro b end.
  repeat match goal with b : bool |- _ => destruct b end; reflexivity.
Qed.

Lemma vec_cos_float_fneg (x : lane) :
  vec_cos_float (fneg x) = vec_cos_float x.
Proof.
  unfold vec_cos_float. cbv zeta. rewrite abs_fneg. reflexivity.
Qed.

Lemma vec_atan_float_fneg (x : lane) :
  vec_atan_float (fneg x) = fneg (vec_atan_float x).
Proof.
  unfold vec_atan_float, atan_arg_range2. cbv zeta.
  rewrite abs_fneg, sign_fneg. apply vxor_fneg_r.
Qed.

(** At zero the hyperbolic tangent loses the sign: both zeros are mapped
    to [+0], so [tanh(-0)] and [-tanh(+0)] differ in the sign bit. *)
Lemma vec_tanh_float_zero_sign :
  vec_tanh_float (fneg gen_zero) = gen_zero /\
  fneg (vec_tanh_float gen_zero) = gen_sign_mask /\
  vec_tanh_float (fneg gen_zero) <> fneg (vec_tanh_float gen_zero).
Proof. vm_compute. repeat split; discriminate. Qed.

End SignSymmetry.

(** ** [frexp_float] and [ldexp_float] *)

Section FrexpLdexp.
Import Bits Lane Kernels.

Local Ltac bitwise :=
  apply Z.bits_inj'; intros i Hi;
  repeat first [ rewrite Z.land_spec | rewrite Z.lor_spec
               | rewrite Z.lxor_spec | rewrite Z.ldiff_spec ].

Lemma lor_disjoint_add (a b : Z) : Z.land a b = 0 -> Z.lor a b = a + b.
Proof.
  intros H. rewrite Z.add_nocarry_lxor by exact H.
  symmetry. apply Z.lxor_lor. exact H.
Qed.

Lemma ldiff_as_sub (y m : Z) : Z.ldiff y m = y - Z.land y m.
Proof.
  assert (H : Z.lor (Z.ldiff y m) (Z.land y m) = y) by apply Z.lor_ldiff_and.
  rewrite lor_disjoint_add in H; [lia|].
  bitwise. rewrite Z.bits_0.
  destruct (Z.testbit y i), (Z.testbit m i); reflexivity.
Qed.

Lemma land_exp_mask (y : lane) :
  Z.land gen_exp_mask y = expo_field y * 8388608.
Proof.
  unfold expo_field.
  replace gen_exp_mask with (Z.shiftl 255 23) by reflexivity.
  change 8388608 with (2 ^ 23). rewrite <- Z.shiftl_mul_pow2 by lia.
  bitwise. rewrite !Z.shiftl_spec by lia.
  destruct (Z.ltb_spec i 23).
  - rewrite (Z.testbit_neg_r 255) by lia.
    rewrite (Z.testbit_neg_r (Z.land (Z.shiftr y 23) 255)) by lia.
    reflexivity.
  - rewrite Z.land_spec, Z.shiftr_spec by lia.
    replace (i - 23 + 23) with i by lia. apply andb_comm.
Qed.

Lemma fields_unique (y : lane) (s : bool) (E F : Z) :
  0 <= E < 256 -> 0 <= F < 8388608 ->
  y = sign_word s + E * 8388608 + F ->
  sign_bit y = s /\ expo_field y = E /\ frac_field y = F.
Proof.
  intros HE HF Hy.
  assert (Hok : lane_ok y)
    by (unfold lane_ok, lane_mod; unfold sign_word in Hy; destruct s; lia).
  destruct (fields_of_lane y Hok) as (Hy' & HE' & HF').
  unfold sign_word in *.
  destruct (sign_bit y), s; repeat split; try reflexivity; lia.
Qed.

Lemma frexp_float_fields (x : lane) :
  lane_ok x ->
  frexp_float x =
    (sign_word (sign_bit x) + 126 * 8388608 + frac_field x,
     wrap (expo_field x - 126)).
Proof.
  intros Hx. destruct (fields_of_lane x Hx) as (Ex & HE & HF).
  unfold frexp_float. cbv zeta. f_equal.
  - unfold vor, andnot. rewrite lor_disjoint_add.
    + rewrite ldiff_as_sub, (Z.land_comm x), land_exp_mask.
      unfold gen_exp_mask_1. lia.
    + replace gen_exp_mask_1 with (Z.land gen_exp_mask gen_exp_mask_1)
        by reflexivity.
      bitwise. rewrite Z.bits_0.
      destruct (Z.testbit x i), (Z.testbit gen_exp_mask i); reflexivity.
  - unfold isub, srli, vand, int_vec. rewrite land_exp_mask.
    rewrite (wrap_id (expo_field x * 8388608))
      by (unfold lane_ok, lane_mod; lia).
    rewrite Z.shiftr_div_pow2 by lia. change (2 ^ (16 + 7)) with 8388608.
    rewrite Z.div_mul by lia. reflexivity.
Qed.

(** [ldexp_float] on the fields of a pattern: the count is added to the
    exponent field. *)
Lemma ldexp_float_any (s : bool) (E F n : Z) :
  0 <= E < 256 -> 0 <= F < 8388608 -> 0 <= n + E < 256 ->
  ldexp_float (sign_word s + E * 8388608 + F) (wrap n) =
  sign_word s + (n + E) * 8388608 + F.
Proof.
  intros HE HF Hn.
  set (m := sign_word s + E * 8388608 + F).
  destruct (fields_unique m s E F HE HF eq_refl) as (_ & Em & _).
  unfold ldexp_float. cbv zeta. unfold vor, andnot, vand, iadd, slli.
  rewrite land_exp_mask, Em.
  assert (Hnew : wrap (wrap (Z.shiftl (wrap n) (16 + 7)) + E * 8388608)
                 = (n + E) * 8388608).
  { unfold wrap, lane_mod. rewrite Z.shiftl_mul_pow2 by lia.
    change (2 ^ (16 + 7)) with 8388608.
    rewrite Z.mul_mod_idemp_l by lia.
    rewrite Z.add_mod_idemp_l by lia.
    replace (n * 8388608 + E * 8388608) with ((n + E) * 8388608) by lia.
    apply Z.mod_small. lia. }
  rewrite Hnew.
  rewrite lor_disjoint_add.
  - rewrite ldiff_as_sub, (Z.land_comm m), land_exp_mask, Em. unfold m. lia.
  - assert (HX : Z.land gen_exp_mask ((n + E) * 8388608)
                 = (n + E) * 8388608).
    { rewrite land_exp_mask.
      destruct (fields_unique ((n + E) * 8388608) false (n + E) 0
                  ltac:(lia) ltac:(lia)) as (_ & -> & _);
        [unfold sign_word; lia | reflexivity]. }
    rewrite <- HX.
    bitwise. rewrite Z.bits_0.
    destruct (Z.testbit m i), (Z.testbit gen_exp_mask i); reflexivity.
Qed.

Lemma ldexp_float_fields (s : bool) (F n : Z) :
  0 <= F < 8388608 -> 0 <= n + 126 < 256 ->
  ldexp_float (sign_word s + 126 * 8388608 + F) (wrap n) =
  sign_word s + (n + 126) * 8388608 + F.
Proof. intros HF Hn. apply ldexp_float_any; lia. Qed.

(** Every pattern is rebuilt from its mantissa and exponent. *)
Lemma ldexp_frexp_any (x : lane) :
  lane_ok x ->
  ldexp_float (fst (frexp_float x)) (snd (frexp_float x)) = x.
Proof.
  intros Hx. destruct (fields_of_lane x Hx) as (Ex & HE & HF).
  rewrite frexp_float_fields by assumption. cbn [fst snd].
  rewrite ldexp_float_fields by lia.
  lia.
Qed.

(** C5.  For a normal positive float [x], [ldexp_float] applied to the
    mantissa and exponent that [frexp_float] gives for [x] is [x] again,
    bit for bit. *)
Theorem ldexp_frexp_roundtrip (x : lane) :
  normal_positive x ->
  let '(m, e) := frexp_float x in ldexp_float m e = x.
Proof.
  intros Hx.
  assert (Hok : lane_ok x) by (unfold normal_positive in Hx; unfold lane_ok, lane_mod; lia).
  pose proof (ldexp_frexp_any x Hok) as H.
  destruct (frexp_float x) as [m e]. exact H.
Qed.

Lemma ldexp_frexp_roundtrip_witness :
  let '(m, e) := frexp_float 1078530011 in ldexp_float m e = 1078530011.
Proof.
  apply (ldexp_frexp_roundtrip 1078530011).
  unfold normal_positive. lia.
Defined.

End FrexpLdexp.

(** ** Sign and magnitude of a pattern *)

Section SignFacts.
Import Bits Lane.

Lemma magnitude_bound (x : lane) : 0 <= magnitude x < 2147483648.
Proof. unfold magnitude. apply Z.mod_pos_bound. lia. Qed.

Lemma lane_sign_cases (x : lane) :
  lane_ok x ->
  (sign_bit x = false /\ x = magnitude x /\ skey x = magnitude x) \/
  (sign_bit x = true /\ x = 2147483648 + magnitude x /\ skey x = - magnitude x).
Proof.
  intros Hx. pose proof (magnitude_fields x Hx) as Hm.
  destruct (fields_of_lane x Hx) as (Ex & HE & HF).
  unfold skey. unfold sign_word in Ex.
  destruct (sign_bit x); [right | left]; repeat split; lia.
Qed.

Lemma abs_magnitude (x : lane) : vand x gen_abs_mask = magnitude x.
Proof.
  unfold vand, magnitude. change gen_abs_mask with (Z.ones 31).
  rewrite Z.land_ones by lia. reflexivity.
Qed.

Lemma magnitude_ok (x : lane) : lane_ok (magnitude x).
Proof. pose proof (magnitude_bound x). unfold lane_ok, lane_mod. lia. Qed.

Lemma magnitude_idem (x : lane) : magnitude (magnitude x) = magnitude x.
Proof. unfold magnitude. apply Z.mod_mod. lia. Qed.

Lemma sign_bit_magnitude (x : lane) : sign_bit (magnitude x) = false.
Proof.
  rewrite sign_bit_ge by apply magnitude_ok.
  apply Z.leb_gt. apply magnitude_bound.
Qed.

Lemma skey_magnitude (x : lane) : skey (magnitude x) = magnitude x.
Proof. unfold skey. rewrite sign_bit_magnitude. apply magnitude_idem. Qed.

Lemma is_nan_magnitude (x : lane) : is_nan (magnitude x) = is_nan x.
Proof. unfold is_nan. rewrite magnitude_idem. reflexivity. Qed.

Lemma fneg_negative (x : lane) :
  lane_ok x -> sign_bit x = true -> fneg x = magnitude x.
Proof.
  intros Hx Hs. rewrite <- abs_magnitude.
  unfold fneg, vand.
  apply lane_ok_land_ones in Hx.
  change gen_sign_mask with (Z.shiftl 1 31).
  change gen_abs_mask with (Z.ones 31).
  apply Z.bits_inj'. intros i Hi.
  rewrite Z.lxor_spec, Z.land_spec, Z.shiftl_spec by lia.
  destruct (Z.ltb_spec i 31) as [Hlt|Hge].
  - rewrite Z.ones_spec_low, (Z.testbit_neg_r 1) by lia.
    rewrite xorb_false_r, andb_true_r. reflexivity.
  - rewrite Z.ones_spec_high, andb_false_r by lia.
    destruct (Z.eq_dec i 31) as [->|Hne].
    + unfold sign_bit in Hs. rewrite Hs. reflexivity.
    + rewrite <- Hx. rewrite Z.land_spec.
      rewrite (Z.ones_spec_high 32 i) by lia.
      rewrite andb_false_r.
      replace (i - 31) with (Z.succ (i - 32)) by lia.
      replace (Z.testbit 1 (Z.succ (i - 32))) with false; [reflexivity|].
      symmetry. apply (Z.bits_above_log2 1); cbn; lia.
Qed.

Lemma decode_fneg (x : lane) : decode (fneg x) = SFopp (decode x).
Proof.
  assert (Hs : sign_bit (fneg x) = negb (sign_bit x)).
  { unfold sign_bit, fneg. rewrite Z.lxor_spec.
    replace (Z.testbit gen_sign_mask 31) with true by reflexivity.
    apply xorb_true_r. }
  assert (Hb : forall i, 0 <= i < 31 ->
             Z.testbit (fneg x) i = Z.testbit x i).
  { intros i Hi. unfold fneg. rewrite Z.lxor_spec.
    change gen_sign_mask with (Z.shiftl 1 31).
    rewrite Z.shiftl_spec, (Z.testbit_neg_r 1) by lia.
    apply xorb_false_r. }
  assert (He : expo_field (fneg x) = expo_field x).
  { unfold expo_field. apply Z.bits_inj'. intros i Hi.
    rewrite !Z.land_spec, !Z.shiftr_spec by lia.
    destruct (Z.ltb_spec i 8).
    - rewrite Hb by lia. reflexivity.
    - change 255 with (Z.ones 8). rewrite Z.ones_spec_high by lia.
      rewrite !andb_false_r. reflexivity. }
  assert (Hf : frac_field (fneg x) = frac_field x).
  { unfold frac_field. apply Z.bits_inj'. intros i Hi.
    rewrite !Z.land_spec.
    destruct (Z.ltb_spec i 23).
    - rewrite Hb by lia. reflexivity.
    - change 8388607 with (Z.ones 23). rewrite Z.ones_spec_high by lia.
      rewrite !andb_false_r. reflexivity. }
  unfold decode. rewrite Hs, He, Hf.
  destruct (expo_field x =? 0).
  - destruct (frac_field x); reflexivity.
  - destruct (expo_field x =? 255).
    + destruct (frac_field x =? 0); reflexivity.
    + destruct (frac_field x + 8388608); reflexivity.
Qed.

Lemma SFsub_opp (a b : spec_float) :
  SFsub prec32 emax32 a (SFopp b) = SFadd prec32 emax32 a b.
Proof.
  destruct a as [sa|sa| |sa ma ea], b as [sb|sb| |sb mb eb];
    try reflexivity;
    destruct sa, sb; reflexivity.
Qed.

Lemma fsub_fneg (a b : lane) : fsub a (fneg b) = fadd a b.
Proof. unfold fsub, fadd. rewrite decode_fneg, SFsub_opp. reflexivity. Qed.

End SignFacts.

(** ** The three regions of the arc cosine *)

Section AcosRegions.
Import Bits Lane Kernels.
Local Open Scope lane_scope.

Lemma select_true (a b : lane) :
  lane_ok a -> lane_ok b -> select a b (mask_of true) = b.
Proof. intros Ha Hb. rewrite select_mask by assumption. reflexivity. Qed.

Lemma flt_decide (a b : lane) :
  lane_ok a -> lane_ok b -> is_nan a = false -> is_nan b = false ->
  flt a b = (skey a <? skey b).
Proof.
  intros Ha Hb Na Nb. rewrite flt_skey by assumption.
  rewrite Na, Nb. reflexivity.
Qed.

Lemma vec_asin_float_ok (x : lane) : lane_ok (vec_asin_float x).
Proof.
  unfold vec_asin_float. cbv zeta.
  apply select_ok; [|apply gen_zero_ok].
  apply vxor_ok; [|apply vand_ok_r; lane_const].
  apply select_ok; auto with lane.
Qed.

(** C2 at [x = -0.5].  The lane is in the middle region of the identity,
    [-0.5 <= x <= 0.5], where the result is to be [pi/2 - asin(x)], the
    pattern [0x40060A92 = 2.0943952]; the other endpoint [0.5] gets that
    combination.  At [-0.5] neither [|x| > 0.5] nor [x > -0.5] holds, and
    the kernel returns [pi - 2 asin(x)] on the argument as it is, the
    pattern [0x40860A92 = 4.1887903]. *)
Theorem vec_acos_float_minus_half_region :
  (fle minus_half_f minus_half_f = true /\ fle minus_half_f gen_05 = true) /\
  (flt gen_05 (vand minus_half_f gen_abs_mask) = false /\
   flt minus_half_f minus_half_f = false) /\
  pi_2_f -! vec_asin_float minus_half_f = 1074137746 /\
  vec_acos_float minus_half_f = 1082526354 /\
  vec_acos_float minus_half_f <> pi_2_f -! vec_asin_float minus_half_f /\
  vec_acos_float minus_half_f =
    pi_f -! (vec_asin_float minus_half_f +! vec_asin_float minus_half_f) /\
  vec_acos_float gen_05 = pi_2_f -! vec_asin_float gen_05.
Proof. vm_compute. repeat split; try reflexivity; discriminate. Qed.

(** X21.  Inside the domain and away from the lane [-0.5], the arc cosine
    follows the three regions: [-0.5 < x <= 0.5] gives [pi/2 - asin(x)];
    [-1 <= x < -0.5] gives [pi - 2 asin(sqrt((1+x) 0.5))]; [0.5 < x <= 1]
    gives [2 asin(sqrt((1-x) 0.5))], with [asin] the kernel
    [vec_asin_float]. *)
Theorem vec_acos_float_regions (x : lane) :
  lane_ok x ->
  (flt minus_half_f x = true -> fle x gen_05 = true ->
     vec_acos_float x = pi_2_f -! vec_asin_float x) /\
  (fle (fneg gen_one) x = true -> flt x minus_half_f = true ->
     vec_acos_float x =
       pi_f -! (vec_asin_float (acos_reduced (gen_one +! x)) +!
                vec_asin_float (acos_reduced (gen_one +! x)))) /\
  (flt gen_05 x = true -> fle x gen_one = true ->
     vec_acos_float x =
       vec_asin_float (acos_reduced (gen_one -! x)) +!
       vec_asin_float (acos_reduced (gen_one -! x))).
Proof.
  intros Hx.
  assert (H05 : lane_ok gen_05) by lane_const.
  assert (Hm05 : lane_ok minus_half_f) by lane_const.
  assert (H1 : lane_ok gen_one) by lane_const.
  assert (Hm1 : lane_ok (fneg gen_one)) by lane_const.
  assert (K05 : skey gen_05 = 1056964608) by (vm_compute; reflexivity).
  assert (Km05 : skey minus_half_f = -1056964608) by (vm_compute; reflexivity).
  assert (K1 : skey gen_one = 1065353216) by (vm_compute; reflexivity).
  assert (Km1 : skey (fneg gen_one) = -1065353216) by (vm_compute; reflexivity).
  assert (N05 : is_nan gen_05 = false) by (vm_compute; reflexivity).
  assert (Nm05 : is_nan minus_half_f = false) by (vm_compute; reflexivity).
  assert (N1 : is_nan gen_one = false) by (vm_compute; reflexivity).
  pose proof (magnitude_bound x) as Hmb.
  pose proof (magnitude_ok x) as Hmo.
  pose proof (skey_magnitude x) as Hkm.
  pose proof (gen_zero_ok) as Hz.
  pose proof (vec_asin_float_ok) as Hao.
  unfold vec_acos_float, acos_reduced. cbv zeta.
  rewrite abs_magnitude. unfold mask_gt.
  repeat split.
  - intros Hlo Hhi.
    apply flt_true_iff in Hlo; try assumption.
    apply fle_true_iff in Hhi; try assumption.
    destruct Hlo as (_ & Nx & Hlo). destruct Hhi as (_ & _ & Hhi).
    assert (Nm : is_nan (magnitude x) = false) by (rewrite is_nan_magnitude; exact Nx).
    rewrite (flt_decide gen_05 (magnitude x)) by assumption.
    rewrite (flt_decide gen_05 x) by assumption.
    rewrite (flt_decide minus_half_f x) by assumption.
    rewrite (flt_decide gen_one (magnitude x)) by assumption.
    destruct (lane_sign_cases x Hx) as [(Hs & Hxm & Hk)|(Hs & Hxm & Hk)].
    all: replace (skey gen_05 <? skey (magnitude x)) with false
           by (symmetry; apply Z.ltb_ge; lia).
    all: replace (skey gen_05 <? skey x) with false
           by (symmetry; apply Z.ltb_ge; lia).
    all: replace (skey minus_half_f <? skey x) with true
           by (symmetry; apply Z.ltb_lt; lia).
    all: replace (skey gen_one <? skey (magnitude x)) with false
           by (symmetry; apply Z.ltb_ge; lia).
    all: rewrite !select_false; rewrite select_true by auto with lane;
         reflexivity.
  - intros Hlo Hhi.
    apply fle_true_iff in Hlo; try assumption.
    apply flt_true_iff in Hhi; try assumption.
    destruct Hlo as (_ & Nx & Hlo). destruct Hhi as (_ & _ & Hhi).
    assert (Nm : is_nan (magnitude x) = false) by (rewrite is_nan_magnitude; exact Nx).
    rewrite (flt_decide gen_05 (magnitude x)) by assumption.
    rewrite (flt_decide gen_05 x) by assumption.
    rewrite (flt_decide minus_half_f x) by assumption.
    rewrite (flt_decide gen_one (magnitude x)) by assumption.
    destruct (lane_sign_cases x Hx) as [(Hs & Hxm & Hk)|(Hs & Hxm & Hk)];
      [lia|].
    replace (skey gen_05 <? skey (magnitude x)) with true
      by (symmetry; apply Z.ltb_lt; lia).
    replace (skey gen_05 <? skey x) with false
      by (symmetry; apply Z.ltb_ge; lia).
    replace (skey minus_half_f <? skey x) with false
      by (symmetry; apply Z.ltb_ge; lia).
    replace (skey gen_one <? skey (magnitude x)) with false
      by (symmetry; apply Z.ltb_ge; lia).
    rewrite !select_false. rewrite select_true by auto with lane.
    rewrite <- (fneg_negative x Hx Hs), fsub_fneg. reflexivity.
  - intros Hlo Hhi.
    apply flt_true_iff in Hlo; try assumption.
    apply fle_true_iff in Hhi; try assumption.
    destruct Hlo as (_ & Nx & Hlo). destruct Hhi as (_ & _ & Hhi).
    assert (Nm : is_nan (magnitude x) = false) by (rewrite is_nan_magnitude; exact Nx).
    rewrite (flt_decide gen_05 (magnitude x)) by assumption.
    rewrite (flt_decide gen_05 x) by assumption.
    rewrite (flt_decide minus_half_f x) by assumption.
    rewrite (flt_decide gen_one (magnitude x)) by assumption.
    destruct (lane_sign_cases x Hx) as [(Hs & Hxm & Hk)|(Hs & Hxm & Hk)];
      [|lia].
    replace (skey gen_05 <? skey (magnitude x)) with true
      by (symmetry; apply Z.ltb_lt; lia).
    replace (skey gen_05 <? skey x) with true
      by (symmetry; apply Z.ltb_lt; lia).
    replace (skey minus_half_f <? skey x) with true
      by (symmetry; apply Z.ltb_lt; lia).
    replace (skey gen_one <? skey (magnitude x)) with false
      by (symmetry; apply Z.ltb_ge; lia).
    rewrite !select_false. rewrite !select_true by auto with lane.
    rewrite <- Hxm. reflexivity.
Qed.

(** The three regions at [0.25], [-0.75] and [0.75]. *)
Lemma vec_acos_float_regions_witness :
  vec_acos_float 1048576000 = pi_2_f -! vec_asin_float 1048576000 /\
  vec_acos_float 3208642560 =
    pi_f -! (vec_asin_float (acos_reduced (gen_one +! 3208642560)) +!
             vec_asin_float (acos_reduced (gen_one +! 3208642560))) /\
  vec_acos_float 1061158912 =
    vec_asin_float (acos_reduced (gen_one -! 1061158912)) +!
    vec_asin_float (acos_reduced (gen_one -! 1061158912)).
Proof.
  split; [|split].
  - apply (vec_acos_float_regions 1048576000);
      [lane_const | vm_compute; reflexivity | vm_compute; reflexivity].
  - apply (vec_acos_float_regions 3208642560);
      [lane_const | vm_compute; reflexivity | vm_compute; reflexivity].
  - apply (vec_acos_float_regions 1061158912);
      [lane_const | vm_compute; reflexivity | vm_compute; reflexivity].
Defined.

End AcosRegions.

(** ** Accuracy of the arc cosine at [-0.5] *)

Section Accuracy.
Import Bits Lane Kernels.

(** C9 at [acos(-0.5)].  The kernel returns 8784530 / 2^21 = 4.18879...,
    which is above [pi], so its relative error against the arc cosine of
    [-1/2] is more than the 5e-7 of the header. *)
Theorem vec_acos_float_minus_half_error :
  lane_R minus_half_f = (-1/2)%R /\
  lane_R (vec_acos_float minus_half_f) = (8784530 / 2097152)%R /\
  (Rabs (lane_R (vec_acos_float minus_half_f) - acos (lane_R minus_half_f)) >
   5 / 10000000 * Rabs (acos (lane_R minus_half_f)))%R.
Proof.
  assert (Hin : lane_R minus_half_f = (-1/2)%R).
  { unfold lane_R.
    replace (decode minus_half_f) with (S754_finite true 8388608 (-24))
      by (vm_compute; reflexivity).
    cbn [SFR cond_Zopp Z.opp powerRZ].
    replace (2 ^ Pos.to_nat 24)%R with 16777216%R by (simpl; lra).
    lra. }
  assert (Hout : lane_R (vec_acos_float minus_half_f) = (8784530 / 2097152)%R).
  { unfold lane_R.
    replace (decode (vec_acos_float minus_half_f))
      with (S754_finite false 8784530 (-21))
      by (vm_compute; reflexivity).
    cbn [SFR cond_Zopp powerRZ].
    replace (2 ^ Pos.to_nat 21)%R with 2097152%R by (simpl; lra).
    lra. }
  split; [exact Hin|]. split; [exact Hout|].
  rewrite Hin, Hout.
  pose proof (acos_bound (-1/2)) as [Hlo Hhi].
  pose proof PI_4 as Hpi.
  rewrite (Rabs_pos_eq (acos (-1/2))) by exact Hlo.
  rewrite Rabs_pos_eq by lra.
  lra.
Qed.

End Accuracy.

(** ** Rounding in [SpecFloat], read on integers *)

Section ShiftFacts.

Lemma digits2_pos_bounds (p : positive) :
  2 ^ (Zpos (digits2_pos p) - 1) <= Zpos p < 2 ^ Zpos (digits2_pos p).
Proof.
  induction p as [p IH|p IH|]; cbn [digits2_pos];
    [change (Zpos p~1) with (2 * Zpos p + 1)
    |change (Zpos p~0) with (2 * Zpos p) | cbn; lia].
  all: rewrite Pos2Z.inj_succ.
  all: set (d := Zpos (digits2_pos p)) in *.
  all: assert (Hd : 2 ^ d = 2 * 2 ^ (d - 1))
         by (rewrite <- Z.pow_succ_r by lia; f_equal; lia).
  all: replace (Z.succ d - 1) with d by lia.
  all: rewrite Z.pow_succ_r by lia.
  all: lia.
Qed.

(** The number of binary digits is fixed by the binade. *)
Lemma digits2_pos_unique (p : positive) (d : Z) :
  2 ^ (d - 1) <= Zpos p < 2 ^ d -> Zpos (digits2_pos p) = d.
Proof.
  intros [Hlo Hhi].
  pose proof (digits2_pos_bounds p) as [Blo Bhi].
  set (dp := Zpos (digits2_pos p)) in *.
  assert (0 < d).
  { destruct (Z.le_gt_cases d 0) as [Hd|]; [|assumption].
    assert (2 ^ d <= 2 ^ 0) by (apply Z.pow_le_mono_r; lia).
    change (2 ^ 0) with 1 in *. lia. }
  destruct (Z.lt_trichotomy dp d) as [Hlt|[Heq|Hgt]]; [|assumption|].
  - assert (2 ^ dp <= 2 ^ (d - 1)) by (apply Z.pow_le_mono_r; lia). lia.
  - assert (2 ^ d <= 2 ^ (dp - 1)) by (apply Z.pow_le_mono_r; lia). lia.
Qed.

Lemma iter_xO_spec (p : positive) (n : positive) :
  Zpos (Pos.iter xO p n) = Zpos p * 2 ^ Zpos n.
Proof.
  induction n as [|n IH] using Pos.peano_ind.
  - cbn. lia.
  - rewrite Pos.iter_succ, Pos2Z.inj_xO, IH, Pos2Z.inj_succ.
    rewrite Z.pow_succ_r by lia. lia.
Qed.

Lemma iter_pos_nat {A : Type} (f : A -> A) (p : positive) (x : A) :
  iter_pos f p x = Nat.iter (Pos.to_nat p) f x.
Proof.
  revert x. induction p as [p IH|p IH|]; intros x; cbn [iter_pos].
  - rewrite !IH, Pos2Nat.inj_xI.
    replace (S (2 * Pos.to_nat p))%nat
      with (Pos.to_nat p + (Pos.to_nat p + 1))%nat by lia.
    rewrite !Nat.iter_add. reflexivity.
  - rewrite !IH, Pos2Nat.inj_xO.
    replace (2 * Pos.to_nat p)%nat with (Pos.to_nat p + Pos.to_nat p)%nat by lia.
    rewrite Nat.iter_add. reflexivity.
  - reflexivity.
Qed.

Lemma shr_1_nonneg (m : Z) (r s : bool) :
  0 <= m ->
  shr_1 (Build_shr_record m r s) = Build_shr_record (m / 2) (Z.odd m) (r || s).
Proof.
  intros Hm. rewrite <- Z.div2_div.
  destruct m as [|p|p]; [reflexivity| |lia].
  destruct p; reflexivity.
Qed.

Lemma mod_pow2_succ (M : Z) (n : Z) :
  0 <= n ->
  M mod 2 ^ (n + 1) = M mod 2 ^ n + (if Z.testbit M n then 2 ^ n else 0).
Proof.
  intros Hn.
  replace (2 ^ (n + 1)) with (2 ^ n * 2) by (rewrite Z.pow_add_r by lia; lia).
  assert (0 < 2 ^ n) by (apply Z.pow_pos_nonneg; lia).
  rewrite Z.rem_mul_r by lia.
  rewrite <- Z.testbit_spec' by lia.
  destruct (Z.testbit M n); cbn [Z.b2z]; lia.
Qed.

(** [n + 1] one-bit shifts with round and sticky bits. *)
Lemma iter_shr_1 (M : Z) (n : nat) :
  0 <= M ->
  Nat.iter (S n) shr_1 (Build_shr_record M false false) =
  Build_shr_record (M / 2 ^ (Z.of_nat n + 1))
                   (Z.testbit M (Z.of_nat n))
                   (negb (M mod 2 ^ Z.of_nat n =? 0)).
Proof.
  intros HM. induction n as [|n IH].
  - cbn [Nat.iter]. rewrite shr_1_nonneg by assumption.
    change (Z.of_nat 0) with 0. change (2 ^ (0 + 1)) with 2.
    change (2 ^ 0) with 1. rewrite Z.mod_1_r, Z.bit0_odd. reflexivity.
  - change (Nat.iter (S (S n)) shr_1 ?x) with (shr_1 (Nat.iter (S n) shr_1 x)).
    rewrite IH.
    assert (0 < 2 ^ (Z.of_nat n + 1)) by (apply Z.pow_pos_nonneg; lia).
    rewrite shr_1_nonneg by (apply Z.div_pos; lia).
    rewrite Nat2Z.inj_succ.
    replace (Z.succ (Z.of_nat n)) with (Z.of_nat n + 1) by lia.
    f_equal.
    + rewrite Z.div_div by lia. f_equal.
      rewrite (Z.pow_add_r 2 (Z.of_nat n + 1) 1) by lia. reflexivity.
    + rewrite <- Z.bit0_odd, <- Z.shiftr_div_pow2, Z.shiftr_spec by lia.
      reflexivity.
    + rewrite mod_pow2_succ by lia.
      pose proof (Z.mod_pos_bound M (2 ^ Z.of_nat n)
                    ltac:(apply Z.pow_pos_nonneg; lia)).
      assert (0 < 2 ^ Z.of_nat n) by (apply Z.pow_pos_nonneg; lia).
      destruct (Z.testbit M (Z.of_nat n)); cbn [orb negb].
      * symmetry. apply negb_true_iff. apply Z.eqb_neq. lia.
      * rewrite Z.add_0_r. reflexivity.
Qed.

End ShiftFacts.

(** ** Valid floats and their patterns *)

Section ValidFacts.
Import Bits.

Lemma fexp32 (x : Z) : fexp prec32 emax32 x = Z.max (x - 24) (-149).
Proof. reflexivity. Qed.

(** The binary32 numbers: at most 24 digits, exponent between -149 and
    104, and 24 digits exactly above the smallest exponent. *)
Lemma bounded32_iff (m : positive) (e : Z) :
  bounded prec32 emax32 m e = true <->
  -149 <= e <= 104 /\ Zpos m < 16777216 /\ (e = -149 \/ 8388608 <= Zpos m).
Proof.
  unfold bounded, canonical_mantissa. rewrite fexp32.
  rewrite andb_true_iff, Z.eqb_eq, Z.leb_le.
  change (emax32 - prec32) with 104.
  pose proof (digits2_pos_bounds m) as [Blo Bhi].
  set (d := Zpos (digits2_pos m)) in *.
  assert (Hd : 0 < d) by (unfold d; lia).
  split.
  - intros [Hc He].
    assert (d <= 24 /\ -149 <= e /\ (e = -149 \/ d = 24)) as (D1 & D2 & D3) by lia.
    repeat split; try lia.
    + assert (2 ^ d <= 2 ^ 24) by (apply Z.pow_le_mono_r; lia).
      change (2 ^ 24) with 16777216 in *. lia.
    + destruct D3 as [|D3]; [left; assumption|right].
      rewrite D3 in Blo. change (2 ^ (24 - 1)) with 8388608 in Blo. exact Blo.
  - intros (He & Hm & Hc).
    assert (d <= 24).
    { destruct (Z.le_gt_cases d 24); [assumption|].
      assert (2 ^ 24 <= 2 ^ (d - 1)) by (apply Z.pow_le_mono_r; lia).
      change (2 ^ 24) with 16777216 in *. lia. }
    split; [|lia].
    destruct Hc as [->|Hc]; [lia|].
    assert (d = 24).
    { destruct (Z.le_gt_cases 24 d); [lia|].
      assert (2 ^ d <= 2 ^ 23) by (apply Z.pow_le_mono_r; lia).
      change (2 ^ 23) with 8388608 in *. lia. }
    lia.
Qed.

Lemma pack_fields (s : bool) (E F : Z) :
  0 <= E < 256 -> 0 <= F < 8388608 ->
  pack s E F = sign_word s + E * 8388608 + F.
Proof.
  intros HE HF. unfold pack.
  change 255 with (Z.ones 8). change 8388607 with (Z.ones 23).
  rewrite !Z.land_ones by lia.
  change (2 ^ 8) with 256. change (2 ^ 23) with 8388608.
  rewrite !Z.mod_small by lia. reflexivity.
Qed.

Lemma decode_pack (s : bool) (E F : Z) :
  0 <= E < 256 -> 0 <= F < 8388608 ->
  decode (pack s E F) =
    if E =? 0 then
      match F with Zpos p => S754_finite s p (-149) | _ => S754_zero s end
    else if E =? 255 then (if F =? 0 then S754_infinity s else S754_nan)
    else match F + 8388608 with
         | Zpos p => S754_finite s p (E - 150)
         | _ => S754_nan
         end.
Proof.
  intros HE HF. rewrite pack_fields by assumption.
  destruct (fields_unique _ s E F HE HF eq_refl) as (Hs & He & Hf).
  unfold decode. rewrite Hs, He, Hf. reflexivity.
Qed.

(** Decoding undoes encoding on the binary32 numbers. *)
Lemma decode_encode (f : spec_float) :
  valid_binary prec32 emax32 f = true -> decode (encode f) = f.
Proof.
  destruct f as [s|s| |s m e]; cbn [valid_binary encode].
  - intros _. rewrite decode_pack by lia. reflexivity.
  - intros _. rewrite decode_pack by lia. reflexivity.
  - intros _. rewrite decode_pack by lia. reflexivity.
  - intros Hb. apply bounded32_iff in Hb. destruct Hb as (He & Hm & Hc).
    destruct (Z.ltb_spec (Zpos m) 8388608) as [Hlt|Hge].
    + assert (e = -149) as -> by lia.
      rewrite decode_pack by lia. reflexivity.
    + rewrite decode_pack by lia.
      destruct (Z.eqb_spec (e + 150) 0); [lia|].
      destruct (Z.eqb_spec (e + 150) 255); [lia|].
      replace (Z.pos m - 8388608 + 8388608) with (Zpos m) by lia.
      f_equal. lia.
Qed.

Lemma decode_valid (b : lane) :
  lane_ok b -> valid_binary prec32 emax32 (decode b) = true.
Proof.
  intros Hb. destruct (is_nan b) eqn:Hn.
  - rewrite is_nan_decode by assumption. reflexivity.
  - destruct (decode_shape b Hb Hn)
      as [(-> & _)|[(-> & _)|(p & e & -> & _ & He & Hp & Hc & _)]];
      try reflexivity.
    cbn [valid_binary]. apply bounded32_iff. lia.
Qed.

(** Encoding undoes decoding on the patterns that are not NaNs. *)
Lemma encode_decode (b : lane) :
  lane_ok b -> is_nan b = false -> encode (decode b) = b.
Proof.
  intros Hb Hn.
  destruct (fields_of_lane b Hb) as (Eb & HE & HF).
  pose proof (magnitude_fields b Hb) as Hm.
  unfold is_nan in Hn. apply Z.ltb_ge in Hn.
  unfold decode.
  destruct (Z.eqb_spec (expo_field b) 0) as [E0|E0].
  - destruct (frac_field b) as [|p|p] eqn:EF; cbn [encode].
    + rewrite pack_fields by lia. lia.
    + destruct (Z.ltb_spec (Zpos p) 8388608); [|lia].
      rewrite pack_fields by lia. lia.
    + lia.
  - destruct (Z.eqb_spec (expo_field b) 255) as [E1|E1].
    + destruct (Z.eqb_spec (frac_field b) 0) as [F0|F0]; [|lia].
      cbn [encode]. rewrite pack_fields by lia. lia.
    + destruct (frac_field b + 8388608) as [|p|p] eqn:EF; try lia.
      cbn [encode].
      destruct (Z.ltb_spec (Zpos p) 8388608); [lia|].
      rewrite pack_fields by lia. lia.
Qed.

End ValidFacts.

(** ** Operations whose result needs no rounding *)

Section ExactFacts.

Lemma pow2_pos (n : Z) : 0 <= n -> 0 < 2 ^ n.
Proof. intros. apply Z.pow_pos_nonneg; lia. Qed.

Lemma digits2_pos_shift (p q : positive) (j : Z) :
  0 <= j -> Zpos q = Zpos p * 2 ^ j ->
  Zpos (digits2_pos q) = Zpos (digits2_pos p) + j.
Proof.
  intros Hj Hq. apply digits2_pos_unique.
  pose proof (digits2_pos_bounds p) as [Blo Bhi].
  pose proof (pow2_pos j Hj).
  rewrite Hq.
  replace (Zpos (digits2_pos p) + j - 1) with (Zpos (digits2_pos p) - 1 + j) by lia.
  rewrite !Z.pow_add_r by lia. nia.
Qed.

(** A mantissa that is already in place goes through
    [binary_round_aux] unchanged. *)
Lemma binary_round_aux_canonical (s : bool) (P : positive) (E : Z) :
  bounded prec32 emax32 P E = true ->
  binary_round_aux prec32 emax32 s (Zpos P) E loc_Exact = S754_finite s P E.
Proof.
  intros Hb. unfold bounded in Hb. apply andb_true_iff in Hb.
  destruct Hb as [Hc He]. unfold canonical_mantissa in Hc.
  apply Z.eqb_eq in Hc.
  unfold binary_round_aux, shr_fexp. cbn [Zdigits2 shr_record_of_loc].
  rewrite Hc, Z.sub_diag. cbn [shr shr_m loc_of_shr_record round_nearest_even].
  change (Zdigits2 (Zpos P)) with (Zpos (digits2_pos P)).
  rewrite Hc, Z.sub_diag. cbn [shr shr_m].
  rewrite He. reflexivity.
Qed.

(** [binary_round] on a number that a binary32 float [(P, E)] stands for. *)
Lemma binary_round_exact (s : bool) (p P : positive) (e E : Z) :
  bounded prec32 emax32 P E = true ->
  (E <= e /\ Zpos P = Zpos p * 2 ^ (e - E)) \/
  (e < E /\ Zpos p = Zpos P * 2 ^ (E - e)) ->
  binary_round prec32 emax32 s p e = S754_finite s P E.
Proof.
  intros Hb Hv.
  assert (Hc : fexp prec32 emax32 (Zpos (digits2_pos P) + E) = E).
  { unfold bounded in Hb. apply andb_true_iff in Hb.
    destruct Hb as [Hc _]. apply Z.eqb_eq in Hc. exact Hc. }
  assert (Hd : Zpos (digits2_pos p) + e = Zpos (digits2_pos P) + E).
  { destruct Hv as [(Hle & Hv)|(Hlt & Hv)].
    - rewrite (digits2_pos_shift p P (e - E)) by (lia || assumption). lia.
    - rewrite (digits2_pos_shift P p (E - e)) by (lia || assumption). lia. }
  unfold binary_round. rewrite Hd, Hc.
  destruct Hv as [(Hle & Hv)|(Hlt & Hv)].
  - assert (Hs : shl_align p e E = (P, E)).
    { unfold shl_align. destruct (E - e) as [|d|d] eqn:Ed.
      - assert (e = E) by lia. subst e. rewrite Z.sub_diag in Hv.
        f_equal. change (2 ^ 0) with 1 in Hv. lia.
      - lia.
      - f_equal. apply Pos2Z.inj. rewrite iter_xO_spec, Hv. f_equal. f_equal. lia. }
    rewrite Hs. apply binary_round_aux_canonical. exact Hb.
  - assert (Hs : shl_align p e E = (p, e)).
    { unfold shl_align. destruct (E - e) as [|d|d] eqn:Ed; try reflexivity. lia. }
    rewrite Hs.
    unfold binary_round_aux, shr_fexp. cbn [Zdigits2 shr_record_of_loc].
    rewrite Hd, Hc.
    destruct (E - e) as [|k|k] eqn:Ek; try lia.
    cbn [shr]. rewrite iter_pos_nat.
    destruct (Pos.to_nat k) as [|n] eqn:En; [lia|].
    rewrite iter_shr_1 by lia.
    assert (Hk : Z.of_nat n + 1 = Zpos k) by lia.
    rewrite Hk.
    assert (Hq : Zpos p / 2 ^ Zpos k = Zpos P).
    { rewrite Hv. apply Z.div_mul. pose proof (pow2_pos (Zpos k)). lia. }
    assert (Hr : Z.testbit (Zpos p) (Z.of_nat n) = false).
    { rewrite Hv. apply Z.mul_pow2_bits_low. lia. }
    assert (Hm : Zpos p mod 2 ^ Z.of_nat n = 0).
    { rewrite Hv. replace (Zpos k) with (1 + Z.of_nat n) by lia.
      rewrite Z.pow_add_r by lia. rewrite Z.mul_assoc. apply Z.mod_mul.
      pose proof (pow2_pos (Z.of_nat n)). lia. }
    rewrite Hq, Hr, Hm. cbn [Z.eqb negb shr_m loc_of_shr_record round_nearest_even].
    change (Zdigits2 (Zpos P)) with (Zpos (digits2_pos P)).
    replace (e + Zpos k) with E by lia.
    rewrite Hc, Z.sub_diag. cbn [shr shr_m].
    unfold bounded in Hb. apply andb_true_iff in Hb. destruct Hb as [_ He].
    rewrite He. reflexivity.
Qed.

Lemma shl_align_fst (m : positive) (e ez : Z) :
  ez <= e -> Zpos (fst (shl_align m e ez)) = Zpos m * 2 ^ (e - ez).
Proof.
  intros Hle. unfold shl_align.
  destruct (ez - e) as [|d|d] eqn:Ed; cbn [fst].
  - replace (e - ez) with 0 by lia. change (2 ^ 0) with 1. lia.
  - lia.
  - rewrite iter_xO_spec. f_equal. f_equal. lia.
Qed.

(** Uniqueness of the float with a given value. *)
Lemma bounded_value_unique (P Q : positive) (E F : Z) :
  bounded prec32 emax32 P E = true -> bounded prec32 emax32 Q F = true ->
  Zpos P * 2 ^ (E + 149) = Zpos Q * 2 ^ (F + 149) ->
  P = Q /\ E = F.
Proof.
  intros HP HQ Hv.
  apply bounded32_iff in HP. apply bounded32_iff in HQ.
  destruct HP as (HE & HPm & HPc). destruct HQ as (HF & HQm & HQc).
  assert (Hmono : forall a b, 0 <= a -> a < b -> 2 * 2 ^ a <= 2 ^ b).
  { intros a b Ha Hab. rewrite <- Z.pow_succ_r by lia.
    apply Z.pow_le_mono_r; lia. }
  pose proof (pow2_pos (E + 149) ltac:(lia)).
  pose proof (pow2_pos (F + 149) ltac:(lia)).
  destruct (Z.lt_trichotomy E F) as [Hlt|[Heq|Hgt]].
  - pose proof (Hmono (E + 149) (F + 149) ltac:(lia) ltac:(lia)). nia.
  - subst F. split; [|reflexivity]. apply Pos2Z.inj. nia.
  - pose proof (Hmono (F + 149) (E + 149) ltac:(lia) ltac:(lia)). nia.
Qed.

(** [binary_normalize] on an integer multiple [D * 2^ez] that a binary32
    float stands for. *)
Lemma binary_normalize_exact (D ez : Z) (sz : bool) (P : positive) (E : Z) :
  -149 <= ez ->
  bounded prec32 emax32 P E = true ->
  Z.abs D * 2 ^ (ez + 149) = Zpos P * 2 ^ (E + 149) ->
  binary_normalize prec32 emax32 D ez sz = S754_finite (D <? 0) P E.
Proof.
  intros Hez Hb Hv.
  assert (HE : -149 <= E) by (apply bounded32_iff in Hb; lia).
  assert (Hshape : forall p : positive, Zpos p = Z.abs D ->
            binary_round prec32 emax32 (D <? 0) p ez = S754_finite (D <? 0) P E).
  { intros p Hp. apply binary_round_exact; [exact Hb|].
    rewrite <- Hp in Hv.
    pose proof (pow2_pos (ez + 149) ltac:(lia)).
    pose proof (pow2_pos (E + 149) ltac:(lia)).
    destruct (Z.le_gt_cases E ez) as [Hle|Hgt]; [left|right]; split; try lia.
    - replace (ez + 149) with ((ez - E) + (E + 149)) in Hv by lia.
      rewrite (Z.pow_add_r 2 (ez - E) (E + 149)) in Hv by lia.
      pose proof (pow2_pos (ez - E) ltac:(lia)). nia.
    - replace (E + 149) with ((E - ez) + (ez + 149)) in Hv by lia.
      rewrite (Z.pow_add_r 2 (E - ez) (ez + 149)) in Hv by lia.
      pose proof (pow2_pos (E - ez) ltac:(lia)). nia. }
  destruct D as [|p|p]; cbn [binary_normalize].
  - cbn [Z.abs] in Hv. pose proof (pow2_pos (E + 149) ltac:(lia)). nia.
  - apply (Hshape p). reflexivity.
  - apply (Hshape p). reflexivity.
Qed.

Lemma SFadd_finite (s1 : bool) (m1 : positive) (e1 : Z)
                   (s2 : bool) (m2 : positive) (e2 : Z) :
  SFadd prec32 emax32 (S754_finite s1 m1 e1) (S754_finite s2 m2 e2) =
  binary_normalize prec32 emax32
    (cond_Zopp s1 (Zpos m1 * 2 ^ (e1 - Z.min e1 e2)) +
     cond_Zopp s2 (Zpos m2 * 2 ^ (e2 - Z.min e1 e2)))
    (Z.min e1 e2) false.
Proof.
  cbn [SFadd]. cbv zeta.
  rewrite !shl_align_fst by lia. reflexivity.
Qed.

Lemma SFsub_finite (s1 : bool) (m1 : positive) (e1 : Z)
                   (s2 : bool) (m2 : positive) (e2 : Z) :
  SFsub prec32 emax32 (S754_finite s1 m1 e1) (S754_finite s2 m2 e2) =
  binary_normalize prec32 emax32
    (cond_Zopp s1 (Zpos m1 * 2 ^ (e1 - Z.min e1 e2)) -
     cond_Zopp s2 (Zpos m2 * 2 ^ (e2 - Z.min e1 e2)))
    (Z.min e1 e2) false.
Proof.
  cbn [SFsub]. cbv zeta.
  rewrite !shl_align_fst by lia. reflexivity.
Qed.

Lemma cond_Zopp_scale (s : bool) (a b : Z) :
  cond_Zopp s a * b = cond_Zopp s (a * b).
Proof. destruct s; cbn [cond_Zopp]; lia. Qed.

(** The aligned sum or difference carries the exact value. *)
Lemma aligned_value (s : bool) (m : positive) (e ez : Z) :
  -149 <= ez -> ez <= e ->
  cond_Zopp s (Zpos m * 2 ^ (e - ez)) * 2 ^ (ez + 149) =
  SFZ (S754_finite s m e).
Proof.
  intros H1 H2. cbn [SFZ]. rewrite cond_Zopp_scale. f_equal.
  rewrite <- Z.mul_assoc, <- Z.pow_add_r by lia. f_equal. f_equal. lia.
Qed.

End ExactFacts.

(** ** Rounding to nearest even, in general *)

Section RoundFacts.

Lemma rne_shift_bounds (M k : Z) :
  0 <= M -> 1 <= k ->
  M / 2 ^ k <= rne_shift M k <= M / 2 ^ k + 1 /\
  2 * Z.abs (rne_shift M k * 2 ^ k - M) <= 2 ^ k /\
  (2 * Z.abs (rne_shift M k * 2 ^ k - M) = 2 ^ k ->
     Z.even (rne_shift M k) = true).
Proof.
  intros HM Hk. unfold rne_shift.
  pose proof (pow2_pos k ltac:(lia)) as Hp.
  pose proof (pow2_pos (k - 1) ltac:(lia)) as Hh.
  assert (H2 : 2 ^ k = 2 * 2 ^ (k - 1))
    by (rewrite <- Z.pow_succ_r by lia; f_equal; lia).
  pose proof (Z.div_mod M (2 ^ k) ltac:(lia)) as Hdm.
  pose proof (Z.mod_pos_bound M (2 ^ k) ltac:(lia)) as Hmb.
  set (q := M / 2 ^ k) in *. set (r := M mod 2 ^ k) in *.
  set (h := 2 ^ (k - 1)) in *.
  destruct (Z.ltb_spec r h) as [Hlt|Hge].
  - repeat split; lia.
  - destruct (Z.ltb_spec h r) as [Hgt|Hle].
    + repeat split; lia.
    + assert (r = h) by lia.
      destruct (Z.even q) eqn:Ev.
      * repeat split; try lia. intros _. exact Ev.
      * repeat split; try lia. intros _.
        rewrite Z.even_add, Ev. reflexivity.
Qed.

(** What the round and sticky bits of a shift by [k] select. *)
Lemma round_after_shift (M k : Z) :
  0 <= M -> 1 <= k ->
  round_nearest_even (M / 2 ^ k)
    (loc_of_shr_record
       (Build_shr_record (M / 2 ^ k) (Z.testbit M (k - 1))
                         (negb (M mod 2 ^ (k - 1) =? 0)))) =
  rne_shift M k.
Proof.
  intros HM Hk. unfold rne_shift.
  pose proof (pow2_pos (k - 1) ltac:(lia)) as Hh.
  pose proof (Z.mod_pos_bound M (2 ^ (k - 1)) ltac:(lia)) as Hmb.
  pose proof (mod_pow2_succ M (k - 1) ltac:(lia)) as Hs.
  replace (k - 1 + 1) with k in Hs by lia.
  rewrite Hs.
  destruct (Z.testbit M (k - 1)); cbn [loc_of_shr_record].
  - destruct (Z.eqb_spec (M mod 2 ^ (k - 1)) 0) as [H0|H0]; cbn [negb].
    + rewrite H0. cbn [Z.add].
      rewrite Z.ltb_irrefl. cbn [round_nearest_even]. reflexivity.
    + destruct (Z.ltb_spec (M mod 2 ^ (k - 1) + 2 ^ (k - 1)) (2 ^ (k - 1))); [lia|].
      destruct (Z.ltb_spec (2 ^ (k - 1)) (M mod 2 ^ (k - 1) + 2 ^ (k - 1))); [|lia].
      reflexivity.
  - rewrite Z.add_0_r.
    destruct (Z.ltb_spec (M mod 2 ^ (k - 1)) (2 ^ (k - 1))); [|lia].
    destruct (Z.eqb_spec (M mod 2 ^ (k - 1)) 0); reflexivity.
Qed.

Lemma Zdigits2_bounds (q : Z) :
  0 < q -> 2 ^ (Zdigits2 q - 1) <= q < 2 ^ Zdigits2 q.
Proof.
  intros Hq. destruct q as [|p|p]; try lia.
  cbn [Zdigits2]. apply digits2_pos_bounds.
Qed.

Lemma Zdigits2_le (q : Z) (d : Z) :
  0 < q -> 0 <= d -> q < 2 ^ d -> Zdigits2 q <= d.
Proof.
  intros Hq Hd Hlt. pose proof (Zdigits2_bounds q Hq) as [Blo _].
  destruct (Z.le_gt_cases (Zdigits2 q) d); [assumption|].
  assert (2 ^ d <= 2 ^ (Zdigits2 q - 1)) by (apply Z.pow_le_mono_r; lia).
  lia.
Qed.

(** [binary_round_aux] when the mantissa has to be shifted right by
    [k >= 1] places: the quotient is rounded to nearest even, and a carry
    into a 25th digit moves the exponent up once more. *)
Lemma binary_round_aux_shift (s : bool) (M : positive) (e k : Z) :
  1 <= k ->
  fexp prec32 emax32 (Zpos (digits2_pos M) + e) = e + k ->
  let q := rne_shift (Zpos M) k in
  binary_round_aux prec32 emax32 s (Zpos M) e loc_Exact =
    if q =? 0 then S754_zero s
    else if q <? 16777216 then
      (if e + k <=? 104 then S754_finite s (Z.to_pos q) (e + k)
       else S754_infinity s)
    else
      (if e + k + 1 <=? 104 then S754_finite s 8388608 (e + k + 1)
       else S754_infinity s).
Proof.
  intros Hk Hf q.
  pose proof (rne_shift_bounds (Zpos M) k ltac:(lia) Hk) as (Hqb & _ & _).
  fold q in Hqb.
  pose proof (digits2_pos_bounds M) as [Dlo Dhi].
  set (d := Zpos (digits2_pos M)) in *.
  rewrite fexp32 in Hf.
  pose proof (pow2_pos k ltac:(lia)) as Hpk.
  assert (Hquo : 0 <= Zpos M / 2 ^ k) by (apply Z.div_pos; lia).
  (* the quotient has at most 24 digits *)
  assert (Hq24 : Zpos M / 2 ^ k < 16777216).
  { apply Z.div_lt_upper_bound; [lia|].
    destruct (Z.le_gt_cases d (24 + k)) as [Hle|Hgt]; [|lia].
    assert (2 ^ d <= 2 ^ (24 + k)) by (apply Z.pow_le_mono_r; lia).
    rewrite Z.pow_add_r in * by lia. change (2 ^ 24) with 16777216 in *. lia. }
  unfold binary_round_aux, shr_fexp. cbn [Zdigits2 shr_record_of_loc].
  fold d. rewrite fexp32, Hf.
  replace (e + k - e) with k by lia.
  destruct k as [|kp|kp] eqn:Ek; try lia.
  cbn [shr]. rewrite iter_pos_nat.
  destruct (Pos.to_nat kp) as [|n] eqn:En; [lia|].
  rewrite iter_shr_1 by lia.
  assert (Hn : Z.of_nat n = Zpos kp - 1) by lia.
  replace (Z.of_nat n + 1) with (Zpos kp) by lia. rewrite Hn.
  cbn [shr_m].
  rewrite (round_after_shift (Zpos M) (Zpos kp)) by lia.
  fold q.
  destruct (Z.eqb_spec q 0) as [Hq0|Hq0].
  { rewrite Hq0. cbn [Zdigits2 Z.add]. rewrite fexp32.
    destruct (Z.max (e + Zpos kp - 24) (-149) - (e + Zpos kp)) eqn:Es;
      cbn [shr shr_m]; try reflexivity.
    rewrite iter_pos_nat.
    destruct (Pos.to_nat p) as [|j] eqn:Ej; [lia|].
    rewrite iter_shr_1 by lia. cbn [shr_m]. rewrite Z.div_0_l; [reflexivity|].
    pose proof (pow2_pos (Z.of_nat j + 1) ltac:(lia)). lia. }
  assert (Hqpos : 0 < q) by lia.
  destruct (Z.ltb_spec q 16777216) as [Hlt|Hge].
  - (* no carry: the second shift does nothing *)
    assert (Hdq : Zdigits2 q <= 24)
      by (apply Zdigits2_le; [lia|lia|exact Hlt]).
    rewrite fexp32.
    assert (Hsh : Z.max (Zdigits2 q + (e + Zpos kp) - 24) (-149)
                  - (e + Zpos kp) <= 0) by lia.
    destruct (Z.max (Zdigits2 q + (e + Zpos kp) - 24) (-149) - (e + Zpos kp))
      as [|j|j] eqn:Es; try lia; cbn [shr shr_m].
    + destruct q as [|qp|qp]; try lia. cbn [Z.to_pos].
      change (emax32 - prec32) with 104. reflexivity.
    + destruct q as [|qp|qp]; try lia. cbn [Z.to_pos].
      change (emax32 - prec32) with 104. reflexivity.
  - (* carry *)
    assert (q = 16777216) by lia.
    replace q with 16777216 by lia.
    change (Zdigits2 16777216) with 25. rewrite fexp32.
    replace (Z.max (25 + (e + Zpos kp) - 24) (-149) - (e + Zpos kp)) with 1 by lia.
    cbn [shr iter_pos shr_1 shr_m].
    change (emax32 - prec32) with 104. reflexivity.
Qed.

End RoundFacts.

(** ** Exact sums and differences, and the order of the values *)

Section ValueFacts.

Lemma binary_normalize_as (D ez : Z) (g : spec_float) :
  -149 <= ez -> canonical_number g -> SFZ g = D * 2 ^ (ez + 149) ->
  binary_normalize prec32 emax32 D ez false = g.
Proof.
  intros Hez Hg Hv.
  pose proof (pow2_pos (ez + 149) ltac:(lia)) as Hp.
  destruct Hg as [|s P E Hb].
  - cbn [SFZ] in Hv. assert (D = 0) by nia. subst D. reflexivity.
  - assert (HE : -149 <= E) by (apply bounded32_iff in Hb; lia).
    pose proof (pow2_pos (E + 149) ltac:(lia)) as HpE.
    cbn [SFZ] in Hv.
    assert (Hs : (D <? 0) = s).
    { destruct s; cbn [cond_Zopp] in Hv;
        [apply Z.ltb_lt | apply Z.ltb_ge]; nia. }
    rewrite <- Hs. apply binary_normalize_exact; [exact Hez | exact Hb |].
    destruct s; cbn [cond_Zopp] in Hv.
    + apply Z.ltb_lt in Hs. rewrite Z.abs_neq by lia. lia.
    + apply Z.ltb_ge in Hs. rewrite Z.abs_eq by lia. lia.
Qed.

Lemma SFadd_exact (s1 : bool) (m1 : positive) (e1 : Z)
                  (s2 : bool) (m2 : positive) (e2 : Z) (g : spec_float) :
  -149 <= e1 -> -149 <= e2 -> canonical_number g ->
  SFZ g = SFZ (S754_finite s1 m1 e1) + SFZ (S754_finite s2 m2 e2) ->
  SFadd prec32 emax32 (S754_finite s1 m1 e1) (S754_finite s2 m2 e2) = g.
Proof.
  intros H1 H2 Hg Hv. rewrite SFadd_finite.
  apply binary_normalize_as; [lia | exact Hg |].
  rewrite Z.mul_add_distr_r, !aligned_value by lia. exact Hv.
Qed.

Lemma SFsub_exact (s1 : bool) (m1 : positive) (e1 : Z)
                  (s2 : bool) (m2 : positive) (e2 : Z) (g : spec_float) :
  -149 <= e1 -> -149 <= e2 -> canonical_number g ->
  SFZ g = SFZ (S754_finite s1 m1 e1) - SFZ (S754_finite s2 m2 e2) ->
  SFsub prec32 emax32 (S754_finite s1 m1 e1) (S754_finite s2 m2 e2) = g.
Proof.
  intros H1 H2 Hg Hv. rewrite SFsub_finite.
  apply binary_normalize_as; [lia | exact Hg |].
  rewrite Z.mul_sub_distr_r, !aligned_value by lia. exact Hv.
Qed.

(** The float of a small integer. *)
Lemma zfloat_spec (z : Z) :
  Z.abs z < 16777216 ->
  canonical_number (zfloat z) /\ SFZ (zfloat z) = z * unit149.
Proof.
  intros Hz. unfold zfloat.
  destruct (Z.eq_dec z 0) as [->|Hnz].
  { split; [constructor | reflexivity]. }
  assert (Ha : 0 < Z.abs z) by lia.
  pose proof (Zdigits2_bounds (Z.abs z) Ha) as [Dlo Dhi].
  pose proof (Zdigits2_le (Z.abs z) 24 Ha ltac:(lia) Hz) as Dle.
  set (d := Zdigits2 (Z.abs z)) in *.
  assert (Hd : 0 < d).
  { destruct (Z.le_gt_cases d 0); [|assumption].
    assert (2 ^ d <= 2 ^ 0) by (apply Z.pow_le_mono_r; lia).
    change (2 ^ 0) with 1 in *. lia. }
  pose proof (pow2_pos (24 - d) ltac:(lia)) as Hsh.
  set (P := Z.to_pos (Z.abs z * 2 ^ (24 - d))).
  assert (HP : Zpos P = Z.abs z * 2 ^ (24 - d)) by (unfold P; rewrite Z2Pos.id; nia).
  assert (Hlo : 8388608 <= Zpos P).
  { rewrite HP. change 8388608 with (2 ^ 23).
    replace 23 with ((d - 1) + (24 - d)) at 1 by lia.
    rewrite Z.pow_add_r by lia. nia. }
  assert (Hhi : Zpos P < 16777216).
  { rewrite HP. change 16777216 with (2 ^ 24).
    replace 24 with (d + (24 - d)) at 2 by lia.
    rewrite Z.pow_add_r by lia. nia. }
  assert (Hb : bounded prec32 emax32 P (d - 24) = true)
    by (apply bounded32_iff; lia).
  assert (Hv : SFZ (S754_finite (z <? 0) P (d - 24)) = z * 2 ^ (0 + 149)).
  { cbn [SFZ]. rewrite HP.
    replace (Z.abs z * 2 ^ (24 - d) * 2 ^ (d - 24 + 149))
      with (Z.abs z * 2 ^ (0 + 149))
      by (rewrite <- Z.mul_assoc, <- Z.pow_add_r by lia; do 2 f_equal; lia).
    destruct (Z.ltb_spec z 0); cbn [cond_Zopp]; lia. }
  rewrite (binary_normalize_as z 0 (S754_finite (z <? 0) P (d - 24)));
    [| lia | constructor; exact Hb | exact Hv].
  split; [constructor; exact Hb | exact Hv].
Qed.

Lemma canonical_number_valid (g : spec_float) :
  canonical_number g -> valid_binary prec32 emax32 g = true.
Proof. intros [|s P E Hb]; [reflexivity | exact Hb]. Qed.

(** Numbers of the same sign compare like their values. *)
Lemma compare_bounded (P Q : positive) (E F : Z) :
  bounded prec32 emax32 P E = true -> bounded prec32 emax32 Q F = true ->
  match E ?= F with
  | Lt => Lt
  | Gt => Gt
  | Eq => Pos.compare_cont Eq P Q
  end = (Zpos P * 2 ^ (E + 149) ?= Zpos Q * 2 ^ (F + 149)).
Proof.
  intros HP HQ.
  apply bounded32_iff in HP. apply bounded32_iff in HQ.
  destruct HP as (HE & HPm & HPc). destruct HQ as (HF & HQm & HQc).
  assert (Hmono : forall a b, 0 <= a -> a < b -> 2 * 2 ^ a <= 2 ^ b).
  { intros a b Ha Hab. rewrite <- Z.pow_succ_r by lia.
    apply Z.pow_le_mono_r; lia. }
  pose proof (pow2_pos (E + 149) ltac:(lia)).
  pose proof (pow2_pos (F + 149) ltac:(lia)).
  symmetry.
  destruct (Z.compare_spec E F) as [Heq|Hlt|Hgt].
  - subst F. change (Pos.compare_cont Eq P Q) with (Zpos P ?= Zpos Q).
    destruct (Z.compare_spec (Zpos P) (Zpos Q)).
    + apply Z.compare_eq_iff. nia.
    + apply Z.compare_lt_iff. nia.
    + apply Z.compare_gt_iff. nia.
  - pose proof (Hmono (E + 149) (F + 149) ltac:(lia) ltac:(lia)).
    apply Z.compare_lt_iff. nia.
  - pose proof (Hmono (F + 149) (E + 149) ltac:(lia) ltac:(lia)).
    apply Z.compare_gt_iff. nia.
Qed.

Lemma SFcompare_SFZ (f g : spec_float) :
  valid_binary prec32 emax32 f = true -> valid_binary prec32 emax32 g = true ->
  (forall s, f <> S754_infinity s) -> f <> S754_nan ->
  (forall s, g <> S754_infinity s) -> g <> S754_nan ->
  SFcompare f g = Some (SFZ f ?= SFZ g).
Proof.
  intros Vf Vg If Nf Ig Ng.
  destruct f as [sf|sf| |sf mf ef]; try congruence; [|]; 
  destruct g as [sg|sg| |sg mg eg]; try congruence;
  try (exfalso; eapply If; reflexivity);
  try (exfalso; eapply Ig; reflexivity).
  - reflexivity.
  - cbn [valid_binary] in Vg. apply bounded32_iff in Vg.
    pose proof (pow2_pos (eg + 149) ltac:(lia)).
    cbn [SFcompare SFZ]. f_equal. symmetry.
    destruct sg; cbn [cond_Zopp];
      [apply Z.compare_gt_iff | apply Z.compare_lt_iff]; nia.
  - cbn [valid_binary] in Vf. apply bounded32_iff in Vf.
    pose proof (pow2_pos (ef + 149) ltac:(lia)).
    cbn [SFcompare SFZ]. f_equal. symmetry.
    destruct sf; cbn [cond_Zopp];
      [apply Z.compare_lt_iff | apply Z.compare_gt_iff]; nia.
  - cbn [valid_binary] in Vf, Vg.
    pose proof (compare_bounded mf mg ef eg Vf Vg) as Hc.
    pose proof (compare_bounded mg mf eg ef Vg Vf) as Hc'.
    apply bounded32_iff in Vf. apply bounded32_iff in Vg.
    pose proof (pow2_pos (ef + 149) ltac:(lia)).
    pose proof (pow2_pos (eg + 149) ltac:(lia)).
    cbn [SFcompare SFZ]. f_equal.
    destruct sf, sg; cbn [cond_Zopp].
    + (* both negative *)
      rewrite Z.compare_opp. rewrite <- Hc'.
      rewrite (Z.compare_antisym eg ef).
      destruct (eg ?= ef); cbn [CompOpp]; try reflexivity.
      change (Pos.compare_cont Eq mf mg) with (Pos.compare mf mg).
      change (Pos.compare_cont Eq mg mf) with (Pos.compare mg mf).
      rewrite (Pos.compare_antisym mf mg). reflexivity.
    + symmetry. apply Z.compare_lt_iff. nia.
    + symmetry. apply Z.compare_gt_iff. nia.
    + exact Hc.
Qed.

End ValueFacts.

(** ** The magic constant of [vec_round_float] *)

Section MagicFacts.

Lemma rne_shift_add (m k c : Z) :
  0 <= m -> 1 <= k -> Z.even c = true ->
  rne_shift (m + c * 2 ^ k) k = c + rne_shift m k.
Proof.
  intros Hm Hk Hc. unfold rne_shift.
  pose proof (pow2_pos k ltac:(lia)) as Hp.
  rewrite Z.div_add, Z.mod_add by lia.
  rewrite Z.even_add, Hc.
  destruct (m mod 2 ^ k <? 2 ^ (k - 1)); [lia|].
  destruct (2 ^ (k - 1) <? m mod 2 ^ k); [lia|].
  destruct (Z.even (m / 2 ^ k)); cbn [Bool.eqb]; lia.
Qed.

Lemma rne_shift_scale (m k j : Z) :
  0 <= m -> 1 <= k -> 0 <= j ->
  rne_shift (m * 2 ^ j) (k + j) = rne_shift m k.
Proof.
  intros Hm Hk Hj. unfold rne_shift.
  pose proof (pow2_pos k ltac:(lia)) as Hp.
  pose proof (pow2_pos j ltac:(lia)) as Hpj.
  pose proof (pow2_pos (k - 1) ltac:(lia)) as Hph.
  rewrite (Z.pow_add_r 2 k j) by lia.
  rewrite Z.div_mul_cancel_r by lia.
  rewrite Z.mul_mod_distr_r by lia.
  replace (k + j - 1) with ((k - 1) + j) by lia.
  rewrite (Z.pow_add_r 2 (k - 1) j) by lia.
  destruct (Z.ltb_spec (m mod 2 ^ k) (2 ^ (k - 1)));
    destruct (Z.ltb_spec (m mod 2 ^ k * 2 ^ j) (2 ^ (k - 1) * 2 ^ j));
    try nia; try reflexivity.
  destruct (Z.ltb_spec (2 ^ (k - 1)) (m mod 2 ^ k));
    destruct (Z.ltb_spec (2 ^ (k - 1) * 2 ^ j) (m mod 2 ^ k * 2 ^ j));
    try nia; reflexivity.
Qed.

(** Adding [2^23] to a number below [2^23] rounds it to an integer. *)
Lemma magic_add (m : positive) (e : Z) :
  bounded prec32 emax32 m e = true -> e <= -1 ->
  let n := rne_shift (Zpos m) (- e) in
  0 <= n <= 8388608 /\
  exists (P : positive) (E : Z),
    SFadd prec32 emax32 (S754_finite false m e) (S754_finite false 8388608 0)
      = S754_finite false P E /\
    bounded prec32 emax32 P E = true /\
    Zpos P * 2 ^ (E + 149) = (8388608 + n) * unit149.
Proof.
  intros Hb He n.
  apply bounded32_iff in Hb. destruct Hb as (Hee & Hm & Hc).
  set (k := - e) in *.
  assert (Hk : 1 <= k <= 149) by lia.
  pose proof (pow2_pos k ltac:(lia)) as Hpk.
  pose proof (rne_shift_bounds (Zpos m) k ltac:(lia) ltac:(lia)) as (Hn & _ & _).
  fold n in Hn.
  assert (Hq : 0 <= Zpos m / 2 ^ k < 8388608).
  { split; [apply Z.div_pos; lia|].
    apply Z.div_lt_upper_bound; [lia|].
    assert (2 ^ 1 <= 2 ^ k) by (apply Z.pow_le_mono_r; lia).
    change (2 ^ 1) with 2 in *. lia. }
  split; [lia|].
  rewrite SFadd_finite.
  rewrite Z.min_l by lia. rewrite Z.sub_diag.
  change (2 ^ 0) with 1. rewrite Z.mul_1_r.
  replace (0 - e) with k by lia. cbn [cond_Zopp].
  set (D := Zpos m + 8388608 * 2 ^ k).
  assert (HD : 2 ^ (24 + k - 1) <= D < 2 ^ (24 + k)).
  { unfold D. replace (24 + k - 1) with (23 + k) by lia.
    rewrite !Z.pow_add_r by lia.
    change (2 ^ 23) with 8388608. change (2 ^ 24) with 16777216.
    assert (2 ^ 1 <= 2 ^ k) by (apply Z.pow_le_mono_r; lia).
    change (2 ^ 1) with 2 in *. nia. }
  destruct D as [|Dp|Dp] eqn:ED; try lia.
  cbn [binary_normalize]. unfold binary_round.
  rewrite (digits2_pos_unique Dp (24 + k)) by exact HD.
  replace (24 + k + e) with 24 by lia.
  change (fexp prec32 emax32 24) with 0.
  assert (Hs : shl_align Dp e 0 = (Dp, e)).
  { unfold shl_align. destruct (0 - e) eqn:E0; try reflexivity. lia. }
  rewrite Hs.
  rewrite (binary_round_aux_shift false Dp e k) by
    (try lia; rewrite (digits2_pos_unique Dp (24 + k)) by exact HD;
     replace (24 + k + e) with 24 by lia; change (fexp prec32 emax32 24) with 0;
     lia).
  cbv zeta. rewrite <- ED. unfold D.
  rewrite rne_shift_add by (lia || reflexivity). fold n.
  destruct (Z.eqb_spec (8388608 + n) 0); [lia|].
  replace (e + k) with 0 by lia.
  change (0 <=? 104) with true. change (0 + 1 <=? 104) with true. cbv iota.
  destruct (Z.ltb_spec (8388608 + n) 16777216) as [Hlt|Hge].
  - exists (Z.to_pos (8388608 + n)), 0. split; [reflexivity|].
    rewrite Z2Pos.id by lia. split; [apply bounded32_iff; lia|].
    reflexivity.
  - exists 8388608%positive, 1. split; [reflexivity|].
    split; [reflexivity|].
    assert (n = 8388608) by lia. subst n. rewrite H.
    vm_compute. reflexivity.
Qed.

End MagicFacts.

(** ** Lanes that hold integers *)

Section IntegerLanes.
Import Bits Lane Kernels.
Local Open Scope lane_scope.

Lemma unit149_pos : 0 < unit149.
Proof. unfold unit149. apply pow2_pos. lia. Qed.

Lemma is_number_cases (a : lane) :
  is_number a = true ->
  (exists s, decode a = S754_zero s) \/
  (exists s m e, decode a = S754_finite s m e).
Proof.
  unfold is_number. destruct (decode a) as [s|s| |s m e]; try discriminate.
  - intros _. left. exists s. reflexivity.
  - intros _. right. exists s, m, e. reflexivity.
Qed.

Lemma is_number_finite_bounded (a : lane) (s : bool) (m : positive) (e : Z) :
  lane_ok a -> decode a = S754_finite s m e ->
  bounded prec32 emax32 m e = true.
Proof.
  intros Ha Hd. pose proof (decode_valid a Ha) as Hv.
  rewrite Hd in Hv. exact Hv.
Qed.

Lemma is_number_encode (g : spec_float) :
  canonical_number g -> is_number (encode g) = true.
Proof.
  intros Hg. unfold is_number.
  rewrite decode_encode by (apply canonical_number_valid; exact Hg).
  destruct Hg; reflexivity.
Qed.

Lemma lane_is_encode (g : spec_float) (z : Z) :
  canonical_number g -> SFZ g = z * unit149 -> lane_is (encode g) z.
Proof.
  intros Hg Hv. split; [apply encode_ok|]. split; [apply is_number_encode; exact Hg|].
  rewrite decode_encode by (apply canonical_number_valid; exact Hg). exact Hv.
Qed.

Lemma lane_is_zfloat (z : Z) :
  Z.abs z < 16777216 -> lane_is (encode (zfloat z)) z.
Proof.
  intros Hz. destruct (zfloat_spec z Hz) as [Hc Hv].
  apply lane_is_encode; assumption.
Qed.

Lemma lane_is_one : lane_is gen_one 1.
Proof. split; [lane_const|]. split; vm_compute; reflexivity. Qed.

Lemma lane_is_zero : lane_is 0 0.
Proof. split; [lane_const|]. split; vm_compute; reflexivity. Qed.

Lemma SFZ_opp (f : spec_float) : SFZ (SFopp f) = - SFZ f.
Proof. destruct f as [s|s| |s m e]; try reflexivity. destruct s; cbn; lia. Qed.

Lemma fneg_ok (a : lane) : lane_ok a -> lane_ok (fneg a).
Proof. intros Ha. unfold fneg. apply lxor_ok; [exact Ha | lane_const]. Qed.

Lemma is_number_fneg (a : lane) : is_number (fneg a) = is_number a.
Proof.
  unfold is_number. rewrite decode_fneg.
  destruct (decode a); reflexivity.
Qed.

Lemma lane_is_fneg (a : lane) (z : Z) : lane_is a z -> lane_is (fneg a) (- z).
Proof.
  intros (Ha & Hn & Hv). split; [apply fneg_ok; exact Ha|].
  split; [rewrite is_number_fneg; exact Hn|].
  rewrite decode_fneg, SFZ_opp, Hv. lia.
Qed.

(** An exact difference of integers. *)
Lemma lane_is_fsub (a b : lane) (za zb : Z) :
  lane_is a za -> lane_is b zb -> Z.abs (za - zb) < 16777216 ->
  lane_is (a -! b) (za - zb).
Proof.
  intros (Ha & Na & Va) (Hb & Nb & Vb) Hz.
  pose proof unit149_pos as Hu.
  destruct (zfloat_spec (za - zb) Hz) as [Hc Hv].
  unfold fsub.
  destruct (is_number_cases a Na) as [(sa & Da)|(sa & ma & ea & Da)];
  destruct (is_number_cases b Nb) as [(sb & Db)|(sb & mb & eb & Db)];
  rewrite Da, Db in *.
  - cbn [SFZ] in Va, Vb.
    assert (za = 0) by nia. assert (zb = 0) by nia. subst za zb.
    destruct sa, sb; cbn [SFsub]; split; try apply encode_ok;
      split; vm_compute; reflexivity.
  - cbn [SFZ] in Va. assert (za = 0) by nia. subst za.
    pose proof (is_number_finite_bounded b sb mb eb Hb Db) as Bb.
    cbn [SFsub].
    apply lane_is_encode; [constructor; exact Bb|].
    change (S754_finite (negb sb) mb eb) with (SFopp (S754_finite sb mb eb)).
    rewrite SFZ_opp, Vb. lia.
  - cbn [SFZ] in Vb. assert (zb = 0) by nia. subst zb.
    pose proof (is_number_finite_bounded a sa ma ea Ha Da) as Ba.
    cbn [SFsub].
    apply lane_is_encode; [constructor; exact Ba|].
    rewrite Va. lia.
  - pose proof (is_number_finite_bounded a sa ma ea Ha Da) as Ba.
    pose proof (is_number_finite_bounded b sb mb eb Hb Db) as Bb.
    rewrite (SFsub_exact sa ma ea sb mb eb (zfloat (za - zb))).
    + apply lane_is_zfloat. exact Hz.
    + apply bounded32_iff in Ba. lia.
    + apply bounded32_iff in Bb. lia.
    + exact Hc.
    + rewrite Hv, Va, Vb. lia.
Qed.

(** An exact sum of integers. *)
Lemma lane_is_fadd (a b : lane) (za zb : Z) :
  lane_is a za -> lane_is b zb -> Z.abs (za + zb) < 16777216 ->
  lane_is (a +! b) (za + zb).
Proof.
  intros (Ha & Na & Va) (Hb & Nb & Vb) Hz.
  pose proof unit149_pos as Hu.
  destruct (zfloat_spec (za + zb) Hz) as [Hc Hv].
  unfold fadd.
  destruct (is_number_cases a Na) as [(sa & Da)|(sa & ma & ea & Da)];
  destruct (is_number_cases b Nb) as [(sb & Db)|(sb & mb & eb & Db)];
  rewrite Da, Db in *.
  - cbn [SFZ] in Va, Vb.
    assert (za = 0) by nia. assert (zb = 0) by nia. subst za zb.
    destruct sa, sb; cbn [SFadd]; split; try apply encode_ok;
      split; vm_compute; reflexivity.
  - cbn [SFZ] in Va. assert (za = 0) by nia. subst za.
    pose proof (is_number_finite_bounded b sb mb eb Hb Db) as Bb.
    cbn [SFadd].
    apply lane_is_encode; [constructor; exact Bb|].
    rewrite Vb. lia.
  - cbn [SFZ] in Vb. assert (zb = 0) by nia. subst zb.
    pose proof (is_number_finite_bounded a sa ma ea Ha Da) as Ba.
    cbn [SFadd].
    apply lane_is_encode; [constructor; exact Ba|].
    rewrite Va. lia.
  - pose proof (is_number_finite_bounded a sa ma ea Ha Da) as Ba.
    pose proof (is_number_finite_bounded b sb mb eb Hb Db) as Bb.
    rewrite (SFadd_exact sa ma ea sb mb eb (zfloat (za + zb))).
    + apply lane_is_zfloat. exact Hz.
    + apply bounded32_iff in Ba. lia.
    + apply bounded32_iff in Bb. lia.
    + exact Hc.
    + rewrite Hv, Va, Vb. lia.
Qed.

(** Numbers compare like their values. *)
Lemma flt_value (a b : lane) :
  lane_ok a -> lane_ok b -> is_number a = true -> is_number b = true ->
  flt a b = (SFZ (decode a) <? SFZ (decode b)).
Proof.
  intros Ha Hb Na Nb. unfold flt, SFltb.
  rewrite SFcompare_SFZ.
  - unfold Z.ltb. destruct (SFZ (decode a) ?= SFZ (decode b)); reflexivity.
  - apply decode_valid; exact Ha.
  - apply decode_valid; exact Hb.
  - intros s H. unfold is_number in Na. rewrite H in Na. discriminate.
  - intros H. unfold is_number in Na. rewrite H in Na. discriminate.
  - intros s H. unfold is_number in Nb. rewrite H in Nb. discriminate.
  - intros H. unfold is_number in Nb. rewrite H in Nb. discriminate.
Qed.

End IntegerLanes.

(** ** [vec_round_float], [vec_floor_float] and [vec_ceil_float] below [2^23] *)

Section Rounding.
Import Bits Lane Kernels.
Local Open Scope lane_scope.

Lemma is_number_not_nan (a : lane) :
  lane_ok a -> is_number a = true -> is_nan a = false.
Proof.
  intros Ha Hn. destruct (is_nan a) eqn:E; [|reflexivity].
  unfold is_number in Hn. rewrite (is_nan_decode a Ha E) in Hn. discriminate.
Qed.

Lemma lane_is_two23 : lane_is two_to_23_ps 8388608.
Proof. split; [lane_const|]. split; vm_compute; reflexivity. Qed.

Lemma decode_sign (a : lane) (s : bool) (m : positive) (e : Z) :
  lane_ok a -> decode a = S754_finite s m e -> s = sign_bit a.
Proof.
  intros Ha Hd.
  destruct (is_nan a) eqn:Hn.
  - rewrite (is_nan_decode a Ha Hn) in Hd. discriminate.
  - destruct (decode_shape a Ha Hn)
      as [(D & _)|[(D & _)|(p & e' & D & _)]]; rewrite D in Hd; congruence.
Qed.

Lemma magic_round (a : lane) :
  lane_ok a -> is_number a = true -> sign_bit a = false ->
  SFZ (decode a) < 8388608 * unit149 ->
  lane_is ((a +! two_to_23_ps) -! two_to_23_ps) (rne_shift (SFZ (decode a)) 149)
  /\ 0 <= rne_shift (SFZ (decode a)) 149 <= 8388608.
Proof.
  intros Ha Na Sa Hlt.
  pose proof unit149_pos as Hu.
  destruct (is_number_cases a Na) as [(s & Da)|(s & m & e & Da)].
  - rewrite Da. cbn [SFZ].
    change (rne_shift 0 149) with 0. split; [|lia].
    assert (Hz : lane_is a 0) by (split; [exact Ha|split; [exact Na|rewrite Da; reflexivity]]).
    pose proof (lane_is_fadd a two_to_23_ps 0 8388608 Hz lane_is_two23 ltac:(cbn; lia)) as H1.
    pose proof (lane_is_fsub _ two_to_23_ps _ 8388608 H1 lane_is_two23 ltac:(cbn; lia)) as H2.
    exact H2.
  - pose proof (decode_sign a s m e Ha Da) as Hs. rewrite Sa in Hs. subst s.
    pose proof (is_number_finite_bounded a false m e Ha Da) as Hb.
    assert (Hbb := Hb). apply bounded32_iff in Hbb.
    destruct Hbb as (He & Hm & Hc).
    rewrite Da in Hlt |- *. cbn [SFZ cond_Zopp] in Hlt |- *.
    assert (Hneg : e <= -1).
    { destruct (Z.le_gt_cases e (-1)); [assumption|exfalso].
      assert (2 ^ 149 <= 2 ^ (e + 149)) by (apply Z.pow_le_mono_r; lia).
      unfold unit149 in *. nia. }
    destruct (magic_add m e Hb Hneg) as (Hn & P & E & Hadd & HPb & HPv).
    set (n := rne_shift (Zpos m) (- e)) in *.
    assert (Hscale : rne_shift (Zpos m * 2 ^ (e + 149)) 149 = n).
    { replace 149 with (- e + (e + 149)) at 2 by lia.
      apply rne_shift_scale; lia. }
    rewrite Hscale. split; [|exact Hn].
    assert (H1 : lane_is (a +! two_to_23_ps) (8388608 + n)).
    { unfold fadd. rewrite Da.
      replace (decode two_to_23_ps) with (S754_finite false 8388608 0)
        by (vm_compute; reflexivity).
      rewrite Hadd. apply lane_is_encode; [constructor; exact HPb|].
      cbn [SFZ cond_Zopp]. exact HPv. }
    pose proof (lane_is_fsub _ two_to_23_ps _ 8388608 H1 lane_is_two23
                  ltac:(apply Z.abs_lt; lia)) as H2.
    replace (8388608 + n - 8388608) with n in H2 by lia. exact H2.
Qed.

Lemma sign_mask_and (x : lane) :
  vand x gen_sign_mask = if sign_bit x then gen_sign_mask else 0.
Proof.
  unfold vand, sign_bit. apply Z.bits_inj'. intros i Hi.
  rewrite Z.land_spec. change gen_sign_mask with (Z.shiftl 1 31).
  destruct (Z.eq_dec i 31) as [->|Hne].
  - destruct (Z.testbit x 31); reflexivity.
  - assert (Hb : Z.testbit (Z.shiftl 1 31) i = false).
    { rewrite Z.shiftl_spec by lia.
      destruct (Z.ltb_spec i 31); [apply Z.testbit_neg_r; lia|].
      apply (Z.bits_above_log2 1); cbn; lia. }
    rewrite Hb, andb_false_r.
    destruct (Z.testbit x 31); [exact (eq_sym Hb) | symmetry; apply Z.bits_0].
Qed.

Lemma vxor_sign_abs (x : lane) :
  lane_ok x -> vxor (vand x gen_sign_mask) x = magnitude x.
Proof.
  intros Hx. rewrite sign_mask_and.
  destruct (lane_sign_cases x Hx) as [(Hs & Hm & _)|(Hs & Hm & _)]; rewrite Hs.
  - unfold vxor. rewrite Z.lxor_0_l. exact Hm.
  - unfold vxor. rewrite Z.lxor_comm. apply fneg_negative; assumption.
Qed.

Lemma vxor_sign_apply (x r : lane) :
  vxor (vand x gen_sign_mask) r = if sign_bit x then fneg r else r.
Proof.
  rewrite sign_mask_and. unfold vxor, fneg.
  destruct (sign_bit x); [apply Z.lxor_comm | apply Z.lxor_0_l].
Qed.

(** What [|x| < 2^23] says about the pattern. *)
Lemma below_two23 (x : lane) :
  lane_ok x -> flt (vand x gen_abs_mask) two_to_23_ps = true ->
  is_number (magnitude x) = true /\ is_number x = true /\
  0 <= SFZ (decode (magnitude x)) < 8388608 * unit149 /\
  SFZ (decode x) = if sign_bit x then - SFZ (decode (magnitude x))
                   else SFZ (decode (magnitude x)).
Proof.
  intros Hx Hlt. rewrite abs_magnitude in Hlt.
  pose proof (magnitude_ok x) as Hm.
  pose proof unit149_pos as Hu.
  assert (H23 : lane_ok two_to_23_ps) by lane_const.
  assert (Hnn : is_nan (magnitude x) = false)
    by (apply (flt_true_iff _ _ Hm H23) in Hlt; tauto).
  assert (Hnum : is_number (magnitude x) = true).
  { unfold is_number.
    destruct (decode_shape _ Hm Hnn)
      as [(D & _)|[(D & _)|(p & e & D & _)]]; rewrite D; try reflexivity.
    exfalso. unfold flt in Hlt. rewrite D, sign_bit_magnitude in Hlt.
    replace (decode two_to_23_ps) with (S754_finite false 8388608 0) in Hlt
      by (vm_compute; reflexivity).
    discriminate. }
  assert (Hval : 0 <= SFZ (decode (magnitude x)) < 8388608 * unit149).
  { split.
    - destruct (is_number_cases _ Hnum) as [(s & D)|(s & m & e & D)].
      + rewrite D. cbn. lia.
      + pose proof (decode_sign _ s m e Hm D) as Hs.
        rewrite sign_bit_magnitude in Hs. subst s.
        rewrite D. cbn [SFZ cond_Zopp].
        pose proof (is_number_finite_bounded _ _ _ _ Hm D) as Hb.
        apply bounded32_iff in Hb.
        pose proof (pow2_pos (e + 149) ltac:(lia)). nia.
    - rewrite (flt_value _ _ Hm H23 Hnum) in Hlt by (vm_compute; reflexivity).
      apply Z.ltb_lt in Hlt.
      replace (SFZ (decode two_to_23_ps)) with (8388608 * unit149) in Hlt
        by (vm_compute; reflexivity).
      exact Hlt. }
  destruct (lane_sign_cases x Hx) as [(Hs & Hxm & _)|(Hs & Hxm & _)]; rewrite Hs.
  - rewrite <- Hxm. rewrite <- Hxm in Hnum, Hval. tauto.
  - pose proof (fneg_negative x Hx Hs) as Hf.
    assert (Hd : decode x = SFopp (decode (magnitude x))).
    { rewrite <- Hf, decode_fneg.
      destruct (decode x) as [s|s| |s m e]; cbn [SFopp];
        rewrite ?negb_involutive; reflexivity. }
    repeat split; try tauto.
    + rewrite <- is_number_fneg, Hf. exact Hnum.
    + rewrite Hd, SFZ_opp. reflexivity.
Qed.

Lemma vec_round_float_is (x : lane) :
  lane_ok x -> flt (vand x gen_abs_mask) two_to_23_ps = true ->
  lane_is (vec_round_float x) (round_value x) /\
  Z.abs (round_value x) <= 8388608.
Proof.
  intros Hx Hlt.
  destruct (below_two23 x Hx Hlt) as (Nm & Nx & Hv & Hsx).
  destruct (magic_round (magnitude x) (magnitude_ok x) Nm
              (sign_bit_magnitude x) ltac:(lia)) as (Hr & Hn).
  unfold vec_round_float, round_value. cbv zeta.
  rewrite vxor_sign_abs by exact Hx.
  rewrite vxor_sign_apply.
  destruct (sign_bit x).
  - split; [apply lane_is_fneg; exact Hr | lia].
  - split; [exact Hr | lia].
Qed.

End Rounding.

Section RoundingValues.
Import Bits Lane Kernels.
Local Open Scope lane_scope.

Lemma vand_mask_one (c : bool) :
  vand (mask_of c) gen_one = if c then gen_one else 0.
Proof. destruct c; reflexivity. Qed.

Lemma lane_is_bit (c : bool) :
  lane_is (if c then gen_one else 0) (if c then 1 else 0).
Proof. destruct c; [apply lane_is_one | apply lane_is_zero]. Qed.

Lemma round_value_near (x : lane) :
  lane_ok x -> flt (vand x gen_abs_mask) two_to_23_ps = true ->
  2 * Z.abs (round_value x * unit149 - arg_value x) <= unit149 /\
  (2 * Z.abs (round_value x * unit149 - arg_value x) = unit149 ->
     Z.even (round_value x) = true).
Proof.
  intros Hx Hlt.
  destruct (below_two23 x Hx Hlt) as (Nm & Nx & Hv & Hsx).
  pose proof (rne_shift_bounds (SFZ (decode (magnitude x))) 149
                ltac:(lia) ltac:(lia)) as (_ & Hnear & Htie).
  unfold round_value, arg_value. cbv zeta. rewrite Hsx.
  fold unit149 in Hnear, Htie.
  set (A := SFZ (decode (magnitude x))) in *.
  set (n := rne_shift A 149) in *.
  destruct (sign_bit x).
  - replace (- n * unit149 - - A) with (- (n * unit149 - A)) by lia.
    rewrite Z.abs_opp, Z.even_opp. split; assumption.
  - split; assumption.
Qed.

Lemma vec_floor_float_is (x : lane) :
  lane_ok x -> flt (vand x gen_abs_mask) two_to_23_ps = true ->
  lane_is (vec_floor_float x) (arg_value x / unit149).
Proof.
  intros Hx Hlt.
  destruct (vec_round_float_is x Hx Hlt) as (Hr & Hb).
  destruct (round_value_near x Hx Hlt) as (Hnear & _).
  destruct (below_two23 x Hx Hlt) as (_ & Nx & _ & _).
  pose proof unit149_pos as Hu.
  assert (Hu2 : 2 <= unit149) by (unfold unit149; change 2 with (2 ^ 1) at 1;
                                   apply Z.pow_le_mono_r; lia).
  unfold vec_floor_float. cbv zeta. unfold mask_gt.
  rewrite vand_mask_one.
  destruct Hr as (Ro & Rn & Rv).
  rewrite (flt_value x (vec_round_float x) Hx Ro Nx Rn).
  rewrite Rv. fold (arg_value x).
  set (c := arg_value x <? round_value x * unit149).
  pose proof (lane_is_fsub (vec_round_float x) (if c then gen_one else 0)
      (round_value x) (if c then 1 else 0)
      (conj Ro (conj Rn Rv)) (lane_is_bit c)
      ltac:(destruct c; lia)) as H.
  replace (arg_value x / unit149) with (round_value x - (if c then 1 else 0));
    [exact H|].
  unfold c. destruct (Z.ltb_spec (arg_value x) (round_value x * unit149)).
  - apply (Z.div_unique_pos _ _ _
             (arg_value x - (round_value x - 1) * unit149)); lia.
  - apply (Z.div_unique_pos _ _ _
             (arg_value x - (round_value x - 0) * unit149)); lia.
Qed.

Lemma vec_ceil_float_is (x : lane) :
  lane_ok x -> flt (vand x gen_abs_mask) two_to_23_ps = true ->
  lane_is (vec_ceil_float x) (- (- arg_value x / unit149)).
Proof.
  intros Hx Hlt.
  destruct (vec_round_float_is x Hx Hlt) as (Hr & Hb).
  destruct (round_value_near x Hx Hlt) as (Hnear & _).
  destruct (below_two23 x Hx Hlt) as (_ & Nx & _ & _).
  pose proof unit149_pos as Hu.
  assert (Hu2 : 2 <= unit149) by (unfold unit149; change 2 with (2 ^ 1) at 1;
                                   apply Z.pow_le_mono_r; lia).
  unfold vec_ceil_float. cbv zeta. unfold mask_lt.
  rewrite vand_mask_one.
  destruct Hr as (Ro & Rn & Rv).
  rewrite (flt_value (vec_round_float x) x Ro Hx Rn Nx).
  rewrite Rv. fold (arg_value x).
  set (c := round_value x * unit149 <? arg_value x).
  pose proof (lane_is_fadd (vec_round_float x) (if c then gen_one else 0)
      (round_value x) (if c then 1 else 0)
      (conj Ro (conj Rn Rv)) (lane_is_bit c)
      ltac:(destruct c; lia)) as H.
  replace (- (- arg_value x / unit149)) with (round_value x + (if c then 1 else 0));
    [exact H|].
  assert (forall q, - q = - arg_value x / unit149 -> q = - (- arg_value x / unit149))
    as Hq by (intros; lia).
  apply Hq.
  unfold c. destruct (Z.ltb_spec (round_value x * unit149) (arg_value x)).
  - apply (Z.div_unique_pos _ _ _
             (- arg_value x + (round_value x + 1) * unit149)); lia.
  - apply (Z.div_unique_pos _ _ _
             (- arg_value x + (round_value x + 0) * unit149)); lia.
Qed.

End RoundingValues.

Section RoundingReals.
Import Bits Lane Kernels.
Local Open Scope lane_scope.

Lemma IZR_pow2 (n : Z) : 0 <= n -> IZR (2 ^ n) = powerRZ 2 n.
Proof.
  intros Hn. rewrite <- (Z2Nat.id n) by exact Hn.
  rewrite <- pow_IZR, pow_powerRZ. reflexivity.
Qed.

Lemma IZR_unit149_pos : (0 < IZR unit149)%R.
Proof. apply IZR_lt. exact unit149_pos. Qed.

(** The real value of a number, in units of [2^-149]. *)
Lemma lane_R_scaled (a : lane) :
  lane_ok a -> is_number a = true ->
  (lane_R a * IZR unit149 = IZR (SFZ (decode a)))%R.
Proof.
  intros Ha Na. unfold lane_R.
  destruct (is_number_cases a Na) as [(s & D)|(s & m & e & D)]; rewrite D;
    cbn [SFR].
  - cbn [SFZ]. lra.
  - pose proof (is_number_finite_bounded a s m e Ha D) as Hb.
    apply bounded32_iff in Hb.
    cbn [SFZ]. rewrite <- cond_Zopp_scale, mult_IZR.
    rewrite IZR_pow2 by lia. unfold unit149. rewrite IZR_pow2 by lia.
    rewrite (powerRZ_add 2 e 149) by lra. lra.
Qed.

Lemma lane_is_R (a : lane) (z : Z) : lane_is a z -> lane_R a = IZR z.
Proof.
  intros (Ha & Na & Va).
  pose proof (lane_R_scaled a Ha Na) as H.
  rewrite Va, mult_IZR in H.
  pose proof IZR_unit149_pos as Hu.
  apply (Rmult_eq_reg_r (IZR unit149)); [exact H | lra].
Qed.

(** [vec_round_float] in real numbers. *)
Lemma vec_round_float_R (x : lane) :
  lane_ok x -> flt (vand x gen_abs_mask) two_to_23_ps = true ->
  exists n : Z,
    lane_is (vec_round_float x) n /\
    (Rabs (IZR n - lane_R x) <= 1 / 2)%R /\
    ((Rabs (IZR n - lane_R x) = 1 / 2)%R -> Z.even n = true).
Proof.
  intros Hx Hlt.
  destruct (below_two23 x Hx Hlt) as (_ & Nx & _ & _).
  pose proof (lane_R_scaled x Hx Nx) as HR. fold (arg_value x) in HR.
  pose proof IZR_unit149_pos as Hu.
  pose proof unit149_pos as HuZ.
  destruct (vec_round_float_is x Hx Hlt) as (Hr & _).
  destruct (round_value_near x Hx Hlt) as (Hnear & Htie).
  exists (round_value x). split; [exact Hr|].
  generalize dependent (round_value x). intros rv _ Hnear Htie.
  generalize dependent (lane_R x). intros rx HR.
  assert (Hd : (IZR (rv * unit149 - arg_value x) = (IZR rv - rx) * IZR unit149)%R).
  { rewrite minus_IZR, mult_IZR, <- HR. ring. }
  split.
  - assert (H1 : (- IZR unit149 <= 2 * IZR (rv * unit149 - arg_value x)
                  <= IZR unit149)%R).
    { split.
      - rewrite <- opp_IZR.
        change 2%R with (IZR 2). rewrite <- mult_IZR. apply IZR_le. lia.
      - change 2%R with (IZR 2). rewrite <- mult_IZR. apply IZR_le. lia. }
    rewrite Hd in H1.
    apply Rabs_le. split.
    + apply (Rmult_le_reg_r (IZR unit149)); [exact Hu | lra].
    + apply (Rmult_le_reg_r (IZR unit149)); [exact Hu | lra].
  - intros Heq. apply Htie.
    assert (H2 : (IZR rv - rx = 1 / 2 \/ IZR rv - rx = - (1 / 2))%R).
    { unfold Rabs in Heq. destruct (Rcase_abs (IZR rv - rx)); [right|left]; lra. }
    assert (H3 : 2 * (rv * unit149 - arg_value x) = unit149 \/
                 2 * (rv * unit149 - arg_value x) = - unit149).
    { destruct H2 as [H2|H2]; [left|right]; apply eq_IZR;
        rewrite ?opp_IZR, mult_IZR, Hd, H2; simpl; lra. }
    lia.
Qed.

(** C8.  For a float [x] with [|x| < 2^23]: [vec_round_float x] is an
    integer nearest to [x], the even one when [x] is half-way between two
    integers; [vec_floor_float x] is the greatest integer not above [x];
    [vec_ceil_float x] is the least integer not below [x]. *)
Theorem rounding_below_two23 (x : lane) :
  lane_ok x -> flt (vand x gen_abs_mask) two_to_23_ps = true ->
  (exists n : Z,
     is_number (vec_round_float x) = true /\
     lane_R (vec_round_float x) = IZR n /\
     (Rabs (IZR n - lane_R x) <= 1 / 2)%R /\
     ((Rabs (IZR n - lane_R x) = 1 / 2)%R -> Z.even n = true)) /\
  (exists n : Z,
     is_number (vec_floor_float x) = true /\
     lane_R (vec_floor_float x) = IZR n /\
     (IZR n <= lane_R x < IZR n + 1)%R) /\
  (exists n : Z,
     is_number (vec_ceil_float x) = true /\
     lane_R (vec_ceil_float x) = IZR n /\
     (IZR n - 1 < lane_R x <= IZR n)%R).
Proof.
  intros Hx Hlt.
  destruct (below_two23 x Hx Hlt) as (_ & Nx & _ & _).
  pose proof (lane_R_scaled x Hx Nx) as HR. fold (arg_value x) in HR.
  pose proof IZR_unit149_pos as Hu.
  pose proof unit149_pos as HuZ.
  set (u := IZR unit149) in *. set (rx := lane_R x) in *.
  split; [|split].
  - destruct (vec_round_float_R x Hx Hlt) as (n & Hr & Hnear & Htie).
    exists n.
    split; [apply Hr|]. split; [apply lane_is_R; exact Hr|].
    split; assumption.
  - pose proof (vec_floor_float_is x Hx Hlt) as Hf.
    exists (arg_value x / unit149).
    split; [apply Hf|]. split; [apply lane_is_R; exact Hf|].
    pose proof (Z.div_mod (arg_value x) unit149 ltac:(lia)) as Hdm.
    pose proof (Z.mod_pos_bound (arg_value x) unit149 HuZ) as Hmb.
    set (q := arg_value x / unit149) in *.
    assert (Hlo : (IZR q * u <= rx * u)%R).
    { rewrite HR. unfold u. rewrite <- mult_IZR. apply IZR_le. lia. }
    assert (Hhi : (rx * u < (IZR q + 1) * u)%R).
    { rewrite HR. unfold u. change 1%R with (IZR 1).
      rewrite <- plus_IZR, <- mult_IZR. apply IZR_lt. lia. }
    split.
    + apply (Rmult_le_reg_r u); [exact Hu | exact Hlo].
    + apply (Rmult_lt_reg_r u); [exact Hu | exact Hhi].
  - pose proof (vec_ceil_float_is x Hx Hlt) as Hc.
    exists (- (- arg_value x / unit149)).
    split; [apply Hc|]. split; [apply lane_is_R; exact Hc|].
    pose proof (Z.div_mod (- arg_value x) unit149 ltac:(lia)) as Hdm.
    pose proof (Z.mod_pos_bound (- arg_value x) unit149 HuZ) as Hmb.
    set (q := - (- arg_value x / unit149)) in *.
    assert (Hq : - arg_value x / unit149 = - q) by (unfold q; lia).
    rewrite Hq in Hdm.
    assert (Hlo : ((IZR q - 1) * u < rx * u)%R).
    { rewrite HR. unfold u. change 1%R with (IZR 1).
      rewrite <- minus_IZR, <- mult_IZR. apply IZR_lt. lia. }
    assert (Hhi : (rx * u <= IZR q * u)%R).
    { rewrite HR. unfold u. rewrite <- mult_IZR. apply IZR_le. lia. }
    split.
    + apply (Rmult_lt_reg_r u); [exact Hu | exact Hlo].
    + apply (Rmult_le_reg_r u); [exact Hu | exact Hhi].
Qed.

(** The scenarios of the specification: [round(2.5)] is [2.0],
    [floor(-2.5)] is [-3.0] and [ceil(-2.5)] is [-2.0], and the theorem at
    [2.5]. *)
Lemma rounding_below_two23_witness :
  vec_round_float 1075838976 = 1073741824 /\
  vec_floor_float 3223322624 = 3225419776 /\
  vec_ceil_float 3223322624 = 3221225472 /\
  exists n : Z,
     is_number (vec_round_float 1075838976) = true /\
     lane_R (vec_round_float 1075838976) = IZR n /\
     (Rabs (IZR n - lane_R 1075838976%Z) <= 1 / 2)%R /\
     ((Rabs (IZR n - lane_R 1075838976%Z) = 1 / 2)%R -> Z.even n = true).
Proof.
  split; [vm_compute; reflexivity|].
  split; [vm_compute; reflexivity|].
  split; [vm_compute; reflexivity|].
  apply (rounding_below_two23 1075838976); [lane_const | vm_compute; reflexivity].
Defined.

End RoundingReals.

(** ** Sign symmetry of the lane arithmetic *)

Section ArithSymmetry.
Import Bits Lane.
Local Open Scope lane_scope.

Lemma binary_round_aux_opp (s : bool) (m e : Z) (l : location) :
  binary_round_aux prec32 emax32 (negb s) m e l =
  SFopp (binary_round_aux prec32 emax32 s m e l).
Proof.
  unfold binary_round_aux.
  destruct (shr_fexp prec32 emax32 m e l) as [mrs' e'].
  destruct (shr_fexp prec32 emax32 _ e' loc_Exact) as [mrs'' e''].
  destruct (shr_m mrs''); try reflexivity.
  destruct (e'' <=? emax32 - prec32); reflexivity.
Qed.

Lemma binary_round_opp (s : bool) (p : positive) (e : Z) :
  binary_round prec32 emax32 (negb s) p e =
  SFopp (binary_round prec32 emax32 s p e).
Proof.
  unfold binary_round. destruct (shl_align p e _) as [mz ez].
  apply binary_round_aux_opp.
Qed.

Lemma SFmul_opp_r (a b : spec_float) :
  SFmul prec32 emax32 a (SFopp b) = SFopp (SFmul prec32 emax32 a b).
Proof.
  destruct a as [sa|sa| |sa ma ea], b as [sb|sb| |sb mb eb];
    cbn [SFopp SFmul]; try reflexivity;
    try (destruct sa, sb; reflexivity).
  replace (xorb sa (negb sb)) with (negb (xorb sa sb)) by (destruct sa, sb; reflexivity).
  apply binary_round_aux_opp.
Qed.

Lemma binary_normalize_opp (D ez : Z) :
  D <> 0 ->
  binary_normalize prec32 emax32 (- D) ez false =
  SFopp (binary_normalize prec32 emax32 D ez false).
Proof.
  intros HD. destruct D as [|p|p]; [congruence| |]; cbn [Z.opp binary_normalize].
  - apply (binary_round_opp false).
  - change false with (negb true) at 1.
    rewrite binary_round_opp.
    destruct (binary_round prec32 emax32 true p ez) as [s|s| |s m e];
      cbn [SFopp]; rewrite ?negb_involutive; reflexivity.
Qed.

Lemma cond_Zopp_negb (s : bool) (z : Z) : cond_Zopp (negb s) z = - cond_Zopp s z.
Proof. destruct s; cbn [negb cond_Zopp]; lia. Qed.

(** Both operands negated: the sum is negated, unless it is a zero. *)
Lemma SFadd_opp (a b : spec_float) :
  (forall s, SFadd prec32 emax32 a b <> S754_zero s) ->
  SFadd prec32 emax32 (SFopp a) (SFopp b) = SFopp (SFadd prec32 emax32 a b).
Proof.
  intros Hz.
  destruct a as [sa|sa| |sa ma ea], b as [sb|sb| |sb mb eb];
    try reflexivity;
    try (destruct sa, sb; reflexivity).
  - exfalso. destruct sa, sb; cbn [SFadd] in Hz;
      solve [eapply Hz; reflexivity].
  - cbn [SFopp]. rewrite !SFadd_finite in *.
    rewrite !cond_Zopp_negb, <- Z.opp_add_distr.
    apply binary_normalize_opp.
    intros H0. rewrite H0 in Hz. cbn [binary_normalize] in Hz.
    eapply Hz; reflexivity.
Qed.

Lemma land_small_sign (r : Z) :
  0 <= r < 2147483648 -> Z.land r 2147483648 = 0.
Proof.
  intros Hr. apply Z.bits_inj'. intros i Hi.
  rewrite Z.land_spec, Z.bits_0.
  change 2147483648 with (Z.shiftl 1 31). rewrite Z.shiftl_spec by lia.
  destruct (Z.eq_dec i 31) as [->|Hne].
  - replace (Z.testbit r 31) with false; [reflexivity|].
    symmetry. destruct (Z.eq_dec r 0) as [->|Hr0]; [apply Z.bits_0|].
    apply Z.bits_above_log2; [lia|].
    apply Z.log2_lt_pow2; [lia|]. change (2 ^ 31) with 2147483648. lia.
  - replace (Z.testbit 1 (i - 31)) with false; [apply andb_false_r|].
    symmetry. destruct (Z.ltb_spec i 31); [apply Z.testbit_neg_r; lia|].
    apply (Z.bits_above_log2 1); cbn; lia.
Qed.

Lemma fneg_sign_word (s : bool) (r : Z) :
  0 <= r < 2147483648 ->
  fneg (sign_word s + r) = sign_word (negb s) + r.
Proof.
  intros Hr. unfold fneg, gen_sign_mask.
  assert (H0 : Z.lxor r 2147483648 = r + 2147483648).
  { rewrite Z.add_nocarry_lxor; [reflexivity | apply land_small_sign; exact Hr]. }
  destruct s; cbn [sign_word negb].
  - replace (2147483648 + r) with (Z.lxor r 2147483648) by lia.
    rewrite Z.lxor_assoc, Z.lxor_nilpotent, Z.lxor_0_r. lia.
  - rewrite !Z.add_0_l, H0. apply Z.add_comm.
Qed.

Lemma pack_opp (s : bool) (E F : Z) : pack (negb s) E F = fneg (pack s E F).
Proof.
  unfold pack. rewrite <- !Z.add_assoc. rewrite fneg_sign_word; [reflexivity|].
  change 255 with (Z.ones 8). change 8388607 with (Z.ones 23).
  rewrite !Z.land_ones by lia.
  pose proof (Z.mod_pos_bound E (2 ^ 8) ltac:(lia)).
  pose proof (Z.mod_pos_bound F (2 ^ 23) ltac:(lia)).
  change (2 ^ 8) with 256 in *. change (2 ^ 23) with 8388608 in *. lia.
Qed.

Lemma encode_opp (f : spec_float) :
  f <> S754_nan -> encode (SFopp f) = fneg (encode f).
Proof.
  intros Hn. destruct f as [s|s| |s m e]; cbn [SFopp encode];
    try apply pack_opp; [congruence|].
  destruct (Zpos m <? 8388608); apply pack_opp.
Qed.

Lemma is_nan_encode_nan : is_nan (encode S754_nan) = true.
Proof. vm_compute. reflexivity. Qed.

Lemma magnitude_encode_zero (s : bool) : magnitude (encode (S754_zero s)) = 0.
Proof. destruct s; vm_compute; reflexivity. Qed.

Lemma fmul_fneg_r (a b : lane) :
  is_nan (a *! b) = false -> a *! fneg b = fneg (a *! b).
Proof.
  intros Hn. unfold fmul in *. rewrite decode_fneg, SFmul_opp_r.
  apply encode_opp. intros H. rewrite H, is_nan_encode_nan in Hn. discriminate.
Qed.

Lemma fadd_fneg (a b : lane) :
  is_nan (a +! b) = false -> magnitude (a +! b) <> 0 ->
  fneg a +! fneg b = fneg (a +! b).
Proof.
  intros Hn Hm. unfold fadd in *. rewrite !decode_fneg, SFadd_opp.
  - apply encode_opp. intros H. rewrite H, is_nan_encode_nan in Hn. discriminate.
  - intros s H. rewrite H, magnitude_encode_zero in Hm. congruence.
Qed.

Lemma is_nan_fadd_l (a b : lane) :
  lane_ok a -> is_nan a = true -> is_nan (a +! b) = true.
Proof.
  intros Ha Hn. unfold fadd. rewrite (is_nan_decode a Ha Hn).
  cbn [SFadd]. apply is_nan_encode_nan.
Qed.

End ArithSymmetry.

(** ** Sign handling of the hyperbolic tangent *)

Section TanhSymmetry.
Import Bits Lane Kernels.
Local Open Scope lane_scope.

Lemma fneg_involutive (x : lane) : fneg (fneg x) = x.
Proof.
  unfold fneg. rewrite Z.lxor_assoc, Z.lxor_nilpotent. apply Z.lxor_0_r.
Qed.

Lemma positive_lane_sign (y : lane) :
  lane_ok y -> positive_lane y ->
  sign_bit y = false /\ magnitude y <> 0 /\ 0 <= y < 2147483648.
Proof.
  intros Hy (Hn & Hk). pose proof (magnitude_bound y).
  destruct (lane_sign_cases y Hy) as [(Hs & Hm & Hsk)|(Hs & Hm & Hsk)].
  - repeat split; try assumption; lia.
  - exfalso. lia.
Qed.

Lemma vor_sign_positive (r : lane) :
  0 <= r < 2147483648 -> vor r gen_sign_mask = fneg r.
Proof.
  intros Hr. unfold vor, gen_sign_mask.
  rewrite lor_disjoint_add by (apply land_small_sign; exact Hr).
  pose proof (fneg_sign_word false r Hr) as H. cbn [sign_word negb] in H.
  rewrite Z.add_0_l in H. rewrite H. apply Z.add_comm.
Qed.

Lemma sign_bit_fneg (x : lane) : sign_bit (fneg x) = negb (sign_bit x).
Proof.
  unfold sign_bit, fneg. rewrite Z.lxor_spec.
  replace (Z.testbit gen_sign_mask 31) with true by reflexivity.
  apply xorb_true_r.
Qed.

Lemma magnitude_fneg (x : lane) : magnitude (fneg x) = magnitude x.
Proof. rewrite <- !abs_magnitude. apply abs_fneg. Qed.

(** The kernel, branch by branch. *)
Lemma vec_tanh_float_branches (x : lane) :
  lane_ok x ->
  vec_tanh_float x =
    let a := magnitude x in
    if flt a tanh_limit_small
    then tanh_small_factor (a *! a) *! x +! x
    else vor (if flt tanh_maxlogf_2 a then gen_one else tanh_medium a)
             (vand x gen_sign_mask).
Proof.
  intros Hx. unfold vec_tanh_float. cbv zeta.
  replace (vxor x (vand x gen_sign_mask)) with (magnitude x)
    by (rewrite <- (vxor_sign_abs x Hx); apply Z.lxor_comm).
  unfold mask_lt, mask_gt.
  assert (H1 : lane_ok gen_one) by lane_const.
  assert (Hm : lane_ok (tanh_medium (magnitude x)))
    by (unfold tanh_medium; apply fsub_ok).
  rewrite (select_mask (tanh_medium (magnitude x)) gen_one) by assumption.
  rewrite select_mask.
  - reflexivity.
  - apply vor_ok; [destruct (flt tanh_maxlogf_2 (magnitude x)); assumption|].
    apply vand_ok_r. lane_const.
  - apply fadd_ok.
Qed.

(** On a magnitude where the kernel gives a positive number, the kernel
    at the negated lane gives the negated number. *)
Lemma vec_tanh_float_fneg_magnitude (a : lane) :
  lane_ok a -> sign_bit a = false ->
  positive_lane (vec_tanh_float a) ->
  vec_tanh_float (fneg a) = fneg (vec_tanh_float a).
Proof.
  intros Ha Hs Hpos.
  assert (Hma : magnitude a = a)
    by (destruct (lane_sign_cases a Ha) as [(_ & H & _)|(H & _)]; congruence).
  assert (Hr : lane_ok (vec_tanh_float a)).
  { rewrite vec_tanh_float_branches by exact Ha. cbv zeta.
    destruct (flt _ _); [apply fadd_ok|].
    apply vor_ok; [|apply vand_ok_r; lane_const].
    destruct (flt _ _); [lane_const | unfold tanh_medium; apply fsub_ok]. }
  destruct (positive_lane_sign _ Hr Hpos) as (Hsr & Hmr & Hrr).
  destruct Hpos as (Hn & _).
  revert Hn Hmr Hrr.
  rewrite (vec_tanh_float_branches (fneg a)) by (apply fneg_ok; exact Ha).
  rewrite (vec_tanh_float_branches a) by exact Ha.
  cbv zeta. rewrite magnitude_fneg, Hma.
  rewrite !sign_mask_and, sign_bit_fneg, Hs. cbn [negb].
  destruct (flt a tanh_limit_small).
  - intros Hn Hmr _.
    set (w := tanh_small_factor (a *! a)) in *.
    assert (Hw : is_nan (w *! a) = false).
    { destruct (is_nan (w *! a)) eqn:E; [|reflexivity].
      rewrite (is_nan_fadd_l (w *! a) a (fmul_ok w a) E) in Hn. discriminate. }
    rewrite fmul_fneg_r by exact Hw.
    apply fadd_fneg; assumption.
  - intros _ _ Hrr.
    set (r := if flt tanh_maxlogf_2 a then gen_one else tanh_medium a) in *.
    assert (Hr0 : vor r 0 = r) by (unfold vor; apply Z.lor_0_r).
    rewrite Hr0 in Hrr |- *.
    apply vor_sign_positive. exact Hrr.
Qed.

(** The same for a lane of either sign. *)
Lemma vec_tanh_float_fneg (x : lane) :
  lane_ok x -> positive_lane (vec_tanh_float (magnitude x)) ->
  vec_tanh_float (fneg x) = fneg (vec_tanh_float x).
Proof.
  intros Hx Hpos.
  pose proof (vec_tanh_float_fneg_magnitude (magnitude x) (magnitude_ok x)
                (sign_bit_magnitude x) Hpos) as H.
  destruct (lane_sign_cases x Hx) as [(Hs & Hm & _)|(Hs & Hm & _)].
  - rewrite <- Hm in H. exact H.
  - pose proof (fneg_negative x Hx Hs) as Hf.
    rewrite Hf. rewrite <- Hf in H at 1. rewrite fneg_involutive in H.
    rewrite H, fneg_involutive. reflexivity.
Qed.

End TanhSymmetry.

(** ** The arithmetic in real numbers *)

Section RealModel.
Import Bits Lane Kernels.
Local Open Scope lane_scope.

Lemma pw_pos (n : Z) : (0 < pw n)%R.
Proof. unfold pw. apply powerRZ_lt. lra. Qed.

Lemma pw_add (a b : Z) : pw (a + b) = (pw a * pw b)%R.
Proof. unfold pw. apply powerRZ_add. lra. Qed.

Lemma pw_IZR (n : Z) : 0 <= n -> pw n = IZR (2 ^ n).
Proof. intros. unfold pw. symmetry. apply IZR_pow2. assumption. Qed.

Lemma pw_le (a b : Z) : a <= b -> (pw a <= pw b)%R.
Proof.
  intros H. replace b with (a + (b - a)) by lia. rewrite pw_add.
  assert (1 <= pw (b - a))%R.
  { rewrite pw_IZR by lia. apply IZR_le.
    pose proof (pow2_pos (b - a) ltac:(lia)). lia. }
  pose proof (pw_pos a). nra.
Qed.

Lemma pw_succ (a : Z) : pw (a + 1) = (2 * pw a)%R.
Proof. rewrite pw_add. unfold pw at 2. simpl. lra. Qed.

Lemma pw_half (a : Z) : pw (a - 1) = (pw a / 2)%R.
Proof.
  pose proof (pw_succ (a - 1)) as H. replace (a - 1 + 1) with a in H by lia. lra.
Qed.

Lemma SFR_finite (s : bool) (m : positive) (e : Z) :
  SFR (S754_finite s m e) =
  ((if s then -1 else 1) * (IZR (Zpos m) * pw e))%R.
Proof.
  cbn [SFR]. unfold pw. destruct s; cbn [cond_Zopp].
  - rewrite opp_IZR. lra.
  - lra.
Qed.

Lemma Rabs_SFR_finite (s : bool) (m : positive) (e : Z) :
  Rabs (SFR (S754_finite s m e)) = (IZR (Zpos m) * pw e)%R.
Proof.
  rewrite SFR_finite.
  assert (0 < IZR (Zpos m) * pw e)%R.
  { apply Rmult_lt_0_compat; [apply IZR_lt; lia | apply pw_pos]. }
  destruct s.
  - rewrite Rabs_left; lra.
  - rewrite Rabs_pos_eq; lra.
Qed.

Lemma digits_value (M : positive) :
  (pw (Zpos (digits2_pos M) - 1) <= IZR (Zpos M) < pw (Zpos (digits2_pos M)))%R.
Proof.
  pose proof (digits2_pos_bounds M) as [Lo Hi].
  rewrite !pw_IZR by lia. split; [apply IZR_le | apply IZR_lt]; assumption.
Qed.

(** Error of the rounded quotient, in real numbers. *)
Lemma rne_error (M k e : Z) :
  0 <= M -> 1 <= k ->
  (Rabs (IZR (rne_shift M k) * pw (e + k) - IZR M * pw e) <= pw (e + k - 1))%R.
Proof.
  intros HM Hk.
  pose proof (rne_shift_bounds M k HM Hk) as (_ & Hn & _).
  set (q := rne_shift M k) in *.
  assert (Hd : (IZR q * pw (e + k) - IZR M * pw e
               = IZR (q * 2 ^ k - M) * pw e)%R).
  { rewrite pw_add, minus_IZR, mult_IZR, (pw_IZR k) by lia. ring. }
  rewrite Hd, Rabs_mult, (Rabs_pos_eq (pw e)) by (pose proof (pw_pos e); lra).
  rewrite <- abs_IZR.
  replace (e + k - 1) with ((k - 1) + e) by lia. rewrite pw_add.
  apply Rmult_le_compat_r; [pose proof (pw_pos e); lra|].
  rewrite pw_half, (pw_IZR k) by lia.
  assert (2 * IZR (Z.abs (q * 2 ^ k - M)) <= IZR (2 ^ k))%R.
  { change 2%R with (IZR 2). rewrite <- mult_IZR. apply IZR_le. exact Hn. }
  lra.
Qed.


Lemma bra_model (s : bool) (M : positive) (e : Z) :
  e <= fexp prec32 emax32 (Zpos (digits2_pos M) + e) ->
  Zpos (digits2_pos M) + e <= 127 ->
  let r := binary_round_aux prec32 emax32 s (Zpos M) e loc_Exact in
  let v := (IZR (Zpos M) * pw e)%R in
  valid_binary prec32 emax32 r = true /\ SF_number r = true /\
  exists ar : R,
    SFR r = ((if s then -1 else 1) * ar)%R /\ (0 <= ar)%R /\
    (Rabs (ar - v) <= v / 16777216 + pw (-150))%R /\
    (-149 <= e -> (Rabs (ar - v) <= v / 16777216)%R).
Proof.
  intros Hk Hov r v.
  pose proof (digits2_pos_bounds M) as [Dlo Dhi].
  pose proof (digits_value M) as [Rlo Rhi].
  set (d := Zpos (digits2_pos M)) in *.
  assert (Hd : 0 < d) by (unfold d; lia).
  assert (Hv : (0 < v)%R).
  { unfold v. apply Rmult_lt_0_compat; [apply IZR_lt; lia | apply pw_pos]. }
  pose proof (pw_pos (-150)) as Heta.
  rewrite fexp32 in Hk.
  set (E := Z.max (d + e - 24) (-149)) in *.
  destruct (Z.eq_dec E e) as [Heq|Hne].
  - (* already in place *)
    assert (Hb : bounded prec32 emax32 M e = true).
    { unfold bounded, canonical_mantissa. fold d. rewrite fexp32. fold E.
      apply andb_true_iff. split; [apply Z.eqb_eq; exact Heq|].
      apply Z.leb_le. change (emax32 - prec32) with 104. lia. }
    unfold r. rewrite binary_round_aux_canonical by exact Hb.
    split; [exact Hb|]. split; [reflexivity|].
    exists v. split; [apply SFR_finite|]. split; [lra|].
    replace (v - v)%R with 0%R by ring. rewrite Rabs_R0. split; [|intros _]; lra.
  - (* a right shift by k *)
    set (k := E - e).
    assert (Hk1 : 1 <= k) by (unfold k; lia).
    assert (HE : e + k = E) by (unfold k; lia).
    pose proof (binary_round_aux_shift s M e k Hk1) as Hsh.
    fold d in Hsh. rewrite fexp32 in Hsh. fold E in Hsh.
    specialize (Hsh (eq_sym HE)). cbv zeta in Hsh.
    pose proof (rne_shift_bounds (Zpos M) k ltac:(lia) Hk1) as (Hq & _ & _).
    pose proof (rne_error (Zpos M) k e ltac:(lia) Hk1) as Herr.
    set (q := rne_shift (Zpos M) k) in *.
    rewrite HE in Hsh, Herr. fold v in Herr. fold r in Hsh.
    pose proof (pow2_pos k ltac:(lia)) as Hpk.
    assert (Hquo : 0 <= Zpos M / 2 ^ k) by (apply Z.div_pos; lia).
    assert (Hq24 : Zpos M / 2 ^ k < 16777216).
    { apply Z.div_lt_upper_bound; [lia|].
      assert (2 ^ d <= 2 ^ (24 + k)) by (apply Z.pow_le_mono_r; lia).
      rewrite Z.pow_add_r in * by lia. change (2 ^ 24) with 16777216 in *. lia. }
    assert (HEhi : E <= 103) by lia.
    (* the two regimes *)
    assert (Hreg : ((pw (E - 1) <= v / 16777216)%R /\
                    8388608 <= Zpos M / 2 ^ k)
                   \/ (E = -149 /\ e < -149)).
    { destruct (Z.le_gt_cases (-149) (d + e - 24)) as [Hn|Hs]; [left|right].
      - assert (HEn : E = d + e - 24) by lia.
        assert (Hkd : k = d - 24) by lia.
        split.
        + replace (E - 1) with ((d - 1) + (e - 24)) by lia.
          rewrite pw_add. unfold v.
          replace (e - 24) with (e + - 24) by lia. rewrite (pw_add e).
          replace (pw (-24)) with (/ 16777216)%R by (unfold pw; simpl; lra).
          pose proof (pw_pos e). nra.
        + apply Z.div_le_lower_bound; [lia|].
          replace 8388608 with (2 ^ 23) by reflexivity.
          rewrite <- Z.pow_add_r by lia.
          replace (k + 23) with (d - 1) by lia. lia.
      - lia. }
    destruct (Z.eqb_spec q 0) as [Hq0|Hq0].
    + rewrite Hsh. split; [reflexivity|]. split; [reflexivity|].
      exists 0%R. split; [cbn [SFR]; lra|]. split; [lra|].
      rewrite Hq0 in Herr. rewrite Rmult_0_l in Herr.
      destruct Hreg as [(Hr1 & Hr3)|(Hr1 & Hr2)].
      * exfalso. lia.
      * rewrite Hr1 in Herr. change (-149 - 1) with (-150) in Herr.
        split; [lra | intros; lia].
    + assert (Hqpos : 0 < q) by lia.
      assert (Hbnd : (Rabs (IZR q * pw E - v) <= v / 16777216 + pw (-150))%R /\
                     (-149 <= e -> (Rabs (IZR q * pw E - v) <= v / 16777216)%R)).
      { destruct Hreg as [(Hr1 & Hr3)|(Hr1 & Hr2)].
        - split; [|intros _]; lra.
        - rewrite Hr1 in Herr |- *. change (-149 - 1) with (-150) in Herr.
          split; [lra | intros; lia]. }
      assert (Har : (0 <= IZR q * pw E)%R).
      { apply Rmult_le_pos; [apply IZR_le; lia | pose proof (pw_pos E); lra]. }
      destruct (Z.ltb_spec q 16777216) as [Hlt|Hge].
      * replace (E <=? 104) with true in Hsh by (symmetry; apply Z.leb_le; lia).
        assert (Hb : bounded prec32 emax32 (Z.to_pos q) E = true).
        { apply bounded32_iff. rewrite Z2Pos.id by lia.
          destruct Hreg as [(Hr1 & Hr3)|(Hr1 & Hr2)]; lia. }
        rewrite Hsh. split; [exact Hb|]. split; [reflexivity|].
        exists (IZR q * pw E)%R. split.
        { rewrite SFR_finite, Z2Pos.id by lia. reflexivity. }
        split; [exact Har | exact Hbnd].
      * assert (Hq' : q = 16777216) by lia.
        replace (E + 1 <=? 104) with true in Hsh by (symmetry; apply Z.leb_le; lia).
        rewrite Hsh. split; [apply bounded32_iff; lia|]. split; [reflexivity|].
        exists (IZR q * pw E)%R. split.
        { rewrite SFR_finite, pw_succ, Hq'. 
          change (IZR 16777216) with (IZR (2 * 8388608)). rewrite mult_IZR.
          ring. }
        split; [exact Har | exact Hbnd].
Qed.



Lemma pw_lt_inv (a b : Z) : (pw a < pw b)%R -> a < b.
Proof.
  intros H. destruct (Z.lt_ge_cases a b) as [|Hge]; [assumption|].
  pose proof (pw_le b a Hge). lra.
Qed.

(** [binary_round], with its alignment step, never loses more than half
    a unit in the last place. *)
Lemma br_model (s : bool) (p : positive) (e : Z) :
  -149 <= e -> Zpos (digits2_pos p) + e <= 127 ->
  let r := binary_round prec32 emax32 s p e in
  let v := (IZR (Zpos p) * pw e)%R in
  valid_binary prec32 emax32 r = true /\ SF_number r = true /\
  exists ar : R,
    SFR r = ((if s then -1 else 1) * ar)%R /\ (0 <= ar)%R /\
    (Rabs (ar - v) <= v / 16777216)%R.
Proof.
  intros He Hov r v.
  set (d := Zpos (digits2_pos p)) in *.
  assert (Hd : 0 < d) by (unfold d; lia).
  set (E := fexp prec32 emax32 (d + e)).
  assert (HE : E = Z.max (d + e - 24) (-149)) by (unfold E; apply fexp32).
  assert (Hv : (0 < v)%R).
  { unfold v. apply Rmult_lt_0_compat; [apply IZR_lt; lia | apply pw_pos]. }
  destruct (Z.lt_ge_cases E e) as [Hlt|Hge].
  - (* shifted left into place: exact *)
    pose proof (pow2_pos (e - E) ltac:(lia)) as Hp.
    set (P := Z.to_pos (Zpos p * 2 ^ (e - E))).
    assert (HP : Zpos P = Zpos p * 2 ^ (e - E)) by (unfold P; rewrite Z2Pos.id; nia).
    assert (HdP : Zpos (digits2_pos P) + E = d + e).
    { rewrite (digits2_pos_shift p P (e - E)) by (lia || exact HP). fold d. lia. }
    assert (Hb : bounded prec32 emax32 P E = true).
    { unfold bounded, canonical_mantissa. rewrite HdP. fold E.
      rewrite Z.eqb_refl. apply Z.leb_le. change (emax32 - prec32) with 104. lia. }
    unfold r. rewrite (binary_round_exact s p P e E Hb) by (left; split; [lia|exact HP]).
    split; [exact Hb|]. split; [reflexivity|].
    exists v. split.
    { rewrite SFR_finite, HP, mult_IZR, <- pw_IZR by lia.
      unfold v. replace e with ((e - E) + E) at 2 by lia. rewrite pw_add. ring. }
    split; [lra|]. replace (v - v)%R with 0%R by ring. rewrite Rabs_R0. lra.
  - assert (Hs : shl_align p e E = (p, e)).
    { unfold shl_align. destruct (E - e) eqn:Ed; try reflexivity. lia. }
    unfold r, binary_round. fold d. fold E. rewrite Hs.
    destruct (bra_model s p e) as (Hval & Hnum & ar & H1 & H2 & H3 & H4).
    + fold d. fold E. lia.
    + fold d. lia.
    + split; [exact Hval|]. split; [exact Hnum|].
      exists ar. split; [exact H1|]. split; [exact H2|]. apply H4. exact He.
Qed.

Lemma SF_number_encode (r : spec_float) :
  valid_binary prec32 emax32 r = true -> SF_number r = true ->
  is_number (encode r) = true /\ lane_R (encode r) = SFR r.
Proof.
  intros Hv Hn. unfold is_number, lane_R. rewrite decode_encode by exact Hv.
  split; [|reflexivity]. destruct r; try discriminate; reflexivity.
Qed.

Lemma lane_R_number_cases (a : lane) :
  lane_ok a -> is_number a = true ->
  (lane_R a = 0%R /\ exists s, decode a = S754_zero s) \/
  (exists s m e, decode a = S754_finite s m e /\
     bounded prec32 emax32 m e = true /\
     lane_R a = ((if s then -1 else 1) * (IZR (Zpos m) * pw e))%R).
Proof.
  intros Ha Na.
  destruct (is_number_cases a Na) as [(s & D)|(s & m & e & D)].
  - left. unfold lane_R. rewrite D. split; [reflexivity | exists s; reflexivity].
  - right. exists s, m, e. split; [exact D|].
    split; [apply (is_number_finite_bounded a s m e Ha D)|].
    unfold lane_R. rewrite D. apply SFR_finite.
Qed.

(** The sum of two numbers: relative error at most [2^-24]. *)
Lemma fadd_model (a b : lane) :
  lane_ok a -> lane_ok b -> is_number a = true -> is_number b = true ->
  (Rabs (lane_R a + lane_R b) < pw 127)%R ->
  is_number (fadd a b) = true /\
  (Rabs (lane_R (fadd a b) - (lane_R a + lane_R b))
   <= Rabs (lane_R a + lane_R b) / 16777216)%R.
Proof.
  intros Ha Hb Na Nb Hov.
  assert (Hexact : forall r : spec_float,
            valid_binary prec32 emax32 r = true -> SF_number r = true ->
            SFR r = (lane_R a + lane_R b)%R ->
            is_number (encode r) = true /\
            (Rabs (lane_R (encode r) - (lane_R a + lane_R b))
             <= Rabs (lane_R a + lane_R b) / 16777216)%R).
  { intros r Hv Hn Hr. destruct (SF_number_encode r Hv Hn) as [H1 H2].
    split; [exact H1|]. rewrite H2, Hr.
    replace (lane_R a + lane_R b - (lane_R a + lane_R b))%R with 0%R by ring.
    rewrite Rabs_R0. pose proof (Rabs_pos (lane_R a + lane_R b)). lra. }
  unfold fadd.
  destruct (lane_R_number_cases a Ha Na) as [(Va & sa & Da)|(sa & ma & ea & Da & Ba & Va)];
  destruct (lane_R_number_cases b Hb Nb) as [(Vb & sb & Db)|(sb & mb & eb & Db & Bb & Vb)];
  rewrite Da, Db.
  - apply Hexact.
    + destruct sa, sb; reflexivity.
    + destruct sa, sb; reflexivity.
    + rewrite Va, Vb. destruct sa, sb; cbn; lra.
  - apply Hexact; [exact Bb | reflexivity |].
    cbn [SFadd]. rewrite Va. unfold lane_R. rewrite Db. lra.
  - apply Hexact; [exact Ba | reflexivity |].
    cbn [SFadd]. rewrite Vb. unfold lane_R. rewrite Da. lra.
  - rewrite SFadd_finite.
    assert (Ha' := Ba). assert (Hb' := Bb).
    apply bounded32_iff in Ha'. apply bounded32_iff in Hb'.
    set (ez := Z.min ea eb).
    set (D := cond_Zopp sa (Zpos ma * 2 ^ (ea - ez)) +
              cond_Zopp sb (Zpos mb * 2 ^ (eb - ez))).
    assert (HD : (IZR D * pw ez = lane_R a + lane_R b)%R).
    { unfold D. rewrite plus_IZR, Va, Vb.
      assert (Hal : forall (s : bool) (m : positive) (e : Z), ez <= e ->
                (IZR (cond_Zopp s (Zpos m * 2 ^ (e - ez))) * pw ez
                 = (if s then -1 else 1) * (IZR (Zpos m) * pw e))%R).
      { intros s m e Hle.
        replace e with ((e - ez) + ez) at 2 by lia. rewrite pw_add.
        rewrite (pw_IZR (e - ez)) by lia.
        destruct s; cbn [cond_Zopp]; rewrite ?opp_IZR, mult_IZR; ring. }
      rewrite Rmult_plus_distr_r, !Hal by (unfold ez; lia). reflexivity. }
    destruct (Z.eq_dec D 0) as [HD0|HD0].
    + rewrite HD0. cbn [binary_normalize].
      apply Hexact; [reflexivity | reflexivity |].
      rewrite <- HD, HD0. cbn [SFR]. lra.
    + assert (Hshape : forall p : positive, Zpos p = Z.abs D ->
        is_number (encode (binary_round prec32 emax32 (D <? 0) p ez)) = true /\
        (Rabs (lane_R (encode (binary_round prec32 emax32 (D <? 0) p ez))
               - (lane_R a + lane_R b))
         <= Rabs (lane_R a + lane_R b) / 16777216)%R).
      { intros p Hp.
        assert (Habs : (Rabs (lane_R a + lane_R b) = IZR (Zpos p) * pw ez)%R).
        { rewrite <- HD, Rabs_mult, (Rabs_pos_eq (pw ez))
            by (pose proof (pw_pos ez); lra).
          rewrite <- abs_IZR, Hp. reflexivity. }
        destruct (br_model (D <? 0) p ez) as (Hv & Hn & ar & H1 & H2 & H3).
        - unfold ez. lia.
        - pose proof (digits_value p) as [Lo _].
          rewrite Habs in Hov.
          assert (pw (Zpos (digits2_pos p) - 1 + ez) < pw 127)%R.
          { rewrite pw_add. pose proof (pw_pos ez). nra. }
          apply pw_lt_inv in H. lia.
        - destruct (SF_number_encode _ Hv Hn) as [N1 N2].
          split; [exact N1|]. rewrite N2, H1, Habs.
          assert (Hsum : (lane_R a + lane_R b
                          = (if D <? 0 then -1 else 1) * (IZR (Zpos p) * pw ez))%R).
          { rewrite <- HD. destruct (Z.ltb_spec D 0).
            - rewrite Z.abs_neq in Hp by lia.
              replace D with (- Zpos p) by lia. rewrite opp_IZR. ring.
            - rewrite Z.abs_eq in Hp by lia. rewrite <- Hp. ring. }
          rewrite Hsum.
          replace ((if D <? 0 then -1 else 1) * ar -
                   (if D <? 0 then -1 else 1) * (IZR (Zpos p) * pw ez))%R
            with ((if D <? 0 then -1 else 1) * (ar - IZR (Zpos p) * pw ez))%R by ring.
          rewrite Rabs_mult.
          replace (Rabs (if D <? 0 then -1 else 1)) with 1%R.
          + lra.
          + destruct (D <? 0); [rewrite Rabs_left | rewrite Rabs_pos_eq]; lra. }
      destruct D as [|p|p]; [congruence| |]; cbn [binary_normalize].
      * apply (Hshape p). reflexivity.
      * apply (Hshape p). reflexivity.
Qed.


Lemma SFR_opp (f : spec_float) : SFR (SFopp f) = (- SFR f)%R.
Proof.
  destruct f as [s|s| |s m e]; cbn [SFopp SFR]; try lra.
  destruct s; cbn [negb cond_Zopp]; rewrite ?opp_IZR; lra.
Qed.

Lemma lane_R_fneg (a : lane) : lane_R (fneg a) = (- lane_R a)%R.
Proof. unfold lane_R. rewrite decode_fneg. apply SFR_opp. Qed.

Lemma fsub_as_fadd (a b : lane) : fsub a b = fadd a (fneg b).
Proof. rewrite <- (fneg_involutive b) at 1. apply fsub_fneg. Qed.

(** The difference of two numbers: relative error at most [2^-24]. *)
Lemma fsub_model (a b : lane) :
  lane_ok a -> lane_ok b -> is_number a = true -> is_number b = true ->
  (Rabs (lane_R a - lane_R b) < pw 127)%R ->
  is_number (fsub a b) = true /\
  (Rabs (lane_R (fsub a b) - (lane_R a - lane_R b))
   <= Rabs (lane_R a - lane_R b) / 16777216)%R.
Proof.
  intros Ha Hb Na Nb Hov. rewrite fsub_as_fadd.
  assert (Nb' : is_number (fneg b) = true)
    by (rewrite is_number_fneg; exact Nb).
  pose proof (fadd_model a (fneg b) Ha (fneg_ok b Hb) Na Nb') as H.
  rewrite lane_R_fneg in H.
  replace (lane_R a + - lane_R b)%R with (lane_R a - lane_R b)%R in H by ring.
  apply H. exact Hov.
Qed.

(** The product of two numbers: relative error at most [2^-24], or half
    the smallest subnormal. *)
Lemma fmul_model (a b : lane) :
  lane_ok a -> lane_ok b -> is_number a = true -> is_number b = true ->
  (Rabs (lane_R a * lane_R b) < pw 127)%R ->
  is_number (fmul a b) = true /\
  (Rabs (lane_R (fmul a b) - lane_R a * lane_R b)
   <= Rabs (lane_R a * lane_R b) / 16777216 + pw (-150))%R.
Proof.
  intros Ha Hb Na Nb Hov.
  pose proof (pw_pos (-150)) as Heta.
  assert (Hzero : forall s, (lane_R a * lane_R b = 0)%R ->
            is_number (encode (S754_zero s)) = true /\
            (Rabs (lane_R (encode (S754_zero s)) - lane_R a * lane_R b)
             <= Rabs (lane_R a * lane_R b) / 16777216 + pw (-150))%R).
  { intros s H0. destruct (SF_number_encode (S754_zero s) eq_refl eq_refl) as [H1 H2].
    split; [exact H1|]. rewrite H2, H0. cbn [SFR].
    replace (0 - 0)%R with 0%R by ring. rewrite Rabs_R0. lra. }
  unfold fmul.
  destruct (lane_R_number_cases a Ha Na) as [(Va & sa & Da)|(sa & ma & ea & Da & Ba & Va)];
  destruct (lane_R_number_cases b Hb Nb) as [(Vb & sb & Db)|(sb & mb & eb & Db & Bb & Vb)];
  rewrite Da, Db; cbn [SFmul].
  - apply Hzero. rewrite Va. ring.
  - apply Hzero. rewrite Va. ring.
  - apply Hzero. rewrite Vb. ring.
  - assert (Ha' := Ba). assert (Hb' := Bb).
    apply bounded32_iff in Ha'. apply bounded32_iff in Hb'.
    assert (HM : Zpos (ma * mb) = Zpos ma * Zpos mb) by reflexivity.
    pose proof (digits2_pos_bounds (ma * mb)) as [Dlo Dhi].
    pose proof (digits_value (ma * mb)) as [Rlo Rhi].
    set (d := Zpos (digits2_pos (ma * mb))) in *.
    assert (Hprod : (lane_R a * lane_R b
                     = (if xorb sa sb then -1 else 1)
                       * (IZR (Zpos (ma * mb)) * pw (ea + eb)))%R).
    { rewrite Va, Vb, HM, mult_IZR, pw_add. destruct sa, sb; cbn [xorb]; ring. }
    assert (Hpos : (0 < IZR (Zpos (ma * mb)) * pw (ea + eb))%R).
    { apply Rmult_lt_0_compat; [apply IZR_lt; lia | apply pw_pos]. }
    assert (Habs : (Rabs (lane_R a * lane_R b)
                    = IZR (Zpos (ma * mb)) * pw (ea + eb))%R).
    { rewrite Hprod, Rabs_mult, (Rabs_pos_eq (_ * _)) by lra.
      destruct (xorb sa sb); [rewrite Rabs_left | rewrite Rabs_pos_eq]; lra. }
    destruct (bra_model (xorb sa sb) (ma * mb) (ea + eb))
      as (Hv & Hn & ar & H1 & H2 & H3 & _).
    + (* no left shift is needed *)
      fold d. rewrite fexp32.
      destruct (Z.le_gt_cases (ea + eb) (-149)) as [|Hgt]; [lia|].
      assert (24 <= d); [|lia].
      destruct (Z.le_gt_cases 24 d) as [|Hd]; [assumption|exfalso].
      assert (2 ^ d <= 2 ^ 23) by (apply Z.pow_le_mono_r; lia).
      change (2 ^ 23) with 8388608 in *.
      rewrite HM in Dhi. nia.
    + fold d. rewrite Habs in Hov.
      assert (pw (d - 1 + (ea + eb)) < pw 127)%R.
      { rewrite pw_add. pose proof (pw_pos (ea + eb)). nra. }
      apply pw_lt_inv in H. lia.
    + destruct (SF_number_encode _ Hv Hn) as [N1 N2].
      split; [exact N1|]. rewrite N2, H1, Habs, Hprod.
      replace ((if xorb sa sb then -1 else 1) * ar -
               (if xorb sa sb then -1 else 1) * (IZR (Zpos (ma * mb)) * pw (ea + eb)))%R
        with ((if xorb sa sb then -1 else 1) * (ar - IZR (Zpos (ma * mb)) * pw (ea + eb)))%R
        by ring.
      rewrite Rabs_mult.
      replace (Rabs (if xorb sa sb then -1 else 1)) with 1%R.
      * lra.
      * destruct (xorb sa sb); [rewrite Rabs_left | rewrite Rabs_pos_eq]; lra.
Qed.


Lemma eta_small : (pw (-150) <= 1 / 10 ^ 40)%R.
Proof.
  assert (E : (pw (-150) * pw 150 = 1)%R).
  { rewrite <- pw_add. reflexivity. }
  assert (L : (10 ^ 40 <= pw 150)%R).
  { rewrite pw_IZR by lia.
    rewrite pow_IZR. apply IZR_le. vm_compute. discriminate. }
  assert (P : (0 < 10 ^ 40)%R) by (apply pow_lt; lra).
  pose proof (pw_pos (-150)).
  apply (Rmult_le_reg_r (10 ^ 40)); [assumption|].
  unfold Rdiv. rewrite Rmult_1_l, Rinv_l by lra. nra.
Qed.

Lemma pw127_large : (10 ^ 30 <= pw 127)%R.
Proof.
  rewrite pw_IZR by lia.
  rewrite pow_IZR. apply IZR_le. vm_compute. discriminate.
Qed.

(** Magnitude bounds through a product and a sum. *)
Lemma fmul_mag (a b : lane) (A B C : R) :
  lane_ok a -> lane_ok b -> is_number a = true -> is_number b = true ->
  (Rabs (lane_R a) <= A)%R -> (Rabs (lane_R b) <= B)%R ->
  (A * B * (1 + / 16777216) + 1 / 10 ^ 40 <= C)%R -> (C <= 10 ^ 29)%R ->
  is_number (fmul a b) = true /\ (Rabs (lane_R (fmul a b)) <= C)%R.
Proof.
  intros Ha Hb Na Nb HA HB HC Hbig.
  pose proof eta_small. pose proof pw127_large.
  pose proof (Rabs_pos (lane_R a)). pose proof (Rabs_pos (lane_R b)).
  assert (Hp : (Rabs (lane_R a * lane_R b) <= A * B)%R).
  { rewrite Rabs_mult. apply Rmult_le_compat; assumption. }
  pose proof (Rabs_pos (lane_R a * lane_R b)).
  destruct (fmul_model a b Ha Hb Na Nb) as [N E].
  { assert (10 ^ 29 < 10 ^ 30)%R by lra. lra. }
  split; [exact N|].
  pose proof (Rabs_triang (lane_R (fmul a b) - lane_R a * lane_R b)
                          (lane_R a * lane_R b)) as T.
  replace (lane_R (fmul a b) - lane_R a * lane_R b + lane_R a * lane_R b)%R
    with (lane_R (fmul a b)) in T by ring.
  lra.
Qed.

Lemma fadd_mag (a b : lane) (A B C : R) :
  lane_ok a -> lane_ok b -> is_number a = true -> is_number b = true ->
  (Rabs (lane_R a) <= A)%R -> (Rabs (lane_R b) <= B)%R ->
  ((A + B) * (1 + / 16777216) <= C)%R -> (C <= 10 ^ 29)%R ->
  is_number (fadd a b) = true /\ (Rabs (lane_R (fadd a b)) <= C)%R.
Proof.
  intros Ha Hb Na Nb HA HB HC Hbig.
  pose proof pw127_large.
  pose proof (Rabs_pos (lane_R a)). pose proof (Rabs_pos (lane_R b)).
  pose proof (Rabs_triang (lane_R a) (lane_R b)) as Hp.
  pose proof (Rabs_pos (lane_R a + lane_R b)).
  destruct (fadd_model a b Ha Hb Na Nb) as [N E].
  { assert (10 ^ 29 < 10 ^ 30)%R by lra. lra. }
  split; [exact N|].
  pose proof (Rabs_triang (lane_R (fadd a b) - (lane_R a + lane_R b))
                          (lane_R a + lane_R b)) as T.
  replace (lane_R (fadd a b) - (lane_R a + lane_R b) + (lane_R a + lane_R b))%R
    with (lane_R (fadd a b)) in T by ring.
  lra.
Qed.

End RealModel.

(** ** Order and sign from the values *)

Section ValueOrder.
Import Bits Lane Kernels.
Local Open Scope lane_scope.

Lemma SFR_finite_neg (s : bool) (m k : positive) :
  SFR (S754_finite s m (Zneg k)) =
  (IZR (cond_Zopp s (Zpos m)) / IZR (2 ^ Zpos k))%R.
Proof.
  cbn [SFR]. unfold Rdiv. f_equal.
  rewrite IZR_pow2 by lia.
  change (Zneg k) with (- Zpos k). apply powerRZ_neg'.
Qed.

Lemma flt_R (a b : lane) :
  lane_ok a -> lane_ok b -> is_number a = true -> is_number b = true ->
  flt a b = true -> (lane_R a < lane_R b)%R.
Proof.
  intros Ha Hb Na Nb H. rewrite flt_value in H by assumption.
  apply Z.ltb_lt in H. apply IZR_lt in H.
  rewrite <- !lane_R_scaled in H by assumption.
  pose proof IZR_unit149_pos. nra.
Qed.

Lemma flt_false_R (a b : lane) :
  lane_ok a -> lane_ok b -> is_number a = true -> is_number b = true ->
  flt a b = false -> (lane_R b <= lane_R a)%R.
Proof.
  intros Ha Hb Na Nb H. rewrite flt_value in H by assumption.
  apply Z.ltb_ge in H. apply IZR_le in H.
  rewrite <- !lane_R_scaled in H by assumption.
  pose proof IZR_unit149_pos. nra.
Qed.

(** A pattern with a clear sign bit that is not a NaN and lies below the
    pattern of infinity is a number. *)
Lemma is_number_below (a : lane) :
  lane_ok a -> is_nan a = false -> magnitude a < 2139095040 ->
  is_number a = true.
Proof.
  intros Ha Hn Hm. unfold is_number.
  destruct (decode_shape a Ha Hn) as [(D & _)|[(D & M)|(p & e & D & _)]];
    rewrite D; try reflexivity. lia.
Qed.

(** The least positive value. *)
Lemma lane_R_positive (a : lane) :
  lane_ok a -> is_number a = true -> sign_bit a = false -> magnitude a <> 0 ->
  (pw (-149) <= lane_R a)%R.
Proof.
  intros Ha Na Hs Hm.
  pose proof (is_number_not_nan a Ha Na) as Hn.
  destruct (decode_shape a Ha Hn) as [(D & M)|[(D & M)|(p & e & D & _ & He & _)]].
  - contradiction.
  - unfold is_number in Na. rewrite D in Na. discriminate.
  - unfold lane_R. rewrite D, SFR_finite, Hs.
    pose proof (pw_le (-149) e ltac:(lia)).
    pose proof (pw_pos (-149)).
    assert (1 <= IZR (Zpos p))%R by (apply IZR_le; lia).
    nra.
Qed.

(** A number of positive value is a positive pattern. *)
Lemma positive_of_value (r : lane) :
  lane_ok r -> is_number r = true -> (0 < lane_R r)%R -> positive_lane r.
Proof.
  intros Hr Nr Hv.
  pose proof (is_number_not_nan r Hr Nr) as Hn.
  split; [exact Hn|].
  destruct (decode_shape r Hr Hn) as [(D & M)|[(D & M)|(p & e & D & Hm & _)]].
  - unfold lane_R in Hv. rewrite D in Hv. cbn [SFR] in Hv. lra.
  - unfold lane_R in Hv. rewrite D in Hv. cbn [SFR] in Hv. lra.
  - unfold lane_R in Hv. rewrite D, SFR_finite in Hv.
    pose proof (pw_pos e).
    assert (0 < IZR (Zpos p))%R by (apply IZR_lt; lia).
    destruct (sign_bit r) eqn:Hs; [nra|].
    destruct (lane_sign_cases r Hr) as [(_ & _ & K)|(K & _)]; [lia|congruence].
Qed.

End ValueOrder.

(** The value of a literal lane, as a fraction. *)
Ltac lane_value c :=
  let d := eval vm_compute in (Bits.decode c) in
  lazymatch d with
  | S754_finite ?s ?m (Zneg ?k) =>
      let n := eval vm_compute in (cond_Zopp s (Zpos m)) in
      let q := eval vm_compute in (2 ^ Zpos k) in
      let H := fresh "CV" in
      assert (H : lane_R c = (IZR n / IZR q)%R)
        by (unfold lane_R;
            change (Bits.decode c) with (S754_finite s m (Zneg k));
            exact (SFR_finite_neg s m k));
      let N := fresh "CN" in
      assert (N : lane_ok c /\ is_number c = true)
        by (split; [vm_compute; split; [discriminate | reflexivity]
                   | vm_compute; reflexivity])
  end.

(** ** The small branch of the hyperbolic tangent *)

Section TanhSmall.
Import Bits Lane Kernels.
Local Open Scope lane_scope.

Lemma Rabs_bound (x b : R) : (Rabs x <= b)%R -> (- b <= x <= b)%R.
Proof. unfold Rabs. destruct (Rcase_abs x); lra. Qed.

Lemma tanh_small_factor_bound (sq : lane) :
  lane_ok sq -> is_number sq = true -> (Rabs (lane_R sq) <= 391 / 1000)%R ->
  is_number (tanh_small_factor sq) = true /\
  (Rabs (lane_R (tanh_small_factor sq)) <= 1 / 4)%R.
Proof.
  intros Hq Nq Bq. unfold tanh_small_factor. cbv zeta.
  lane_value tanh_f1. lane_value tanh_f2. lane_value tanh_f3.
  lane_value tanh_f4. lane_value tanh_f5.
  assert (T : (10 ^ 29 = 100000000000000000000000000000)%R) by (simpl; lra).
  assert (T' : (10 ^ 40 = 10000000000000000000000000000000000000000)%R)
    by (simpl; lra).
  destruct (fmul_mag tanh_f1 sq (58 / 10000) (391 / 1000) (23 / 10000))
    as [N1 B1]; try tauto; try lra.
  { rewrite CV. apply Rabs_le. lra. }
  destruct (fadd_mag (tanh_f1 *! sq) tanh_f2 (23 / 10000) (207 / 10000)
              (231 / 10000)) as [N2 B2]; try tauto; try lra.
  { apply fmul_ok. } { rewrite CV0. apply Rabs_le. lra. }
  destruct (fmul_mag _ sq _ _ (91 / 10000) (fadd_ok _ _) Hq N2 Nq B2 Bq)
    as [N3 B3]; try lra.
  destruct (fadd_mag _ tanh_f3 _ (538 / 10000) (63 / 1000)
              (fmul_ok _ _) (proj1 CN1) N3 (proj2 CN1) B3) as [N4 B4]; try lra.
  { rewrite CV1. apply Rabs_le. lra. }
  destruct (fmul_mag _ sq _ _ (247 / 10000) (fadd_ok _ _) Hq N4 Nq B4 Bq)
    as [N5 B5]; try lra.
  destruct (fadd_mag _ tanh_f4 _ (1334 / 10000) (1582 / 10000)
              (fmul_ok _ _) (proj1 CN2) N5 (proj2 CN2) B5) as [N6 B6]; try lra.
  { rewrite CV2. apply Rabs_le. lra. }
  destruct (fmul_mag _ sq _ _ (619 / 10000) (fadd_ok _ _) Hq N6 Nq B6 Bq)
    as [N7 B7]; try lra.
  destruct (fadd_mag _ tanh_f5 _ (33334 / 100000) (3953 / 10000)
              (fmul_ok _ _) (proj1 CN3) N7 (proj2 CN3) B7) as [N8 B8]; try lra.
  { rewrite CV3. apply Rabs_le. lra. }
  destruct (fmul_mag _ sq _ _ (1 / 4) (fadd_ok _ _) Hq N8 Nq B8 Bq)
    as [N9 B9]; try lra.
  split; assumption.
Qed.


Lemma sign_clear_magnitude (a : lane) :
  lane_ok a -> sign_bit a = false -> magnitude a = a.
Proof.
  intros Ha Hs.
  destruct (lane_sign_cases a Ha) as [(_ & H & _)|(H & _)]; congruence.
Qed.

(** Below a number, a sign-clear lane that is not a NaN is a number. *)
Lemma is_number_flt (a c : lane) :
  lane_ok a -> lane_ok c -> sign_bit a = false -> skey c <= 2139095040 ->
  flt a c = true -> is_number a = true.
Proof.
  intros Ha Hc Hs Hk H.
  apply flt_true_iff in H; [|assumption|assumption].
  destruct H as (Hn & _ & Hlt).
  apply is_number_below; [assumption|assumption|].
  destruct (lane_sign_cases a Ha) as [(_ & _ & K)|(K & _)]; [lia|congruence].
Qed.

(** The small branch of the hyperbolic tangent at a positive number. *)
(** [w * a + a] stays above zero when [|w| <= 1/4] and [a] is positive. *)
Lemma scaled_sum_positive (w a : lane) :
  lane_ok w -> lane_ok a -> is_number w = true -> is_number a = true ->
  (Rabs (lane_R w) <= 1 / 4)%R -> (pw (-149) <= lane_R a <= 1)%R ->
  positive_lane (w *! a +! a).
Proof.
  intros Hw Ha Nw Na Bw [Hlo Hup].
  pose proof (pw_pos (-149)) as Hu.
  pose proof (pw_half (-149)) as Hh. change (-149 - 1) with (-150) in Hh.
  pose proof pw127_large as Hbig.
  assert (T : (10 ^ 30 = 1000000000000000000000000000000)%R) by (simpl; lra).
  assert (Bwa : (Rabs (lane_R w * lane_R a) <= lane_R a / 4)%R).
  { rewrite Rabs_mult. rewrite (Rabs_pos_eq (lane_R a)) by lra.
    pose proof (Rabs_pos (lane_R w)). nra. }
  destruct (fmul_model w a Hw Ha Nw Na) as [Nt Et]; [lra|].
  assert (Ht : lane_ok (w *! a)) by apply fmul_ok.
  set (t := w *! a) in *. clearbody t.
  assert (Bt : (Rabs (lane_R t) <= 4 / 5 * lane_R a)%R).
  { pose proof (Rabs_triang (lane_R t - lane_R w * lane_R a)
                            (lane_R w * lane_R a)) as Tr.
    replace (lane_R t - lane_R w * lane_R a + lane_R w * lane_R a)%R
      with (lane_R t) in Tr by ring.
    lra. }
  apply Rabs_bound in Bt.
  assert (Hsum : (Rabs (lane_R t + lane_R a) = lane_R t + lane_R a)%R)
    by (apply Rabs_pos_eq; lra).
  destruct (fadd_model t a Ht Ha Nt Na) as [Nr Er]; [rewrite Hsum; lra|].
  rewrite Hsum in Er. apply Rabs_bound in Er.
  apply positive_of_value; [apply fadd_ok | exact Nr | lra].
Qed.

(** The small branch of the hyperbolic tangent at a positive number. *)
Lemma tanh_small_positive (a : lane) :
  lane_ok a -> sign_bit a = false -> magnitude a <> 0 ->
  flt a tanh_limit_small = true ->
  positive_lane (tanh_small_factor (a *! a) *! a +! a).
Proof.
  intros Ha Hs Hm Hlt.
  lane_value tanh_limit_small. destruct CN as [Hl Nl].
  assert (Na : is_number a = true).
  { apply (is_number_flt a tanh_limit_small); try assumption.
    vm_compute. discriminate. }
  pose proof (flt_R a _ Ha Hl Na Nl Hlt) as Hup. rewrite CV in Hup.
  pose proof (lane_R_positive a Ha Na Hs Hm) as Hlo.
  pose proof (pw_pos (-149)) as Hu.
  assert (Ba : (Rabs (lane_R a) <= 625 / 1000)%R) by (apply Rabs_le; lra).
  assert (T : (10 ^ 29 = 100000000000000000000000000000)%R) by (simpl; lra).
  assert (T' : (10 ^ 40 = 10000000000000000000000000000000000000000)%R)
    by (simpl; lra).
  destruct (fmul_mag a a _ _ (391 / 1000) Ha Ha Na Na Ba Ba) as [Nq Bq];
    try lra.
  destruct (tanh_small_factor_bound (a *! a) (fmul_ok _ _) Nq Bq) as [Nw Bw].
  apply scaled_sum_positive; try assumption.
  - unfold tanh_small_factor. apply fmul_ok.
  - lra.
Qed.

End TanhSmall.

(** ** Division of two by a number *)

Section Division.
Import Bits Lane Kernels.
Local Open Scope lane_scope.

(** Rounding a 24-bit quotient with the location of its remainder: the
    result is a float no larger than the next integer up. *)
Lemma binary_round_aux_quotient (s : bool) (q : positive) (e : Z) (l : location) :
  8388608 <= Zpos q <= 16777216 -> -149 <= e <= 103 ->
  exists (m : positive) (e2 : Z),
    binary_round_aux prec32 emax32 s (Zpos q) e l = S754_finite s m e2 /\
    bounded prec32 emax32 m e2 = true /\
    (IZR (Zpos m) * pw e2 <= IZR (Zpos q + 1) * pw e)%R.
Proof.
  intros Hq He.
  pose proof (pw_pos e) as Hp. pose proof (pw_succ e) as Hs.
  assert (Hle : (e + 1 <=? emax32 - prec32) = true) by (apply Z.leb_le; unfold emax32, prec32; lia).
  assert (Hle0 : (e <=? emax32 - prec32) = true) by (apply Z.leb_le; unfold emax32, prec32; lia).
  destruct (Z.eq_dec (Zpos q) 16777216) as [Htop|Htop].
  - injection Htop as ->.
    exists 8388608%positive, (e + 1). split; [|split].
    + unfold binary_round_aux, shr_fexp.
      change (Zdigits2 16777216) with 25. rewrite fexp32.
      replace (Z.max (25 + e - 24) (-149) - e) with 1 by lia.
      destruct l as [|[]]; cbn [shr shr_record_of_loc iter_pos shr_1 orb shr_m
                                loc_of_shr_record round_nearest_even];
        change (Zdigits2 8388608) with 24; rewrite fexp32;
        replace (Z.max (24 + (e + 1) - 24) (-149) - (e + 1)) with 0 by lia;
        cbn [shr shr_record_of_loc shr_m]; rewrite Hle; reflexivity.
    + apply bounded32_iff. lia.
    + rewrite Hs. change (IZR (16777216 + 1)) with 16777217%R.
      change (IZR 8388608) with 8388608%R. nra.
  - assert (Hd : Zpos (digits2_pos q) = 24)
      by (apply digits2_pos_unique; change (2 ^ (24 - 1)) with 8388608;
          change (2 ^ 24) with 16777216; lia).
    assert (Hr : exists q' : positive,
               round_nearest_even (Zpos q) l = Zpos q' /\
               Zpos q <= Zpos q' <= Zpos q + 1).
    { destruct l as [|[]]; cbn [round_nearest_even].
      - exists q. lia.
      - destruct (Z.even (Zpos q)); [exists q | exists (q + 1)%positive]; lia.
      - exists q. lia.
      - exists (q + 1)%positive. lia. }
    destruct Hr as (q' & Hr & Hq').
    assert (Hv : (IZR (Zpos q') <= IZR (Zpos q + 1))%R) by (apply IZR_le; lia).
    unfold binary_round_aux. unfold shr_fexp at 1.
    change (Zdigits2 (Zpos q)) with (Zpos (digits2_pos q)).
    rewrite Hd, fexp32.
    replace (Z.max (24 + e - 24) (-149) - e) with 0 by lia.
    cbn [shr].
    replace (shr_m (shr_record_of_loc (Zpos q) l)) with (Zpos q)
      by (destruct l as [|[]]; reflexivity).
    replace (loc_of_shr_record (shr_record_of_loc (Zpos q) l)) with l
      by (destruct l as [|[]]; reflexivity).
    rewrite Hr. unfold shr_fexp.
    destruct (Z.eq_dec (Zpos q') 16777216) as [Ht|Ht].
    + injection Ht as ->.
      exists 8388608%positive, (e + 1). split; [|split].
      * change (Zdigits2 16777216) with 25. rewrite fexp32.
        replace (Z.max (25 + e - 24) (-149) - e) with 1 by lia.
        cbn [shr shr_record_of_loc iter_pos shr_1 orb shr_m].
        rewrite Hle. reflexivity.
      * apply bounded32_iff. lia.
      * rewrite Hs. change (IZR 16777216) with 16777216%R in Hv.
        change (IZR 8388608) with 8388608%R. nra.
    + assert (Hd' : Zpos (digits2_pos q') = 24)
        by (apply digits2_pos_unique; change (2 ^ (24 - 1)) with 8388608;
            change (2 ^ 24) with 16777216; lia).
      exists q', e. split; [|split].
      * change (Zdigits2 (Zpos q')) with (Zpos (digits2_pos q')).
        rewrite Hd', fexp32.
        replace (Z.max (24 + e - 24) (-149) - e) with 0 by lia.
        cbn [shr shr_record_of_loc shr_m]. rewrite Hle0. reflexivity.
      * apply bounded32_iff. lia.
      * nra.
Qed.

(** Two over a number of at least 2.9 is a number between 0 and 3/4. *)
Lemma fdiv_two_bound (y : lane) :
  lane_ok y -> is_number y = true ->
  (29 / 10 <= lane_R y <= pw 67)%R ->
  is_number (tanh_two /! y) = true /\
  (0 <= lane_R (tanh_two /! y) <= 3 / 4)%R.
Proof.
  intros Hy Ny [Hlo Hhi].
  destruct (lane_R_number_cases y Hy Ny) as [(Hz & _)|(s & m & e & D & Hb & Hv)];
    [lra|].
  apply bounded32_iff in Hb. destruct Hb as (He & Hm & Hn).
  pose proof (pw_pos e) as Hp.
  assert (Hm1 : (1 <= IZR (Zpos m))%R) by (apply IZR_le; lia).
  assert (Hm2 : (IZR (Zpos m) < 16777216)%R) by (apply IZR_lt; lia).
  destruct s; [nra|]. rewrite Rmult_1_l in Hv. rewrite Hv in Hlo, Hhi.
  assert (He1 : -22 <= e).
  { destruct (Z.le_gt_cases (-22) e) as [|Hc]; [assumption|exfalso].
    pose proof (pw_le e (-23) ltac:(lia)) as H1.
    assert (H2 : (pw (-23) * 8388608 = 1)%R).
    { change 8388608%R with (IZR (2 ^ 23)). rewrite <- pw_IZR by lia.
      rewrite <- pw_add. reflexivity. }
    nra. }
  assert (Hm3 : 8388608 <= Zpos m) by lia.
  assert (Hm4 : (8388608 <= IZR (Zpos m))%R) by (apply IZR_le; lia).
  assert (He2 : e <= 44).
  { destruct (Z.le_gt_cases e 44) as [|Hc]; [assumption|exfalso].
    pose proof (pw_le 45 e ltac:(lia)) as H1.
    assert (H2 : (pw 67 = pw 45 * 4194304)%R).
    { change 4194304%R with (IZR (2 ^ 22)). rewrite <- pw_IZR by lia.
      rewrite <- pw_add. reflexivity. }
    pose proof (pw_pos 45). nra. }
  assert (Hd : Zpos (digits2_pos m) = 24)
    by (apply digits2_pos_unique; change (2 ^ (24 - 1)) with 8388608;
        change (2 ^ 24) with 16777216; lia).
  unfold fdiv.
  change (decode tanh_two) with (S754_finite false 8388608 (-22)).
  rewrite D. cbn [SFdiv xorb]. unfold SFdiv_core_binary.
  change (Zdigits2 8388608) with 24.
  change (Zdigits2 (Zpos m)) with (Zpos (digits2_pos m)).
  rewrite Hd, fexp32.
  replace (Z.min (Z.max (24 + -22 - (24 + e) - 24) (-149)) (-22 - e))
    with (-46 - e) by lia.
  replace (-22 - e - (-46 - e)) with 24 by lia.
  change (Z.shiftl 8388608 24) with 140737488355328.
  pose proof (Z_div_mod 140737488355328 (Zpos m) ltac:(lia)) as Hdiv.
  destruct (Z.div_eucl 140737488355328 (Zpos m)) as [q r].
  destruct Hdiv as [Hq Hr].
  assert (Hq1 : 8388608 <= q <= 16777216) by nia.
  destruct q as [|q|q]; try lia.
  destruct (binary_round_aux_quotient false q (-46 - e)
              (new_location (Zpos m) r) Hq1 ltac:(lia))
    as (m2 & e2 & -> & Hb2 & Hv2).
  destruct (SF_number_encode (S754_finite false m2 e2)) as [Nr Vr];
    [exact Hb2 | reflexivity |].
  split; [exact Nr|]. rewrite Vr, SFR_finite, Rmult_1_l.
  pose proof (pw_pos e2) as Hp2.
  assert (Hm5 : (0 < IZR (Zpos m2))%R) by (apply IZR_lt; lia).
  split; [nra|].
  apply (Rle_trans _ _ _ Hv2).
  pose proof (pw_pos (-46 - e)) as Hp3.
  assert (HPQ : (pw e * pw (-46 - e) * 70368744177664 = 1)%R).
  { change 70368744177664%R with (IZR (2 ^ 46)). rewrite <- pw_IZR by lia.
    rewrite <- !pw_add. replace (e + (-46 - e) + 46) with 0 by lia.
    reflexivity. }
  assert (Hqm : (IZR (Zpos q + 1) * IZR (Zpos m) <= 140737505132544)%R).
  { rewrite <- mult_IZR. apply IZR_le. nia. }
  set (Q := pw (-46 - e)) in *. set (P := pw e) in *.
  set (rm := IZR (Zpos m)) in *. set (rq := IZR (Zpos q + 1)) in *.
  apply (Rmult_le_reg_r (rm * P)); [nra|].
  replace (rq * Q * (rm * P))%R with (rq * rm * (P * Q))%R by ring.
  assert (HPQ' : (P * Q = / 70368744177664)%R).
  { apply (Rmult_eq_reg_r 70368744177664); [|lra].
    rewrite Rinv_l by lra. exact HPQ. }
  rewrite HPQ'. lra.
Qed.

End Division.

(** ** Pieces of the exponential *)

Section ExpPieces.
Import Bits Lane Kernels.
Local Open Scope lane_scope.

Lemma flt_of_R (a b : lane) :
  lane_ok a -> lane_ok b -> is_number a = true -> is_number b = true ->
  (lane_R a < lane_R b)%R -> flt a b = true.
Proof.
  intros Ha Hb Na Nb H. rewrite flt_value by assumption.
  apply Z.ltb_lt. apply lt_IZR.
  rewrite <- !lane_R_scaled by assumption.
  pose proof IZR_unit149_pos. nra.
Qed.

(** Truncation of a lane that holds a small natural number. *)
Lemma truncate_to_int_is (z : lane) (n : Z) :
  lane_is z n -> 0 <= n < 2147483648 -> truncate_to_int z = n.
Proof.
  intros (Hz & Nz & Vz) Hn.
  pose proof unit149_pos as Hu.
  unfold truncate_to_int.
  destruct (is_number_cases z Nz) as [(s & D)|(s & m & e & D)]; rewrite D in *.
  - cbn [SFZ] in Vz. nia.
  - pose proof (is_number_finite_bounded z s m e Hz D) as Hb.
    apply bounded32_iff in Hb. destruct Hb as (He & _).
    cbn [SFZ] in Vz. unfold unit149 in *.
    pose proof (pow2_pos (e + 149) ltac:(lia)) as Hp.
    destruct s; cbn [cond_Zopp] in Vz; [nia|].
    assert (Hq : match e with
                 | 0 => Zpos m
                 | Zpos _ => Z.shiftl (Zpos m) e
                 | Zneg _ => Z.shiftr (Zpos m) (- e)
                 end = n).
    { destruct e as [|k|k].
      - cbn [Z.add] in Vz. nia.
      - rewrite Z.shiftl_mul_pow2 by lia.
        rewrite Z.pow_add_r in Vz by lia. nia.
      - rewrite Z.shiftr_div_pow2 by lia.
        change (- Zneg k) with (Zpos k).
        assert (E : 2 ^ 149 = 2 ^ (Zneg k + 149) * 2 ^ Zpos k).
        { rewrite <- Z.pow_add_r by lia. f_equal. lia. }
        rewrite E in Vz.
        assert (Hm : Zpos m = n * 2 ^ Zpos k) by nia.
        rewrite Hm. apply Z.div_mul.
        pose proof (pow2_pos (Zpos k) ltac:(lia)). lia. }
    rewrite Hq.
    destruct (Z.ltb_spec n 2147483648); [reflexivity|lia].
Qed.

(** [ldexp_float] of a number between 1/2 and 4 by a small count scales
    the value by the power of two. *)
Lemma ldexp_float_value (p : lane) (n : Z) :
  lane_ok p -> is_number p = true -> (1 / 2 <= lane_R p < 4)%R ->
  0 <= n <= 100 ->
  lane_ok (ldexp_float p n) /\ is_number (ldexp_float p n) = true /\
  lane_R (ldexp_float p n) = (lane_R p * pw n)%R.
Proof.
  intros Hp Np [Hlo Hhi] Hn.
  assert (Hpos : positive_lane p) by (apply positive_of_value; [..|lra]; assumption).
  destruct (positive_lane_sign p Hp Hpos) as (Hs & Hm0 & _).
  pose proof (is_number_not_nan p Hp Np) as Hnan.
  destruct (decode_shape p Hp Hnan)
    as [(D & M)|[(D & M)|(m & e & D & Hm & He & Hm1 & Hm2 & Hmag)]].
  - contradiction.
  - unfold is_number in Np. rewrite D in Np. discriminate.
  - rewrite Hs in D. unfold lane_R in Hlo, Hhi |- *.
    rewrite D, SFR_finite, Rmult_1_l in Hlo, Hhi.
    rewrite D, SFR_finite, Rmult_1_l.
    pose proof (pw_pos e) as Hpe.
    assert (Hr1 : (1 <= IZR (Zpos m) < 16777216)%R)
      by (split; [apply IZR_le | apply IZR_lt]; lia).
    assert (He1 : -24 <= e).
    { destruct (Z.le_gt_cases (-24) e) as [|Hc]; [assumption|exfalso].
      pose proof (pw_le e (-25) ltac:(lia)) as H1.
      assert (H2 : (pw (-25) * 33554432 = 1)%R).
      { change 33554432%R with (IZR (2 ^ 25)). rewrite <- pw_IZR by lia.
        rewrite <- pw_add. reflexivity. }
      nra. }
    assert (Hm3 : 8388608 <= Zpos m) by lia.
    assert (Hr2 : (8388608 <= IZR (Zpos m))%R) by (apply IZR_le; lia).
    assert (He2 : e <= -22).
    { destruct (Z.le_gt_cases e (-22)) as [|Hc]; [assumption|exfalso].
      pose proof (pw_le (-21) e ltac:(lia)) as H1.
      assert (H2 : (pw (-21) * 2097152 = 1)%R).
      { change 2097152%R with (IZR (2 ^ 21)). rewrite <- pw_IZR by lia.
        rewrite <- pw_add. reflexivity. }
      nra. }
    assert (Hpat : p = sign_word false + (e + 150) * 8388608 + (Zpos m - 8388608)).
    { rewrite (sign_clear_magnitude p Hp Hs) in Hmag. unfold sign_word. lia. }
    assert (Hres : ldexp_float p n = pack false (n + (e + 150)) (Zpos m - 8388608)).
    { rewrite pack_fields by lia.
      rewrite <- (wrap_id n) at 1 by (unfold lane_ok, lane_mod; lia).
      rewrite Hpat at 1. apply ldexp_float_any; lia. }
    rewrite Hres.
    assert (Hdec : decode (pack false (n + (e + 150)) (Zpos m - 8388608)) =
                   S754_finite false m (e + n)).
    { rewrite decode_pack by lia.
      destruct (Z.eqb_spec (n + (e + 150)) 0); [lia|].
      destruct (Z.eqb_spec (n + (e + 150)) 255); [lia|].
      replace (Zpos m - 8388608 + 8388608) with (Zpos m) by lia.
      f_equal. lia. }
    split; [|split].
    + rewrite pack_fields by lia. unfold lane_ok, lane_mod, sign_word. lia.
    + unfold is_number. rewrite Hdec. reflexivity.
    + rewrite Hdec, SFR_finite, pw_add. lra.
Qed.

End ExpPieces.

(** ** Error intervals *)

Section Near.
Import Bits Lane Kernels.
Local Open Scope lane_scope.

(** The models of the arithmetic with the error as an interval. *)
Lemma fmul_near (a b : lane) (B : R) :
  lane_ok a -> lane_ok b -> is_number a = true -> is_number b = true ->
  (Rabs (lane_R a * lane_R b) <= B)%R -> (B <= 10 ^ 29)%R ->
  is_number (a *! b) = true /\
  (- (B / 16777216 + 1 / 10 ^ 40) <= lane_R (a *! b) - lane_R a * lane_R b
   <= B / 16777216 + 1 / 10 ^ 40)%R.
Proof.
  intros Ha Hb Na Nb HB Hbig.
  pose proof eta_small. pose proof pw127_large.
  destruct (fmul_model a b Ha Hb Na Nb) as [N E].
  { assert (10 ^ 29 < 10 ^ 30)%R by lra. lra. }
  split; [exact N|]. apply Rabs_bound. lra.
Qed.

Lemma fadd_near (a b : lane) (B : R) :
  lane_ok a -> lane_ok b -> is_number a = true -> is_number b = true ->
  (Rabs (lane_R a + lane_R b) <= B)%R -> (B <= 10 ^ 29)%R ->
  is_number (a +! b) = true /\
  (- (B / 16777216) <= lane_R (a +! b) - (lane_R a + lane_R b)
   <= B / 16777216)%R.
Proof.
  intros Ha Hb Na Nb HB Hbig.
  pose proof pw127_large.
  destruct (fadd_model a b Ha Hb Na Nb) as [N E].
  { assert (10 ^ 29 < 10 ^ 30)%R by lra. lra. }
  split; [exact N|]. apply Rabs_bound. lra.
Qed.

Lemma fsub_near (a b : lane) (B : R) :
  lane_ok a -> lane_ok b -> is_number a = true -> is_number b = true ->
  (Rabs (lane_R a - lane_R b) <= B)%R -> (B <= 10 ^ 29)%R ->
  is_number (a -! b) = true /\
  (- (B / 16777216) <= lane_R (a -! b) - (lane_R a - lane_R b)
   <= B / 16777216)%R.
Proof.
  intros Ha Hb Na Nb HB Hbig.
  pose proof pw127_large.
  destruct (fsub_model a b Ha Hb Na Nb) as [N E].
  { assert (10 ^ 29 < 10 ^ 30)%R by lra. lra. }
  split; [exact N|]. apply Rabs_bound. lra.
Qed.

End Near.

(** ** The exponential inside the hyperbolic tangent *)

Section ExpValue.
Import Bits Lane Kernels.
Local Open Scope lane_scope.

(** The reduced argument of the exponential is small. *)
Lemma exp_reduce_bound (x z : lane) (n : Z) :
  lane_ok x -> is_number x = true -> lane_is z n ->
  (6 / 5 <= lane_R x <= 44001 / 1000)%R -> 2 <= n <= 64 ->
  (Rabs (IZR n - lane_R exp_log2e * lane_R x) <= 501 / 1000)%R ->
  is_number ((x -! z *! exp_c1) -! z *! exp_c2) = true /\
  (Rabs (lane_R ((x -! z *! exp_c1) -! z *! exp_c2)) <= 36 / 100)%R.
Proof.
  intros Hx Nx Hz Vx Hn Hnear.
  pose proof (lane_is_R z n Hz) as Vz. destruct Hz as (Hz & Nz & _).
  assert (Vn : (2 <= IZR n <= 64)%R) by (split; apply IZR_le; lia).
  lane_value exp_log2e. lane_value exp_c1. lane_value exp_c2.
  rewrite CV in Hnear. apply Rabs_bound in Hnear.
  assert (T : (10 ^ 29 = 100000000000000000000000000000)%R) by (simpl; lra).
  assert (T' : (10 ^ 40 = 10000000000000000000000000000000000000000)%R)
    by (simpl; lra).
  destruct (fmul_near z exp_c1 45 Hz (proj1 CN0) Nz (proj2 CN0)) as [N1 E1].
  { rewrite Vz, CV0. apply Rabs_le. lra. } { lra. }
  rewrite Vz, CV0 in E1.
  pose proof (fmul_ok z exp_c1) as H1.
  generalize dependent (z *! exp_c1). intros m1 N1 E1 H1.
  destruct (fsub_near x m1 90 Hx H1 Nx N1) as [N2 E2].
  { apply Rabs_le. lra. } { lra. }
  pose proof (fsub_ok x m1) as H2.
  generalize dependent (x -! m1). intros s1 N2 E2 H2.
  destruct (fmul_near z exp_c2 1 Hz (proj1 CN1) Nz (proj2 CN1)) as [N3 E3].
  { rewrite Vz, CV1. apply Rabs_le. lra. } { lra. }
  rewrite Vz, CV1 in E3.
  pose proof (fmul_ok z exp_c2) as H3.
  generalize dependent (z *! exp_c2). intros m2 N3 E3 H3.
  destruct (fsub_near s1 m2 90 H2 H3 N2 N3) as [N4 E4].
  { apply Rabs_le. lra. } { lra. }
  split; [exact N4|]. apply Rabs_le. lra.
Qed.

(** The polynomial of the exponential on a small argument. *)
Lemma exp_poly_bound (x : lane) :
  lane_ok x -> is_number x = true -> (Rabs (lane_R x) <= 36 / 100)%R ->
  is_number (one_f +!
      x *! (exp_p1 +!
      x *! (exp_p2 +!
      x *! (exp_p3 +!
      x *! (exp_p4 +!
      x *! (exp_p5 +!
      x *! exp_p6)))))) = true /\
  (1 / 2 <= lane_R (one_f +!
      x *! (exp_p1 +!
      x *! (exp_p2 +!
      x *! (exp_p3 +!
      x *! (exp_p4 +!
      x *! (exp_p5 +!
      x *! exp_p6)))))) <= 3 / 2)%R.
Proof.
  intros Hx Nx Bx.
  lane_value exp_p1. lane_value exp_p2. lane_value exp_p3.
  lane_value exp_p4. lane_value exp_p5. lane_value exp_p6.
  assert (T : (10 ^ 29 = 100000000000000000000000000000)%R) by (simpl; lra).
  assert (T' : (10 ^ 40 = 10000000000000000000000000000000000000000)%R)
    by (simpl; lra).
  destruct (fmul_mag x exp_p6 _ (14 / 10000) (51 / 100000)
              Hx (proj1 CN4) Nx (proj2 CN4) Bx) as [N1 B1]; try lra.
  { rewrite CV4. apply Rabs_le. lra. }
  pose proof (fmul_ok x exp_p6) as H1.
  generalize dependent (x *! exp_p6). intros t1 N1 B1 H1.
  destruct (fadd_mag exp_p5 t1 (85 / 10000) (51 / 100000) (91 / 10000)
              (proj1 CN3) H1 (proj2 CN3) N1) as [N2 B2]; try lra.
  { rewrite CV3. apply Rabs_le. lra. }
  pose proof (fadd_ok exp_p5 t1) as H2.
  generalize dependent (exp_p5 +! t1). intros t2 N2 B2 H2.
  destruct (fmul_mag x t2 _ _ (33 / 10000) Hx H2 Nx N2 Bx B2) as [N3 B3];
    try lra.
  pose proof (fmul_ok x t2) as H3.
  generalize dependent (x *! t2). intros t3 N3 B3 H3.
  destruct (fadd_mag exp_p4 t3 (417 / 10000) (33 / 10000) (451 / 10000)
              (proj1 CN2) H3 (proj2 CN2) N3) as [N4 B4]; try lra.
  { rewrite CV2. apply Rabs_le. lra. }
  pose proof (fadd_ok exp_p4 t3) as H4.
  generalize dependent (exp_p4 +! t3). intros t4 N4 B4 H4.
  destruct (fmul_mag x t4 _ _ (163 / 10000) Hx H4 Nx N4 Bx B4) as [N5 B5];
    try lra.
  pose proof (fmul_ok x t4) as H5.
  generalize dependent (x *! t4). intros t5 N5 B5 H5.
  destruct (fadd_mag exp_p3 t5 (1667 / 10000) (163 / 10000) (1831 / 10000)
              (proj1 CN1) H5 (proj2 CN1) N5) as [N6 B6]; try lra.
  { rewrite CV1. apply Rabs_le. lra. }
  pose proof (fadd_ok exp_p3 t5) as H6.
  generalize dependent (exp_p3 +! t5). intros t6 N6 B6 H6.
  destruct (fmul_mag x t6 _ _ (66 / 1000) Hx H6 Nx N6 Bx B6) as [N7 B7];
    try lra.
  pose proof (fmul_ok x t6) as H7.
  generalize dependent (x *! t6). intros t7 N7 B7 H7.
  destruct (fadd_mag exp_p2 t7 (1 / 2) (66 / 1000) (5661 / 10000)
              (proj1 CN0) H7 (proj2 CN0) N7) as [N8 B8]; try lra.
  { rewrite CV0. apply Rabs_le. lra. }
  pose proof (fadd_ok exp_p2 t7) as H8.
  generalize dependent (exp_p2 +! t7). intros t8 N8 B8 H8.
  destruct (fmul_mag x t8 _ _ (2039 / 10000) Hx H8 Nx N8 Bx B8) as [N9 B9];
    try lra.
  pose proof (fmul_ok x t8) as H9.
  generalize dependent (x *! t8). intros t9 N9 B9 H9.
  destruct (fadd_mag exp_p1 t9 (10001 / 10000) (2039 / 10000) (1205 / 1000)
              (proj1 CN) H9 (proj2 CN) N9) as [N10 B10]; try lra.
  { rewrite CV. apply Rabs_le. lra. }
  pose proof (fadd_ok exp_p1 t9) as H10.
  generalize dependent (exp_p1 +! t9). intros t10 N10 B10 H10.
  destruct (fmul_mag x t10 _ _ (4339 / 10000) Hx H10 Nx N10 Bx B10)
    as [N11 B11]; try lra.
  pose proof (fmul_ok x t10) as H11.
  generalize dependent (x *! t10). intros t11 N11 B11 H11.
  apply Rabs_bound in B11.
  assert (V1 : lane_R one_f = 1%R) by (apply (lane_is_R _ 1); exact lane_is_one).
  assert (O1 : lane_ok one_f /\ is_number one_f = true)
    by (split; [lane_const | reflexivity]).
  destruct (fadd_near one_f t11 2 (proj1 O1) H11 (proj2 O1) N11) as [N12 E12].
  { rewrite V1. apply Rabs_le. lra. } { lra. }
  rewrite V1 in E12.
  split; [exact N12 | lra].
Qed.

End ExpValue.

(** ** The medium branch and the sign of the result *)

Section TanhMedium.
Import Bits Lane Kernels.
Local Open Scope lane_scope.

Lemma pw_2 : pw 2 = 4%R.
Proof. rewrite pw_IZR by lia. reflexivity. Qed.

(** The exponential kernel of the hyperbolic tangent on [1.2, 44]: a
    number between 2 and [2^66]. *)
Lemma vec_exp_tanh_float_value (x : lane) :
  lane_ok x -> is_number x = true -> (6 / 5 <= lane_R x <= 44001 / 1000)%R ->
  lane_ok (vec_exp_tanh_float x) /\
  is_number (vec_exp_tanh_float x) = true /\
  (2 <= lane_R (vec_exp_tanh_float x) <= pw 66)%R.
Proof.
  intros Hx Nx Vx.
  unfold vec_exp_tanh_float. cbv zeta. unfold round.
  lane_value exp_log2e.
  assert (T : (10 ^ 29 = 100000000000000000000000000000)%R) by (simpl; lra).
  assert (T' : (10 ^ 40 = 10000000000000000000000000000000000000000)%R)
    by (simpl; lra).
  destruct (fmul_near exp_log2e x 64 (proj1 CN) Hx (proj2 CN) Nx) as [Nt Et].
  { rewrite CV. apply Rabs_le. lra. } { lra. }
  pose proof (fmul_ok exp_log2e x) as Ht.
  assert (Hnear0 : forall n : Z,
             (Rabs (IZR n - lane_R (exp_log2e *! x)) <= 1 / 2)%R ->
             (Rabs (IZR n - lane_R exp_log2e * lane_R x) <= 501 / 1000)%R /\
             (1 < IZR n < 65)%R).
  { intros n Hn. apply Rabs_bound in Hn. rewrite CV in Et |- *.
    split; [apply Rabs_le|]; lra. }
  assert (Vt : (0 < lane_R (exp_log2e *! x) < 8388608)%R)
    by (rewrite CV in Et; lra).
  clear Et.
  generalize dependent (exp_log2e *! x). intros t Nt Ht Hnear0 Vt.
  assert (Hpos : positive_lane t) by (apply positive_of_value; [..|lra]; assumption).
  destruct (positive_lane_sign t Ht Hpos) as (Hs & _ & _).
  assert (Hlt : flt (vand t gen_abs_mask) two_to_23_ps = true).
  { rewrite abs_magnitude, (sign_clear_magnitude t Ht Hs).
    destruct lane_is_two23 as (H23 & N23 & _).
    apply flt_of_R; try assumption.
    rewrite (lane_is_R _ _ lane_is_two23). lra. }
  destruct (vec_round_float_R t Ht Hlt) as (n & Hz & Hn & _).
  destruct (Hnear0 n Hn) as (Hnear & Hn1 & Hn2).
  assert (Hn3 : 2 <= n <= 64).
  { apply lt_IZR in Hn1, Hn2. lia. }
  clear Hnear0 Hn Hlt.
  generalize dependent (vec_round_float t). intros z Hz.
  rewrite (truncate_to_int_is z n Hz) by lia.
  destruct (exp_reduce_bound x z n Hx Nx Hz Vx Hn3 Hnear) as [Nr Br].
  pose proof (fsub_ok (x -! z *! exp_c1) (z *! exp_c2)) as Hr.
  generalize dependent ((x -! z *! exp_c1) -! z *! exp_c2). intros r Nr Br Hr.
  destruct (exp_poly_bound r Hr Nr Br) as [Np Bp].
  match goal with |- context [ldexp_float ?p n] =>
    pose proof (fadd_ok one_f
      (r *! (exp_p1 +! r *! (exp_p2 +! r *! (exp_p3 +!
       r *! (exp_p4 +! r *! (exp_p5 +! r *! exp_p6))))))) as Hp;
    generalize dependent p
  end.
  intros p Np Bp Hp.
  destruct (ldexp_float_value p n Hp Np ltac:(lra) ltac:(lia))
    as (Hl & Nl & Vl).
  split; [exact Hl|]. split; [exact Nl|]. rewrite Vl.
  pose proof (pw_le 2 n ltac:(lia)) as P1. rewrite pw_2 in P1.
  pose proof (pw_le n 64 ltac:(lia)) as P2.
  assert (P3 : pw 66 = (pw 64 * 4)%R).
  { rewrite <- pw_2, <- pw_add. reflexivity. }
  pose proof (pw_pos n). nra.
Qed.

(** The medium branch at a number of [0.625, 22]. *)
Lemma tanh_medium_positive (a : lane) :
  lane_ok a -> is_number a = true -> (625 / 1000 <= lane_R a <= 22)%R ->
  positive_lane (tanh_medium a).
Proof.
  intros Ha Na Va. unfold tanh_medium. cbv zeta.
  assert (T : (10 ^ 29 = 100000000000000000000000000000)%R) by (simpl; lra).
  destruct (fadd_near a a 44 Ha Ha Na Na) as [N2 E2].
  { apply Rabs_le. lra. } { lra. }
  pose proof (fadd_ok a a) as H2.
  assert (V2 : (6 / 5 <= lane_R (a +! a) <= 44001 / 1000)%R) by lra.
  clear E2.
  generalize dependent (a +! a). intros a2 N2 H2 V2.
  destruct (vec_exp_tanh_float_value a2 H2 N2 V2) as (HE & NE & VE).
  generalize dependent (vec_exp_tanh_float a2). intros E HE NE VE.
  assert (V1 : lane_R gen_one = 1%R) by (apply (lane_is_R _ 1); exact lane_is_one).
  assert (O1 : lane_ok gen_one /\ is_number gen_one = true)
    by (split; [lane_const | reflexivity]).
  assert (P1 : (2 <= pw 66)%R).
  { pose proof (pw_le 1 66 ltac:(lia)) as H. 
    replace (pw 1) with 2%R in H by (rewrite pw_IZR by lia; reflexivity).
    exact H. }
  assert (P2 : pw 67 = (2 * pw 66)%R) by (apply (pw_succ 66)).
  assert (P3 : (pw 67 < pw 127)%R).
  { pose proof (pw_le (67 + 1) 127 ltac:(lia)) as H. rewrite pw_succ in H.
    pose proof (pw_pos 67). lra. }
  destruct (fadd_model E gen_one HE (proj1 O1) NE (proj2 O1)) as [Ny Ey].
  { rewrite V1, Rabs_pos_eq by lra. lra. }
  rewrite V1, (Rabs_pos_eq (lane_R E + 1)) in Ey by lra.
  apply Rabs_bound in Ey.
  pose proof (fadd_ok E gen_one) as Hy.
  assert (Vy : (29 / 10 <= lane_R (E +! gen_one) <= pw 67)%R) by lra.
  clear Ey.
  generalize dependent (E +! gen_one). intros y Ny Hy Vy.
  destruct (fdiv_two_bound y Hy Ny Vy) as [Nq Vq].
  pose proof (fdiv_ok tanh_two y) as Hq.
  generalize dependent (tanh_two /! y). intros q Nq Vq Hq.
  destruct (fsub_near gen_one q 1 (proj1 O1) Hq (proj2 O1) Nq) as [Nr Er].
  { rewrite V1. apply Rabs_le. lra. } { lra. }
  rewrite V1 in Er.
  apply positive_of_value; [apply fsub_ok | exact Nr | lra].
Qed.

(** The kernel gives a positive number at every positive pattern that is
    not a NaN. *)
Lemma vec_tanh_float_positive (a : lane) :
  lane_ok a -> sign_bit a = false -> is_nan a = false -> magnitude a <> 0 ->
  positive_lane (vec_tanh_float a).
Proof.
  intros Ha Hs Hn Hm.
  rewrite vec_tanh_float_branches by exact Ha. cbv zeta.
  rewrite (sign_clear_magnitude a Ha Hs).
  destruct (flt a tanh_limit_small) eqn:Hsmall.
  - apply tanh_small_positive; assumption.
  - rewrite sign_mask_and, Hs.
    replace (vor (if flt tanh_maxlogf_2 a then gen_one else tanh_medium a) 0)
      with (if flt tanh_maxlogf_2 a then gen_one else tanh_medium a)
      by (unfold vor; symmetry; apply Z.lor_0_r).
    destruct (flt tanh_maxlogf_2 a) eqn:Hbig.
    + split; vm_compute; reflexivity.
    + lane_value tanh_limit_small. lane_value tanh_maxlogf_2.
      assert (Na : is_number a = true).
      { apply is_number_below; try assumption.
        rewrite flt_skey in Hbig by tauto.
        rewrite Hn in Hbig. cbn [negb andb] in Hbig.
        replace (is_nan tanh_maxlogf_2) with false in Hbig by reflexivity.
        cbn [negb andb] in Hbig. apply Z.ltb_ge in Hbig.
        destruct (lane_sign_cases a Ha) as [(_ & _ & K)|(K & _)];
          [|congruence].
        rewrite K in Hbig.
        replace (skey tanh_maxlogf_2) with 1102053376 in Hbig
          by (vm_compute; reflexivity).
        lia. }
      apply tanh_medium_positive; try assumption.
      pose proof (flt_false_R a _ Ha (proj1 CN) Na (proj2 CN) Hsmall) as L1.
      pose proof (flt_false_R _ a (proj1 CN0) Ha (proj2 CN0) Na Hbig) as L2.
      rewrite CV in L1. rewrite CV0 in L2. lra.
Qed.

(** Negating a lane that is neither a NaN nor a zero negates the
    hyperbolic tangent. *)
Lemma vec_tanh_float_odd (x : lane) :
  lane_ok x -> is_nan x = false -> magnitude x <> 0 ->
  vec_tanh_float (fneg x) = fneg (vec_tanh_float x).
Proof.
  intros Hx Hn Hm. apply vec_tanh_float_fneg; [exact Hx|].
  apply vec_tanh_float_positive.
  - apply magnitude_ok.
  - apply sign_bit_magnitude.
  - rewrite is_nan_magnitude. exact Hn.
  - rewrite magnitude_idem. exact Hm.
Qed.

End TanhMedium.

(** ** Symmetry on vectors *)

Section VectorSymmetry.
Import Bits Lane Kernels.

Lemma vmap_vmap (f g : lane -> lane) (v : vec) :
  vmap f (vmap g v) = vmap (fun x => f (g x)) v.
Proof. unfold vmap. apply map_map. Qed.

Lemma vmap_ext_Forall (f g : lane -> lane) (P : lane -> Prop) (v : vec) :
  (forall x, P x -> f x = g x) -> Forall P v -> vmap f v = vmap g v.
Proof.
  intros H Hv. unfold vmap. induction Hv as [|x v Hx Hv IH]; cbn [map].
  - reflexivity.
  - rewrite (H x Hx), IH. reflexivity.
Qed.

(** C6, as the code has it.  For every vector, negating the input negates
    the sine and the arc tangent and leaves the cosine unchanged, bit for
    bit.  For the hyperbolic tangent the same holds on every lane that is
    neither a NaN nor a zero. *)
Theorem sign_symmetry (v : vec) :
  vmap vec_sin_float (vmap fneg v) = vmap fneg (vmap vec_sin_float v) /\
  vmap vec_cos_float (vmap fneg v) = vmap vec_cos_float v /\
  vmap vec_atan_float (vmap fneg v) = vmap fneg (vmap vec_atan_float v) /\
  (Forall (fun x => lane_ok x /\ is_nan x = false /\ magnitude x <> 0) v ->
   vmap vec_tanh_float (vmap fneg v) = vmap fneg (vmap vec_tanh_float v)).
Proof.
  rewrite !vmap_vmap. repeat split.
  - unfold vmap. apply map_ext. intros x. apply vec_sin_float_fneg.
  - unfold vmap. apply map_ext. intros x. apply vec_cos_float_fneg.
  - unfold vmap. apply map_ext. intros x. apply vec_atan_float_fneg.
  - apply vmap_ext_Forall. intros x (Hx & Hn & Hm).
    apply vec_tanh_float_odd; assumption.
Qed.

(** The vector [1.0; -2.0; 30.0; 0.1]: one lane for each branch of the
    hyperbolic tangent and one negative lane. *)
Lemma sign_symmetry_witness :
  Forall (fun x => lane_ok x /\ is_nan x = false /\ magnitude x <> 0)
    [1065353216; 3221225472; 1106247680; 1036831949] /\
  vmap vec_tanh_float
    (vmap fneg [1065353216; 3221225472; 1106247680; 1036831949]) =
  vmap fneg
    (vmap vec_tanh_float [1065353216; 3221225472; 1106247680; 1036831949]).
Proof.
  assert (H : Forall (fun x => lane_ok x /\ is_nan x = false /\ magnitude x <> 0)
                [1065353216; 3221225472; 1106247680; 1036831949]).
  { repeat (constructor;
      [split; [lane_const | split; [vm_compute; reflexivity
                                    | vm_compute; discriminate]]|]).
    constructor. }
  split; [exact H|].
  apply (sign_symmetry [1065353216; 3221225472; 1106247680; 1036831949]).
  exact H.
Defined.

End VectorSymmetry.

(** ** The sign kernel *)

Section SignKernel.
Import Bits Lane Kernels.
Local Open Scope lane_scope.

(** A lane compares equal to zero exactly when its magnitude bits are all
    clear; a NaN does not. *)
Lemma feq_zero (x : lane) :
  lane_ok x -> feq x gen_zero = (magnitude x =? 0).
Proof.
  intros Hx. unfold feq.
  change (decode gen_zero) with (S754_zero false).
  destruct (is_nan x) eqn:Hn.
  - rewrite (is_nan_decode x Hx Hn).
    unfold is_nan in Hn. apply Z.ltb_lt in Hn.
    destruct (Z.eqb_spec (magnitude x) 0); [lia | reflexivity].
  - destruct (decode_shape x Hx Hn)
      as [(D & M)|[(D & M)|(p & e & D & M & _)]]; rewrite D.
    + rewrite M. destruct (sign_bit x); reflexivity.
    + rewrite M. destruct (sign_bit x); reflexivity.
    + destruct (Z.eqb_spec (magnitude x) 0); [lia|].
      destruct (sign_bit x); reflexivity.
Qed.

(** The value of [vec_sign], case by case. *)
Lemma vec_sign_shape (x : lane) :
  lane_ok x ->
  vec_sign x =
    if magnitude x =? 0 then x
    else if sign_bit x then fneg gen_one else gen_one.
Proof.
  intros Hx. unfold vec_sign. cbv zeta. unfold mask_neq.
  rewrite (feq_zero x Hx), sign_mask_and.
  destruct (Z.eqb_spec (magnitude x) 0) as [Hm|Hm]; cbn [negb mask_of].
  - destruct (lane_sign_cases x Hx) as [(Hs & Hx' & _)|(Hs & Hx' & _)];
      rewrite Hs, Hx', Hm; reflexivity.
  - destruct (sign_bit x); reflexivity.
Qed.

(** X1.  [vec_sign] keeps a zero as it is, sign included, and maps every
    other lane, a NaN too, to [1.0] with the sign bit of the lane.  It
    commutes with negation, and applying it twice is the same as applying
    it once, bit for bit. *)
Theorem vec_sign_values (x : lane) :
  lane_ok x ->
  vec_sign x =
    (if magnitude x =? 0 then x
     else if sign_bit x then fneg gen_one else gen_one) /\
  vec_sign (fneg x) = fneg (vec_sign x) /\
  vec_sign (vec_sign x) = vec_sign x.
Proof.
  intros Hx. split; [apply vec_sign_shape; exact Hx|]. split.
  - rewrite (vec_sign_shape (fneg x)) by (apply fneg_ok; exact Hx).
    rewrite (vec_sign_shape x Hx), magnitude_fneg, sign_bit_fneg.
    destruct (magnitude x =? 0); [reflexivity|].
    destruct (sign_bit x); reflexivity.
  - rewrite (vec_sign_shape x Hx).
    destruct (Z.eqb_spec (magnitude x) 0) as [Hm|Hm].
    + rewrite (vec_sign_shape x Hx).
      destruct (Z.eqb_spec (magnitude x) 0); [reflexivity | contradiction].
    + destruct (sign_bit x); reflexivity.
Qed.

(** [sign(-0) = -0], [sign(-2) = -1], and the sign of the quiet NaN is
    [1]. *)
Lemma vec_sign_values_witness :
  vec_sign 2147483648 = 2147483648 /\
  vec_sign 3221225472 = fneg gen_one /\
  vec_sign 2143289344 = gen_one.
Proof.
  split; [|split].
  - rewrite (proj1 (vec_sign_values 2147483648 ltac:(lane_const))).
    reflexivity.
  - rewrite (proj1 (vec_sign_values 3221225472 ltac:(lane_const))).
    reflexivity.
  - rewrite (proj1 (vec_sign_values 2143289344 ltac:(lane_const))).
    reflexivity.
Defined.

End SignKernel.

(** ** Kernels that commute with negation *)

Section OddKernels.
Import Bits Lane Kernels.
Local Open Scope lane_scope.

Local Ltac bitwise :=
  apply Z.bits_inj'; intros i Hi;
  repeat first [ rewrite Z.land_spec | rewrite Z.lor_spec
               | rewrite Z.lxor_spec | rewrite Z.ldiff_spec ].

Lemma sign_strip_fneg (x : lane) :
  vxor (vand (fneg x) gen_sign_mask) (fneg x) = vxor (vand x gen_sign_mask) x.
Proof.
  unfold vxor, vand, fneg. bitwise.
  destruct (Z.testbit x i), (Z.testbit gen_sign_mask i); reflexivity.
Qed.

(** X2.  Rounding commutes with negation on every lane, bit for bit. *)
Theorem vec_round_float_fneg (x : lane) :
  vec_round_float (fneg x) = fneg (vec_round_float x).
Proof.
  unfold vec_round_float. cbv zeta.
  rewrite sign_strip_fneg, sign_fneg.
  unfold vxor, fneg. bitwise.
  repeat match goal with |- context [Z.testbit ?a i] =>
    let b := fresh "b" in generalize (Z.testbit a i); intro b end.
  repeat match goal with b : bool |- _ => destruct b end; reflexivity.
Qed.

(** X3.  The tangent commutes with negation on every lane, bit for bit. *)
Theorem vec_tan_float_fneg (x : lane) :
  vec_tan_float (fneg x) = fneg (vec_tan_float x).
Proof.
  unfold vec_tan_float, tan_recip, tan_approx, tan_poly_mask. cbv zeta.
  rewrite abs_fneg, sign_fneg. apply vxor_fneg_r.
Qed.

(** X4.  On every lane that is not above one in magnitude the arc sine
    commutes with negation, bit for bit. *)
Theorem vec_asin_float_fneg (x : lane) :
  flt gen_one (vand x gen_abs_mask) = false ->
  vec_asin_float (fneg x) = fneg (vec_asin_float x).
Proof.
  intros H.
  assert (Hm : mask_gt (vand x gen_abs_mask) gen_one = mask_of false)
    by (unfold mask_gt; rewrite H; reflexivity).
  unfold vec_asin_float. cbv zeta.
  rewrite abs_fneg, sign_fneg, Hm, !select_false. apply vxor_fneg_r.
Qed.

Lemma vec_asin_float_fneg_witness :
  vec_asin_float (fneg gen_05) = fneg (vec_asin_float gen_05).
Proof. apply (vec_asin_float_fneg gen_05). vm_compute. reflexivity. Defined.

End OddKernels.

(** ** Relations between the rounding kernels *)

Section RoundingRelations.
Import Bits Lane Kernels.
Local Open Scope lane_scope.

(** Two patterns that stand for the same integer above zero are the same
    pattern. *)
Lemma lane_is_unique (a b : lane) (n : Z) :
  0 < n -> lane_is a n -> lane_is b n -> a = b.
Proof.
  intros Hn (Ha & Na & Va) (Hb & Nb & Vb).
  pose proof unit149_pos as Hu.
  assert (Hv : 0 < n * unit149) by nia.
  destruct (is_number_cases a Na) as [(sa & Da)|(sa & ma & ea & Da)];
    [rewrite Da in Va; cbn [SFZ] in Va; lia|].
  destruct (is_number_cases b Nb) as [(sb & Db)|(sb & mb & eb & Db)];
    [rewrite Db in Vb; cbn [SFZ] in Vb; lia|].
  pose proof (is_number_finite_bounded a sa ma ea Ha Da) as Ba.
  pose proof (is_number_finite_bounded b sb mb eb Hb Db) as Bb.
  rewrite Da in Va. rewrite Db in Vb. cbn [SFZ] in Va, Vb.
  assert (Pa : 0 < Zpos ma * 2 ^ (ea + 149)).
  { apply bounded32_iff in Ba. pose proof (pow2_pos (ea + 149) ltac:(lia)). nia. }
  assert (Pb : 0 < Zpos mb * 2 ^ (eb + 149)).
  { apply bounded32_iff in Bb. pose proof (pow2_pos (eb + 149) ltac:(lia)). nia. }
  destruct sa; cbn [cond_Zopp] in Va; [lia|].
  destruct sb; cbn [cond_Zopp] in Vb; [lia|].
  destruct (bounded_value_unique ma mb ea eb Ba Bb ltac:(lia)) as [-> ->].
  rewrite <- (encode_decode a Ha (is_number_not_nan a Ha Na)).
  rewrite <- (encode_decode b Hb (is_number_not_nan b Hb Nb)).
  rewrite Da, Db. reflexivity.
Qed.

(** The magnitude of a number is a number, of the absolute value. *)
Lemma magnitude_value (y : lane) (n : Z) :
  lane_is y n -> lane_is (magnitude y) (Z.abs n) /\
                 (n = 0 -> magnitude y = 0).
Proof.
  intros (Hy & Ny & Vy).
  pose proof unit149_pos as Hu.
  assert (Hsgn : if sign_bit y then n <= 0 else 0 <= n).
  { destruct (is_number_cases y Ny) as [(s & D)|(s & m & e & D)];
      rewrite D in Vy; cbn [SFZ] in Vy.
    - assert (n = 0) by nia. subst n. destruct (sign_bit y); lia.
    - pose proof (decode_sign y s m e Hy D) as Hs. subst s.
      pose proof (is_number_finite_bounded y _ m e Hy D) as Bb.
      apply bounded32_iff in Bb.
      pose proof (pow2_pos (e + 149) ltac:(lia)).
      destruct (sign_bit y); cbn [cond_Zopp] in Vy; nia. }
  assert (Hzero : n = 0 -> magnitude y = 0).
  { intros ->.
    pose proof (is_number_not_nan y Hy Ny) as Hn.
    destruct (decode_shape y Hy Hn) as [(_ & M)|[(D & _)|(p & e & D & _ & He & _)]].
    - exact M.
    - unfold is_number in Ny. rewrite D in Ny. discriminate.
    - rewrite D in Vy. cbn [SFZ] in Vy.
      pose proof (pow2_pos (e + 149) ltac:(lia)).
      destruct (sign_bit y); cbn [cond_Zopp] in Vy; nia. }
  split; [|exact Hzero].
  destruct (lane_sign_cases y Hy) as [(Hs & Hm & _)|(Hs & _ & _)];
    rewrite Hs in Hsgn.
  - rewrite <- Hm. rewrite Z.abs_eq by lia.
    split; [exact Hy|]. split; assumption.
  - rewrite <- (fneg_negative y Hy Hs).
    replace (Z.abs n) with (- n) by lia.
    apply lane_is_fneg. split; [exact Hy|]. split; assumption.
Qed.

(** Adding and subtracting [2^23] leaves a sign-clear integer lane of at
    most [2^23] as it is, bit for bit. *)
Lemma magic_fixed (b : lane) (n : Z) :
  lane_is b n -> sign_bit b = false -> 0 <= n <= 8388608 ->
  (b +! two_to_23_ps) -! two_to_23_ps = b.
Proof.
  intros Hb Hs Hn.
  pose proof unit149_pos as Hu.
  destruct (Z.eq_dec n 0) as [->|Hn0].
  - destruct (magnitude_value b 0 Hb) as [_ Hz].
    rewrite (sign_clear_magnitude b (proj1 Hb) Hs) in Hz.
    rewrite (Hz eq_refl). vm_compute. reflexivity.
  - destruct (Z.eq_dec n 8388608) as [->|Hn1].
    + rewrite (lane_is_unique b two_to_23_ps 8388608 ltac:(lia) Hb lane_is_two23).
      vm_compute. reflexivity.
    + destruct Hb as (Hb & Nb & Vb).
      destruct (magic_round b Hb Nb Hs ltac:(nia)) as (Hr & _).
      rewrite Vb in Hr.
      assert (Hq : rne_shift (n * unit149) 149 = n).
      { unfold rne_shift, unit149. cbv zeta.
        rewrite Z.div_mul, Z.mod_mul by (apply Z.pow_nonzero; lia).
        replace (0 <? 2 ^ (149 - 1)) with true; [reflexivity|].
        symmetry. apply Z.ltb_lt. apply pow2_pos. lia. }
      rewrite Hq in Hr.
      apply (lane_is_unique _ b n ltac:(lia) Hr).
      split; [exact Hb|]. split; assumption.
Qed.

(** X5.  Rounding a rounded lane changes nothing, bit for bit. *)
Theorem vec_round_float_idempotent (x : lane) :
  lane_ok x -> flt (vand x gen_abs_mask) two_to_23_ps = true ->
  vec_round_float (vec_round_float x) = vec_round_float x.
Proof.
  intros Hx Hlt.
  destruct (vec_round_float_is x Hx Hlt) as (Hy & Hb).
  generalize dependent (round_value x). intros n Hy Hb.
  generalize dependent (vec_round_float x). intros y Hy.
  destruct (magnitude_value y n Hy) as [Hm _].
  pose proof (proj1 Hy) as Hok.
  unfold vec_round_float. cbv zeta.
  rewrite (vxor_sign_abs y Hok).
  rewrite (magic_fixed (magnitude y) (Z.abs n) Hm (sign_bit_magnitude y))
    by lia.
  rewrite <- (vxor_sign_abs y Hok). unfold vxor.
  rewrite <- Z.lxor_assoc, Z.lxor_nilpotent. apply Z.lxor_0_l.
Qed.

Lemma vec_round_float_idempotent_witness :
  vec_round_float (vec_round_float 3223322624) = vec_round_float 3223322624.
Proof.
  apply (vec_round_float_idempotent 3223322624);
    [lane_const | vm_compute; reflexivity].
Defined.

Lemma arg_value_fneg (x : lane) : arg_value (fneg x) = - arg_value x.
Proof. unfold arg_value. rewrite decode_fneg. apply SFZ_opp. Qed.

(** X6.  For [|x| < 2^23]: floor, round and ceil are in this order, floor
    and ceil differ by zero or one, and they are equal exactly when [x] is
    itself that integer. *)
Theorem floor_round_ceil (x : lane) :
  lane_ok x -> flt (vand x gen_abs_mask) two_to_23_ps = true ->
  (lane_R (vec_floor_float x) <= lane_R (vec_round_float x)
     <= lane_R (vec_ceil_float x))%R /\
  (lane_R (vec_ceil_float x) = lane_R (vec_floor_float x) \/
   lane_R (vec_ceil_float x) = lane_R (vec_floor_float x) + 1)%R /\
  (lane_R (vec_ceil_float x) = lane_R (vec_floor_float x) <->
   lane_R x = lane_R (vec_floor_float x)).
Proof.
  intros Hx Hlt.
  destruct (below_two23 x Hx Hlt) as (_ & Nx & _ & _).
  pose proof (lane_R_scaled x Hx Nx) as HR. fold (arg_value x) in HR.
  pose proof IZR_unit149_pos as Hu.
  pose proof unit149_pos as HuZ.
  rewrite (lane_is_R _ _ (vec_floor_float_is x Hx Hlt)).
  rewrite (lane_is_R _ _ (vec_ceil_float_is x Hx Hlt)).
  destruct (vec_round_float_is x Hx Hlt) as (Hr & _).
  rewrite (lane_is_R _ _ Hr).
  destruct (round_value_near x Hx Hlt) as (Hnear & _).
  generalize dependent (round_value x). intros rv _ Hnear.
  generalize dependent (arg_value x). intros A HR Hnear.
  pose proof (Z.div_mod A unit149 ltac:(lia)) as Hdm.
  pose proof (Z.mod_pos_bound A unit149 HuZ) as Hmb.
  pose proof (Z.div_mod (- A) unit149 ltac:(lia)) as Hdm'.
  pose proof (Z.mod_pos_bound (- A) unit149 HuZ) as Hmb'.
  set (f := A / unit149) in *. set (c := - (- A / unit149)) in *.
  assert (Hc : - A / unit149 = - c) by (unfold c; lia).
  rewrite Hc in Hdm'.
  generalize dependent (A mod unit149). intros r Hdm Hmb.
  generalize dependent (- A mod unit149). intros r' Hdm' Hmb'.
  clearbody f c. clear Hc.
  assert (E : (c - f) * unit149 = r + r') by lia.
  assert (Hd0 : 0 <= c - f).
  { destruct (Z.le_gt_cases 0 (c - f)); [assumption|exfalso].
    assert ((c - f) * unit149 <= -1 * unit149) by (apply Z.mul_le_mono_nonneg_r; lia).
    lia. }
  assert (Hd1 : c - f < 2).
  { destruct (Z.lt_ge_cases (c - f) 2); [assumption|exfalso].
    assert (2 * unit149 <= (c - f) * unit149) by (apply Z.mul_le_mono_nonneg_r; lia).
    lia. }
  assert (Hd : c - f = 0 \/ c - f = 1) by lia.
  assert (Hcf : (r = 0 /\ c = f) \/ (0 < r /\ c = f + 1)).
  { destruct Hd as [Hd|Hd]; rewrite Hd in E; [left|right]; lia. }
  assert (Hrv : f <= rv <= c).
  { assert (Hn : - unit149 <= 2 * (rv * unit149 - A) <= unit149) by lia.
    split.
    - destruct (Z.le_gt_cases f rv); [assumption|exfalso].
      assert (rv * unit149 <= (f - 1) * unit149) by (apply Z.mul_le_mono_nonneg_r; lia).
      lia.
    - destruct (Z.le_gt_cases rv c); [assumption|exfalso].
      assert ((c + 1) * unit149 <= rv * unit149) by (apply Z.mul_le_mono_nonneg_r; lia).
      lia. }
  split; [split; apply IZR_le; lia|].
  split.
  - destruct Hcf as [(_ & ->)|(_ & ->)]; [left; reflexivity | right].
    rewrite plus_IZR. reflexivity.
  - split.
    + intros H. apply eq_IZR in H.
      assert (Hz : A = f * unit149) by nia.
      apply (Rmult_eq_reg_r (IZR unit149)); [|lra].
      rewrite HR, Hz, mult_IZR. reflexivity.
    + intros H. rewrite H in HR. rewrite <- mult_IZR in HR.
      apply eq_IZR in HR. f_equal. nia.
Qed.

Lemma floor_round_ceil_witness :
  lane_R (vec_ceil_float 1075838976) = lane_R (vec_floor_float 1075838976) \/
  lane_R (vec_ceil_float 1075838976) =
    (lane_R (vec_floor_float 1075838976%Z) + 1)%R.
Proof.
  apply (floor_round_ceil 1075838976); [lane_const | vm_compute; reflexivity].
Defined.

(** X7.  For [|x| < 2^23]: the floor of the negated lane is minus the
    ceiling, and the ceiling of the negated lane is minus the floor. *)
Theorem floor_ceil_fneg (x : lane) :
  lane_ok x -> flt (vand x gen_abs_mask) two_to_23_ps = true ->
  lane_R (vec_floor_float (fneg x)) = (- lane_R (vec_ceil_float x))%R /\
  lane_R (vec_ceil_float (fneg x)) = (- lane_R (vec_floor_float x))%R.
Proof.
  intros Hx Hlt.
  assert (Hlt' : flt (vand (fneg x) gen_abs_mask) two_to_23_ps = true)
    by (rewrite abs_fneg; exact Hlt).
  pose proof (fneg_ok x Hx) as Hx'.
  rewrite (lane_is_R _ _ (vec_floor_float_is x Hx Hlt)).
  rewrite (lane_is_R _ _ (vec_ceil_float_is x Hx Hlt)).
  rewrite (lane_is_R _ _ (vec_floor_float_is _ Hx' Hlt')).
  rewrite (lane_is_R _ _ (vec_ceil_float_is _ Hx' Hlt')).
  rewrite arg_value_fneg, Z.opp_involutive, !opp_IZR, Ropp_involutive.
  split; reflexivity.
Qed.

Lemma floor_ceil_fneg_witness :
  lane_R (vec_floor_float (fneg 1075838976)) =
    (- lane_R (vec_ceil_float 1075838976%Z))%R.
Proof.
  apply (floor_ceil_fneg 1075838976); [lane_const | vm_compute; reflexivity].
Defined.

End RoundingRelations.

(** ** The exponent field under [ldexp_float] and [frexp_float] *)

Section ExponentFields.
Import Bits Lane Kernels.
Local Open Scope lane_scope.

Lemma land_frac_shifted (F M : Z) :
  0 <= F < 8388608 -> Z.land F (M * 8388608) = 0.
Proof.
  intros HF. apply Z.bits_inj'. intros i Hi.
  rewrite Z.land_spec, Z.bits_0.
  destruct (Z.ltb_spec i 23).
  - change 8388608 with (2 ^ 23). rewrite Z.mul_pow2_bits_low by lia.
    apply andb_false_r.
  - rewrite <- (Z.mod_small F (2 ^ 23)) by (change (2 ^ 23) with 8388608; lia).
    rewrite Z.mod_pow2_bits_high by lia. reflexivity.
Qed.

Lemma sign_word_lor (s t : bool) :
  Z.lor (sign_word s) (sign_word t) = sign_word (s || t).
Proof. destruct s, t; reflexivity. Qed.

(** The fields of a pattern, put together with [or]. *)
Lemma fields_as_lor (s : bool) (M F : Z) :
  0 <= M < 256 -> 0 <= F < 8388608 ->
  sign_word s + M * 8388608 + F =
  Z.lor (sign_word s) (Z.lor (M * 8388608) F).
Proof.
  intros HM HF.
  rewrite (lor_disjoint_add (M * 8388608) F)
    by (rewrite Z.land_comm; apply land_frac_shifted; exact HF).
  rewrite lor_disjoint_add; [lia|].
  destruct s; cbn [sign_word]; [|reflexivity].
  rewrite Z.land_comm. apply land_small_sign. lia.
Qed.

(** [ldexp_float] on the fields of a pattern, for any count: the count
    is added to the exponent field modulo 256 and the carry out of the
    field is or-ed into the sign bit. *)
Lemma ldexp_float_carry (s : bool) (E F n : Z) :
  0 <= E < 256 -> 0 <= F < 8388608 ->
  ldexp_float (sign_word s + E * 8388608 + F) (wrap n) =
  sign_word (s || Z.odd ((n + E) / 256)) + ((n + E) mod 256) * 8388608 + F.
Proof.
  intros HE HF.
  set (m := sign_word s + E * 8388608 + F).
  destruct (fields_unique m s E F HE HF eq_refl) as (_ & Em & _).
  unfold ldexp_float. cbv zeta. unfold vor, andnot, vand, iadd, slli.
  rewrite land_exp_mask, Em.
  set (k := n + E).
  pose proof (Z.mod_pos_bound k 256 ltac:(lia)) as Hk.
  pose proof (Z.div_mod k 256 ltac:(lia)) as Hkd.
  pose proof (Z.div_mod (k / 256) 2 ltac:(lia)) as Hk2.
  pose proof (Z.mod_pos_bound (k / 256) 2 ltac:(lia)) as Hk2b.
  assert (Hodd : sign_word (Z.odd (k / 256)) = (k / 256) mod 2 * 2147483648).
  { rewrite Zmod_odd. destruct (Z.odd (k / 256)); reflexivity. }
  assert (Hnew : wrap (wrap (Z.shiftl (wrap n) (16 + 7)) + E * 8388608)
                 = sign_word (Z.odd (k / 256)) + (k mod 256) * 8388608).
  { unfold wrap, lane_mod. rewrite Z.shiftl_mul_pow2 by lia.
    change (2 ^ (16 + 7)) with 8388608.
    rewrite Z.mul_mod_idemp_l by lia.
    rewrite Z.add_mod_idemp_l by lia.
    replace (n * 8388608 + E * 8388608) with (k * 8388608) by (unfold k; lia).
    rewrite Hodd.
    symmetry. apply (Z.mod_unique_pos _ _ (k / 256 / 2)); [lia|].
    rewrite Hkd at 1. rewrite Hk2 at 1. lia. }
  rewrite Hnew.
  rewrite ldiff_as_sub, (Z.land_comm m), land_exp_mask, Em.
  replace (m - E * 8388608) with (sign_word s + 0 * 8388608 + F)
    by (unfold m; lia).
  rewrite (fields_as_lor s 0 F) by lia.
  replace (sign_word (Z.odd (k / 256)) + k mod 256 * 8388608)
    with (sign_word (Z.odd (k / 256)) + k mod 256 * 8388608 + 0) by lia.
  rewrite (fields_as_lor _ (k mod 256) 0) by lia.
  rewrite (fields_as_lor _ (k mod 256) F) by lia.
  cbn [Z.mul]. rewrite !Z.lor_0_l, Z.lor_0_r.
  rewrite <- sign_word_lor.
  apply Z.bits_inj'. intros i Hi. rewrite !Z.lor_spec.
  repeat match goal with |- context [Z.testbit ?a i] =>
    let b := fresh "b" in generalize (Z.testbit a i); intro b end.
  repeat match goal with b : bool |- _ => destruct b end; reflexivity.
Qed.

(** X8.  [ldexp_float] never saturates.  For any count the exponent
    field becomes the sum modulo 256, the fraction bits are kept, and the
    carry or borrow out of the field is or-ed into the sign bit. *)
Theorem ldexp_float_wraps (x : lane) (n : Z) :
  lane_ok x ->
  sign_bit (ldexp_float x (wrap n)) =
    (sign_bit x || Z.odd ((n + expo_field x) / 256)) /\
  expo_field (ldexp_float x (wrap n)) = (n + expo_field x) mod 256 /\
  frac_field (ldexp_float x (wrap n)) = frac_field x.
Proof.
  intros Hx.
  destruct (fields_of_lane x Hx) as (Ex & HE & HF).
  pose proof (ldexp_float_carry (sign_bit x) (expo_field x) (frac_field x) n
                HE HF) as H.
  rewrite <- Ex in H.
  pose proof (Z.mod_pos_bound (n + expo_field x) 256 ltac:(lia)) as Hk.
  exact (fields_unique (ldexp_float x (wrap n))
           (sign_bit x || Z.odd ((n + expo_field x) / 256))
           ((n + expo_field x) mod 256) (frac_field x) Hk HF H).
Qed.

(** [ldexp(1.0, 200)]: the field 127 + 200 wraps to 71 and the sign bit
    is set. *)
Lemma ldexp_float_wraps_witness :
  sign_bit (ldexp_float gen_one (wrap 200)) =
    (sign_bit gen_one || Z.odd ((200 + expo_field gen_one) / 256)) /\
  expo_field (ldexp_float gen_one (wrap 200)) =
    (200 + expo_field gen_one) mod 256 /\
  frac_field (ldexp_float gen_one (wrap 200)) = frac_field gen_one.
Proof. apply (ldexp_float_wraps gen_one 200). lane_const. Defined.

(** X9.  While the exponent field stays inside its eight bits,
    [ldexp_float] by [a] and then by [b] is [ldexp_float] by [a + b], and
    [ldexp_float] by zero changes nothing. *)
Theorem ldexp_float_compose (x : lane) (a b : Z) :
  lane_ok x ->
  0 <= expo_field x + a < 256 -> 0 <= expo_field x + a + b < 256 ->
  ldexp_float (ldexp_float x (wrap a)) (wrap b) = ldexp_float x (wrap (a + b))
  /\ ldexp_float x (wrap 0) = x.
Proof.
  intros Hx Ha Hb.
  destruct (fields_of_lane x Hx) as (Ex & HE & HF).
  set (E := expo_field x) in *. set (F := frac_field x) in *.
  set (s := sign_bit x) in *. clearbody E F s.
  rewrite Ex.
  rewrite (ldexp_float_any s E F a) by lia.
  rewrite (ldexp_float_any s (a + E) F b) by lia.
  rewrite (ldexp_float_any s E F (a + b)) by lia.
  rewrite (ldexp_float_any s E F 0) by lia.
  split; f_equal; lia.
Qed.

Lemma ldexp_float_compose_witness :
  ldexp_float (ldexp_float gen_one (wrap 3)) (wrap (-5)) =
    ldexp_float gen_one (wrap (3 + -5)) /\
  ldexp_float gen_one (wrap 0) = gen_one.
Proof.
  apply (ldexp_float_compose gen_one 3 (-5));
    [lane_const | vm_compute; split; [discriminate | reflexivity]
               | vm_compute; split; [discriminate | reflexivity]].
Defined.

(** The number behind a pattern with an exponent field between 1 and
    254. *)
Lemma lane_R_normal (s : bool) (E F : Z) :
  1 <= E <= 254 -> 0 <= F < 8388608 ->
  is_number (sign_word s + E * 8388608 + F) = true /\
  lane_R (sign_word s + E * 8388608 + F) =
    ((if s then -1 else 1) * (IZR (F + 8388608) * pw (E - 150)))%R.
Proof.
  intros HE HF.
  rewrite <- pack_fields by lia.
  assert (D : decode (pack s E F) =
              S754_finite s (Z.to_pos (F + 8388608)) (E - 150)).
  { rewrite decode_pack by lia.
    destruct (Z.eqb_spec E 0); [lia|]. destruct (Z.eqb_spec E 255); [lia|].
    destruct (F + 8388608) eqn:Hp; try lia. reflexivity. }
  unfold is_number, lane_R. rewrite D. split; [reflexivity|].
  rewrite SFR_finite, Z2Pos.id by lia. reflexivity.
Qed.

(** On a pattern with exponent field between 1 and 254, and while the
    field stays there, [ldexp_float] multiplies by the power of two. *)
Lemma ldexp_float_normal (s : bool) (E F n : Z) :
  1 <= E <= 254 -> 0 <= F < 8388608 -> 1 <= E + n <= 254 ->
  is_number (ldexp_float (sign_word s + E * 8388608 + F) (wrap n)) = true /\
  lane_R (ldexp_float (sign_word s + E * 8388608 + F) (wrap n)) =
    (lane_R (sign_word s + E * 8388608 + F)%Z * pw n)%R.
Proof.
  intros HE HF Hn.
  rewrite (ldexp_float_any s E F n) by lia.
  destruct (lane_R_normal s E F HE HF) as [_ V1].
  destruct (lane_R_normal s (n + E) F ltac:(lia) HF) as [N2 V2].
  split; [exact N2|].
  rewrite V1, V2.
  replace (n + E - 150) with (E - 150 + n) by lia.
  rewrite pw_add. ring.
Qed.

(** X10.  On a normal number, and while the exponent field stays between 1
    and 254, [ldexp_float] multiplies by the power of two. *)
Theorem ldexp_float_scales (x : lane) (n : Z) :
  lane_ok x -> 1 <= expo_field x <= 254 -> 1 <= expo_field x + n <= 254 ->
  is_number (ldexp_float x (wrap n)) = true /\
  lane_R (ldexp_float x (wrap n)) = (lane_R x * pw n)%R.
Proof.
  intros Hx HE Hn.
  destruct (fields_of_lane x Hx) as (Ex & _ & HF).
  pose proof (ldexp_float_normal (sign_bit x) (expo_field x) (frac_field x) n
                HE HF Hn) as H.
  rewrite <- Ex in H. exact H.
Qed.

Lemma ldexp_float_scales_witness :
  is_number (ldexp_float 1078530011 (wrap (-7))) = true /\
  lane_R (ldexp_float 1078530011 (wrap (-7))) =
    (lane_R 1078530011%Z * pw (-7))%R.
Proof.
  apply (ldexp_float_scales 1078530011 (-7));
    [lane_const | vm_compute; split; discriminate
               | vm_compute; split; discriminate].
Defined.

Lemma signed_wrap (z : Z) :
  -2147483648 <= z < 2147483648 -> signed (wrap z) = z.
Proof.
  intros Hz. unfold signed, wrap, lane_mod.
  rewrite Z.mod_mod by lia.
  destruct (Z.le_gt_cases 0 z).
  - rewrite Z.mod_small by lia.
    destruct (Z.ltb_spec z 2147483648); lia.
  - replace (z mod 4294967296) with (z + 4294967296)
      by (apply (Z.mod_unique_pos _ _ (-1)); lia).
    destruct (Z.ltb_spec (z + 4294967296) 2147483648); lia.
Qed.

(** X11.  [frexp_float] returns, for every pattern, a mantissa that is a
    number of magnitude in [[1/2, 1)] with the sign bit of the input.  On
    a normal number the mantissa times two to the exponent is the input;
    on a zero or a subnormal number the exponent is [-126] and the
    product is larger than the input in magnitude. *)
Theorem frexp_float_value (x : lane) :
  lane_ok x ->
  let m := fst (frexp_float x) in
  let e := snd (frexp_float x) in
  (is_number m = true /\ sign_bit m = sign_bit x /\
   (1 / 2 <= Rabs (lane_R m) < 1)%R) /\
  (1 <= expo_field x <= 254 -> lane_R x = (lane_R m * pw (signed e))%R) /\
  (expo_field x = 0 ->
     signed e = -126 /\
     (Rabs (lane_R x) < Rabs (lane_R m * pw (signed e)))%R).
Proof.
  intros Hx. cbv zeta.
  rewrite (frexp_float_fields x Hx). cbn [fst snd].
  destruct (fields_of_lane x Hx) as (Ex & HE & HF).
  set (E := expo_field x) in *. set (F := frac_field x) in *.
  set (s := sign_bit x) in *. clearbody E F s.
  destruct (lane_R_normal s 126 F ltac:(lia) HF) as [Nm Vm].
  rewrite (signed_wrap (E - 126)) by lia.
  assert (HF1 : (8388608 <= IZR (F + 8388608) < 16777216)%R)
    by (split; [apply IZR_le | apply IZR_lt]; lia).
  assert (P24 : (pw (126 - 150) * 16777216 = 1)%R).
  { change 16777216%R with (IZR (2 ^ 24)). rewrite <- pw_IZR by lia.
    rewrite <- pw_add. reflexivity. }
  pose proof (pw_pos (126 - 150)) as Pp.
  assert (Ha : Rabs (lane_R (sign_word s + 126 * 8388608 + F)) =
               (IZR (F + 8388608) * pw (126 - 150))%R).
  { rewrite Vm. destruct s.
    - replace (-1 * (IZR (F + 8388608) * pw (126 - 150)))%R
        with (- (IZR (F + 8388608) * pw (126 - 150)))%R by ring.
      rewrite Rabs_Ropp. apply Rabs_pos_eq. nra.
    - rewrite Rmult_1_l. apply Rabs_pos_eq. nra. }
  split; [|split].
  - split; [exact Nm|]. split.
    + destruct (fields_unique _ s 126 F ltac:(lia) HF eq_refl) as (H & _).
      exact H.
    + rewrite Ha. nra.
  - intros HE1. rewrite Ex at 1.
    destruct (lane_R_normal s E F HE1 HF) as [_ Vx].
    rewrite Vx, Vm.
    replace (E - 150) with (126 - 150 + (E - 126)) by lia.
    rewrite pw_add. ring.
  - intros HE0. rewrite HE0. split; [reflexivity|].
    rewrite Rabs_mult, Ha.
    rewrite (Rabs_pos_eq (pw (0 - 126))) by (apply Rlt_le, pw_pos).
    assert (Vx : Rabs (lane_R x) = (IZR F * pw (-149))%R).
    { rewrite Ex, HE0. rewrite <- pack_fields by lia.
      unfold lane_R. rewrite decode_pack by lia. cbn [Z.eqb].
      destruct F as [|p|p]; try lia.
      - cbn [SFR]. rewrite Rabs_R0. lra.
      - rewrite Rabs_SFR_finite. reflexivity. }
    rewrite Vx.
    assert (P1 : pw (-149) = (2 * pw (-150))%R)
      by (rewrite <- (pw_succ (-150)); reflexivity).
    assert (P2 : (pw (126 - 150) * pw (0 - 126))%R = pw (-150))
      by (rewrite <- pw_add; reflexivity).
    pose proof (pw_pos (-150)) as P3.
    assert (HF2 : (0 <= IZR F < 8388608)%R)
      by (split; [apply IZR_le | apply IZR_lt]; lia).
    rewrite plus_IZR, P1, Rmult_assoc, P2. nra.
Qed.

Lemma frexp_float_value_witness :
  lane_R 1078530011 =
    (lane_R (fst (frexp_float 1078530011%Z)) *
     pw (signed (snd (frexp_float 1078530011%Z))))%R.
Proof.
  apply (frexp_float_value 1078530011);
    [lane_const | vm_compute; split; discriminate].
Defined.

(** X12.  The other round trip: on a mantissa as [frexp_float] returns
    them (exponent field 126) and a count that keeps the exponent field
    inside its eight bits, [frexp_float] after [ldexp_float] gives the
    mantissa and the count back. *)
Theorem frexp_ldexp_roundtrip (s : bool) (F n : Z) :
  0 <= F < 8388608 -> 0 <= n + 126 < 256 ->
  frexp_float (ldexp_float (sign_word s + 126 * 8388608 + F) (wrap n)) =
  (sign_word s + 126 * 8388608 + F, wrap n).
Proof.
  intros HF Hn.
  rewrite (ldexp_float_any s 126 F n) by lia.
  assert (Hok : lane_ok (sign_word s + (n + 126) * 8388608 + F))
    by (unfold lane_ok, lane_mod, sign_word; destruct s; lia).
  rewrite (frexp_float_fields _ Hok).
  destruct (fields_unique _ s (n + 126) F ltac:(lia) HF eq_refl)
    as (-> & -> & ->).
  f_equal. f_equal. lia.
Qed.

Lemma frexp_ldexp_roundtrip_witness :
  frexp_float (ldexp_float (sign_word false + 126 * 8388608 + 4194304)
                           (wrap (-3))) =
  (sign_word false + 126 * 8388608 + 4194304, wrap (-3)).
Proof. apply (frexp_ldexp_roundtrip false 4194304 (-3)); lia. Defined.

End ExponentFields.

(** ** The exponential between its clamps *)

Section ExpRange.
Import Bits Lane Kernels.
Local Open Scope lane_scope.

(** Truncation of a lane that holds an integer of either sign. *)
Lemma truncate_to_int_wrap (z : lane) (n : Z) :
  lane_is z n -> -2147483648 < n < 2147483648 -> truncate_to_int z = wrap n.
Proof.
  intros (Hz & Nz & Vz) Hn.
  pose proof unit149_pos as Hu.
  unfold truncate_to_int.
  destruct (is_number_cases z Nz) as [(s & D)|(s & m & e & D)]; rewrite D in *.
  - cbn [SFZ] in Vz. assert (n = 0) by nia. subst n. reflexivity.
  - pose proof (is_number_finite_bounded z s m e Hz D) as Hb.
    apply bounded32_iff in Hb. destruct Hb as (He & _).
    cbn [SFZ] in Vz. unfold unit149 in *.
    pose proof (pow2_pos (e + 149) ltac:(lia)) as Hp.
    assert (Hq : match e with
                 | 0 => Zpos m
                 | Zpos _ => Z.shiftl (Zpos m) e
                 | Zneg _ => Z.shiftr (Zpos m) (- e)
                 end = Z.abs n /\ (if s then n < 0 else 0 < n)).
    { assert (Ha : Zpos m * 2 ^ (e + 149) = Z.abs n * 2 ^ 149 /\
                   (if s then n < 0 else 0 < n))
        by (destruct s; cbn [cond_Zopp] in Vz; nia).
      destruct Ha as [Ha Hs]. split; [|exact Hs].
      destruct e as [|k|k].
      - cbn [Z.add] in Ha. nia.
      - rewrite Z.shiftl_mul_pow2 by lia.
        rewrite Z.pow_add_r in Ha by lia. nia.
      - rewrite Z.shiftr_div_pow2 by lia.
        change (- Zneg k) with (Zpos k).
        assert (E : 2 ^ 149 = 2 ^ (Zneg k + 149) * 2 ^ Zpos k).
        { rewrite <- Z.pow_add_r by lia. f_equal. lia. }
        rewrite E in Ha.
        assert (Hm : Zpos m = Z.abs n * 2 ^ Zpos k) by nia.
        rewrite Hm. apply Z.div_mul.
        pose proof (pow2_pos (Zpos k) ltac:(lia)). lia. }
    destruct Hq as [-> Hs].
    destruct s.
    + destruct (Z.leb_spec (Z.abs n) 2147483648); [|lia].
      f_equal. lia.
    + destruct (Z.ltb_spec (Z.abs n) 2147483648); [|lia].
      unfold wrap, lane_mod. rewrite Z.mod_small by lia. lia.
Qed.

(** The magnitude of a number, in real numbers. *)
Lemma magnitude_R (t : lane) :
  lane_ok t -> is_number t = true ->
  is_number (magnitude t) = true /\ lane_R (magnitude t) = Rabs (lane_R t).
Proof.
  intros Ht Nt.
  assert (Hsgn : if sign_bit t then (lane_R t <= 0)%R else (0 <= lane_R t)%R).
  { destruct (lane_R_number_cases t Ht Nt) as [(Hz & _)|(s & m & e & D & _ & V)].
    - rewrite Hz. destruct (sign_bit t); lra.
    - pose proof (decode_sign t s m e Ht D) as Hs. subst s.
      pose proof (pw_pos e).
      assert (0 < IZR (Zpos m))%R by (apply IZR_lt; lia).
      rewrite V. destruct (sign_bit t); nra. }
  destruct (lane_sign_cases t Ht) as [(Hs & Hm & _)|(Hs & _ & _)];
    rewrite Hs in Hsgn.
  - rewrite <- Hm. split; [exact Nt|]. symmetry. apply Rabs_pos_eq. exact Hsgn.
  - rewrite <- (fneg_negative t Ht Hs).
    rewrite is_number_fneg, lane_R_fneg. split; [exact Nt|].
    symmetry. rewrite <- Rabs_Ropp. apply Rabs_pos_eq. lra.
Qed.

Lemma fle_of_R (a b : lane) :
  lane_ok a -> lane_ok b -> is_number a = true -> is_number b = true ->
  (lane_R a <= lane_R b)%R -> fle a b = true.
Proof.
  intros Ha Hb Na Nb H.
  rewrite fle_skey by assumption.
  rewrite (is_number_not_nan a Ha Na), (is_number_not_nan b Hb Nb).
  cbn [negb andb]. apply Z.leb_le.
  destruct (Z.le_gt_cases (skey a) (skey b)) as [|Hgt]; [assumption|exfalso].
  assert (Hf : flt b a = true).
  { rewrite flt_skey by assumption.
    rewrite (is_number_not_nan a Ha Na), (is_number_not_nan b Hb Nb).
    cbn [negb andb]. apply Z.ltb_lt. exact Hgt. }
  pose proof (flt_R b a Hb Ha Nb Na Hf). lra.
Qed.

(** The reduced argument of the exponential is small on the whole range
    between the clamps. *)
Lemma exp_reduce_bound_wide (x z : lane) (n : Z) :
  lane_ok x -> is_number x = true -> lane_is z n ->
  (-104 <= lane_R x <= 89)%R -> -151 <= n <= 129 ->
  (Rabs (IZR n - lane_R exp_log2e * lane_R x) <= 501 / 1000)%R ->
  is_number ((x -! z *! exp_c1) -! z *! exp_c2) = true /\
  (Rabs (lane_R ((x -! z *! exp_c1) -! z *! exp_c2)) <= 36 / 100)%R.
Proof.
  intros Hx Nx Hz Vx Hn Hnear.
  pose proof (lane_is_R z n Hz) as Vz. destruct Hz as (Hz & Nz & _).
  assert (Vn : (-151 <= IZR n <= 129)%R) by (split; apply IZR_le; lia).
  lane_value exp_log2e. lane_value exp_c1. lane_value exp_c2.
  rewrite CV in Hnear. apply Rabs_bound in Hnear.
  assert (T : (10 ^ 29 = 100000000000000000000000000000)%R) by (simpl; lra).
  assert (T' : (10 ^ 40 = 10000000000000000000000000000000000000000)%R)
    by (simpl; lra).
  destruct (fmul_near z exp_c1 105 Hz (proj1 CN0) Nz (proj2 CN0)) as [N1 E1].
  { rewrite Vz, CV0. apply Rabs_le. lra. } { lra. }
  rewrite Vz, CV0 in E1.
  pose proof (fmul_ok z exp_c1) as H1.
  generalize dependent (z *! exp_c1). intros m1 N1 E1 H1.
  destruct (fsub_near x m1 210 Hx H1 Nx N1) as [N2 E2].
  { apply Rabs_le. lra. } { lra. }
  pose proof (fsub_ok x m1) as H2.
  generalize dependent (x -! m1). intros s1 N2 E2 H2.
  destruct (fmul_near z exp_c2 1 Hz (proj1 CN1) Nz (proj2 CN1)) as [N3 E3].
  { rewrite Vz, CV1. apply Rabs_le. lra. } { lra. }
  rewrite Vz, CV1 in E3.
  pose proof (fmul_ok z exp_c2) as H3.
  generalize dependent (z *! exp_c2). intros m2 N3 E3 H3.
  destruct (fsub_near s1 m2 210 H2 H3 N2 N3) as [N4 E4].
  { apply Rabs_le. lra. } { lra. }
  split; [exact N4|]. apply Rabs_le. lra.
Qed.

(** The shape of the unclamped exponential between the clamps: the
    polynomial gives a number [p] of [[1/2, 3/2]], the count [n] is the
    integer nearest to [x * log2(e)], and the result is
    [ldexp_float p n]. *)
Lemma exp_approx_form (x : lane) :
  lane_ok x -> is_number x = true -> (-104 <= lane_R x <= 89)%R ->
  exists (p : lane) (n : Z),
    exp_approx x = ldexp_float p (wrap n) /\
    lane_ok p /\ is_number p = true /\ (1 / 2 <= lane_R p <= 3 / 2)%R /\
    (Rabs (IZR n - lane_R exp_log2e * lane_R x) <= 501 / 1000)%R.
Proof.
  intros Hx Nx Vx.
  unfold exp_approx. cbv zeta. unfold round.
  lane_value exp_log2e.
  assert (T : (10 ^ 29 = 100000000000000000000000000000)%R) by (simpl; lra).
  assert (T' : (10 ^ 40 = 10000000000000000000000000000000000000000)%R)
    by (simpl; lra).
  destruct (fmul_near exp_log2e x 151 (proj1 CN) Hx (proj2 CN) Nx) as [Nt Et].
  { rewrite CV. apply Rabs_le. lra. } { lra. }
  pose proof (fmul_ok exp_log2e x) as Ht.
  assert (Hnear0 : forall n : Z,
             (Rabs (IZR n - lane_R (exp_log2e *! x)) <= 1 / 2)%R ->
             (Rabs (IZR n - lane_R exp_log2e * lane_R x) <= 501 / 1000)%R /\
             (-152 < IZR n < 130)%R).
  { intros n Hn. apply Rabs_bound in Hn. rewrite CV in Et |- *.
    split; [apply Rabs_le|]; lra. }
  assert (Vt : (Rabs (lane_R (exp_log2e *! x)) < 8388608)%R)
    by (rewrite CV in Et; apply Rabs_def1; lra).
  clear Et.
  generalize dependent (exp_log2e *! x). intros t Nt Ht Hnear0 Vt.
  assert (Hlt : flt (vand t gen_abs_mask) two_to_23_ps = true).
  { rewrite abs_magnitude.
    destruct (magnitude_R t Ht Nt) as [Nm Vm].
    destruct lane_is_two23 as (H23 & N23 & _).
    apply flt_of_R; try assumption; [apply magnitude_ok|].
    rewrite Vm, (lane_is_R _ _ lane_is_two23). exact Vt. }
  destruct (vec_round_float_R t Ht Hlt) as (n & Hz & Hn & _).
  destruct (Hnear0 n Hn) as (Hnear & Hn1 & Hn2).
  assert (Hn3 : -151 <= n <= 129).
  { apply lt_IZR in Hn1, Hn2. lia. }
  clear Hnear0 Hn Hlt.
  generalize dependent (vec_round_float t). intros z Hz.
  rewrite (truncate_to_int_wrap z n Hz) by lia.
  destruct (exp_reduce_bound_wide x z n Hx Nx Hz Vx Hn3 Hnear) as [Nr Br].
  pose proof (fsub_ok (x -! z *! exp_c1) (z *! exp_c2)) as Hr.
  generalize dependent ((x -! z *! exp_c1) -! z *! exp_c2). intros r Nr Br Hr.
  change gen_one with one_f.
  destruct (exp_poly_bound r Hr Nr Br) as [Np Bp].
  match goal with |- context [ldexp_float ?p (wrap n)] =>
    exists p, n
  end.
  split; [reflexivity|]. split; [apply fadd_ok|].
  split; [exact Np|]. split; [exact Bp | exact Hnear].
Qed.

End ExpRange.

(** ** Where the exponential keeps and leaves the format *)

Section ExpEdges.
Import Bits Lane Kernels.
Local Open Scope lane_scope.

(** A number of [[1/2, 2)] has a clear sign bit and exponent field 126 or
    127. *)
Lemma expo_field_half_two (p : lane) :
  lane_ok p -> is_number p = true -> (1 / 2 <= lane_R p < 2)%R ->
  exists E F, p = sign_word false + E * 8388608 + F /\
              126 <= E <= 127 /\ 0 <= F < 8388608.
Proof.
  intros Hp Np [Hlo Hhi].
  assert (Hpos : positive_lane p) by (apply positive_of_value; [..|lra]; assumption).
  destruct (positive_lane_sign p Hp Hpos) as (Hs & Hm0 & _).
  pose proof (is_number_not_nan p Hp Np) as Hnan.
  destruct (decode_shape p Hp Hnan)
    as [(D & M)|[(D & M)|(m & e & D & Hm & He & Hm1 & Hm2 & Hmag)]].
  - contradiction.
  - unfold is_number in Np. rewrite D in Np. discriminate.
  - rewrite Hs in D. unfold lane_R in Hlo, Hhi.
    rewrite D, SFR_finite, Rmult_1_l in Hlo, Hhi.
    pose proof (pw_pos e) as Hpe.
    assert (Hr1 : (1 <= IZR (Zpos m) < 16777216)%R)
      by (split; [apply IZR_le | apply IZR_lt]; lia).
    assert (He1 : -24 <= e).
    { destruct (Z.le_gt_cases (-24) e) as [|Hc]; [assumption|exfalso].
      pose proof (pw_le e (-25) ltac:(lia)) as H1.
      assert (H2 : (pw (-25) * 33554432 = 1)%R).
      { change 33554432%R with (IZR (2 ^ 25)). rewrite <- pw_IZR by lia.
        rewrite <- pw_add. reflexivity. }
      nra. }
    assert (Hm3 : 8388608 <= Zpos m) by lia.
    assert (Hr2 : (8388608 <= IZR (Zpos m))%R) by (apply IZR_le; lia).
    assert (He2 : e <= -23).
    { destruct (Z.le_gt_cases e (-23)) as [|Hc]; [assumption|exfalso].
      pose proof (pw_le (-22) e ltac:(lia)) as H1.
      assert (H2 : (pw (-22) * 4194304 = 1)%R).
      { change 4194304%R with (IZR (2 ^ 22)). rewrite <- pw_IZR by lia.
        rewrite <- pw_add. reflexivity. }
      nra. }
    exists (e + 150), (Zpos m - 8388608).
    rewrite (sign_clear_magnitude p Hp Hs) in Hmag.
    unfold sign_word. repeat split; lia.
Qed.

Lemma exp_bounds_inside (x : lane) :
  lane_ok x -> is_number x = true -> (-103 <= lane_R x <= 887 / 10)%R ->
  vec_exp_float x = exp_approx x.
Proof.
  intros Hx Nx Vx.
  lane_value minlogf. lane_value maxlogf.
  apply vec_exp_float_inside; [exact Hx| |].
  - apply fle_of_R; try tauto. rewrite CV. lra.
  - apply fle_of_R; try tauto. rewrite CV0. lra.
Qed.

(** X13.  Between [-86.9] and [88.3] the exponential is a positive normal
    number: with [n] the integer nearest to [x * log2(e)] (the float
    constant [12102203 / 2^23]), the result lies between [2^n / 2] and
    [3/2 * 2^n]. *)
Theorem vec_exp_float_normal (x : lane) :
  lane_ok x -> is_number x = true ->
  (-869 / 10 <= lane_R x <= 883 / 10)%R ->
  exists n : Z,
    (Rabs (IZR n - 12102203 / 8388608 * lane_R x) <= 501 / 1000)%R /\
    is_number (vec_exp_float x) = true /\
    (pw n / 2 <= lane_R (vec_exp_float x) <= 3 / 2 * pw n)%R.
Proof.
  intros Hx Nx Vx.
  rewrite (exp_bounds_inside x Hx Nx) by lra.
  destruct (exp_approx_form x Hx Nx ltac:(lra))
    as (p & n & -> & Hp & Np & Vp & Hnear).
  lane_value exp_log2e. rewrite CV in Hnear.
  exists n. split; [exact Hnear|].
  apply Rabs_bound in Hnear.
  assert (Hn : -126 < n < 128).
  { split; apply lt_IZR; lra. }
  destruct (expo_field_half_two p Hp Np ltac:(lra)) as (E & F & Ep & HE & HF).
  rewrite Ep.
  destruct (ldexp_float_normal false E F n) as [Nr Vr]; try lia.
  split; [exact Nr|]. rewrite Vr, <- Ep.
  pose proof (pw_pos n). nra.
Qed.

Lemma vec_exp_float_normal_witness :
  exists n : Z,
    (Rabs (IZR n - 12102203 / 8388608 * lane_R gen_one) <= 501 / 1000)%R /\
    is_number (vec_exp_float gen_one) = true /\
    (pw n / 2 <= lane_R (vec_exp_float gen_one) <= 3 / 2 * pw n)%R.
Proof.
  assert (V1 : lane_R gen_one = 1%R) by (apply (lane_is_R _ 1); exact lane_is_one).
  apply (vec_exp_float_normal gen_one);
    [lane_const | reflexivity | rewrite V1; lra].
Defined.

(** X14.  Inside the clamp bounds the exponent field can still leave its
    range.  Between [-103] and [-90] the count added by [ldexp_float]
    takes the field below zero, the borrow sets the sign bit, and the
    result is a negative number below [-2^106].  At the upper bound
    [maxlogf] itself, which is compared with [>] and so not clamped, the
    field reaches 255 and the result is a NaN. *)
Theorem vec_exp_float_leaves_range :
  (forall x : lane,
     lane_ok x -> is_number x = true -> (-103 <= lane_R x <= -90)%R ->
     is_number (vec_exp_float x) = true /\
     (lane_R (vec_exp_float x) <= - pw 106)%R) /\
  (flt maxlogf maxlogf = false /\ flt maxlogf minlogf = false /\
   is_nan (vec_exp_float maxlogf) = true).
Proof.
  split; [|vm_compute; repeat split].
  intros x Hx Nx Vx.
  rewrite (exp_bounds_inside x Hx Nx) by lra.
  destruct (exp_approx_form x Hx Nx ltac:(lra))
    as (p & n & -> & Hp & Np & Vp & Hnear).
  lane_value exp_log2e. rewrite CV in Hnear.
  apply Rabs_bound in Hnear.
  assert (Hn : -150 < n < -129).
  { split; apply lt_IZR; lra. }
  destruct (expo_field_half_two p Hp Np ltac:(lra)) as (E & F & Ep & HE & HF).
  rewrite Ep, (ldexp_float_carry false E F n) by lia.
  replace ((n + E) / 256) with (-1)
    by (apply (Z.div_unique_pos _ _ _ (n + E + 256)); lia).
  replace ((n + E) mod 256) with (n + E + 256)
    by (apply (Z.mod_unique_pos _ _ (-1)); lia).
  cbn [Z.odd orb].
  destruct (lane_R_normal true (n + E + 256) F ltac:(lia) HF) as [Nr Vr].
  split; [exact Nr|]. rewrite Vr.
  assert (HF1 : (8388608 <= IZR (F + 8388608))%R) by (apply IZR_le; lia).
  pose proof (pw_le 83 (n + E + 256 - 150) ltac:(lia)) as P1.
  assert (P2 : pw 106 = (8388608 * pw 83)%R).
  { change 8388608%R with (IZR (2 ^ 23)). rewrite <- pw_IZR by lia.
    rewrite <- pw_add. reflexivity. }
  pose proof (pw_pos 83). rewrite P2. nra.
Qed.

Lemma vec_exp_float_leaves_range_witness :
  is_number (vec_exp_float 3267887104) = true /\
  (lane_R (vec_exp_float 3267887104%Z) <= - pw 106)%R.
Proof.
  assert (V : lane_R 3267887104 = (-100)%R).
  { unfold lane_R.
    change (decode 3267887104) with (S754_finite true 13107200 (-17)).
    rewrite (SFR_finite_neg true 13107200 17).
    change (cond_Zopp true 13107200) with (-13107200).
    change (2 ^ 17) with 131072. lra. }
  apply (proj1 vec_exp_float_leaves_range 3267887104);
    [lane_const | reflexivity | rewrite V; lra].
Defined.

End ExpEdges.

(** ** The range of the hyperbolic tangent *)

Section TanhRange.
Import Bits Lane Kernels.
Local Open Scope lane_scope.

(** X15.  Beyond 22 in magnitude, infinities included, the hyperbolic
    tangent is exactly [1.0] with the sign of the lane. *)
Theorem vec_tanh_float_saturates (x : lane) :
  lane_ok x -> flt tanh_maxlogf_2 (magnitude x) = true ->
  vec_tanh_float x = if sign_bit x then fneg gen_one else gen_one.
Proof.
  intros Hx Hbig.
  rewrite vec_tanh_float_branches by exact Hx. cbv zeta.
  rewrite Hbig, sign_mask_and.
  assert (H22 : lane_ok tanh_maxlogf_2) by lane_const.
  assert (Hsm : lane_ok tanh_limit_small) by lane_const.
  pose proof (magnitude_ok x) as Ha.
  apply flt_true_iff in Hbig; [|assumption|assumption].
  destruct Hbig as (_ & _ & Hk).
  replace (skey tanh_maxlogf_2) with 1102053376 in Hk by (vm_compute; reflexivity).
  rewrite (flt_false_of_le (magnitude x) tanh_limit_small Ha Hsm).
  - destruct (sign_bit x); reflexivity.
  - replace (skey tanh_limit_small) with 1059061760 by (vm_compute; reflexivity).
    lia.
Qed.

Lemma vec_tanh_float_saturates_witness :
  vec_tanh_float 4286578688 = fneg gen_one /\
  vec_tanh_float 1106247680 = gen_one.
Proof.
  split.
  - rewrite (vec_tanh_float_saturates 4286578688);
      [reflexivity | lane_const | vm_compute; reflexivity].
  - rewrite (vec_tanh_float_saturates 1106247680);
      [reflexivity | lane_const | vm_compute; reflexivity].
Defined.

(** No float lies strictly between [1] and [1 + 2^-23]: a difference
    [1 - q] with [q >= 0] does not round above one. *)
Lemma fsub_one_le_one (q : lane) :
  lane_ok q -> is_number q = true -> (0 <= lane_R q <= 1)%R ->
  is_number (gen_one -! q) = true /\ (lane_R (gen_one -! q) <= 1)%R.
Proof.
  intros Hq Nq Vq.
  assert (V1 : lane_R gen_one = 1%R) by (apply (lane_is_R _ 1); exact lane_is_one).
  assert (O1 : lane_ok gen_one /\ is_number gen_one = true)
    by (split; [lane_const | reflexivity]).
  assert (T : (10 ^ 29 = 100000000000000000000000000000)%R) by (simpl; lra).
  destruct (fsub_near gen_one q 1 (proj1 O1) Hq (proj2 O1) Nq) as [Nr Er].
  { rewrite V1. apply Rabs_le. lra. } { lra. }
  rewrite V1 in Er.
  pose proof (fsub_ok gen_one q) as Hr.
  generalize dependent (gen_one -! q). intros r Nr Er Hr.
  split; [exact Nr|].
  destruct (Rle_or_lt (lane_R r) 1) as [|Hgt]; [assumption|exfalso].
  assert (Hlt : flt gen_one r = true)
    by (apply flt_of_R; try tauto; rewrite V1; exact Hgt).
  apply flt_true_iff in Hlt; [|tauto|assumption].
  destruct Hlt as (_ & Hn & Hk).
  replace (skey gen_one) with 1065353216 in Hk by reflexivity.
  assert (Hnx : lane_ok 1065353217 /\ is_number 1065353217 = true)
    by (split; [lane_const | reflexivity]).
  assert (Hge : flt r 1065353217 = false).
  { apply flt_false_of_le; [assumption | tauto |].
    replace (skey 1065353217) with 1065353217 by reflexivity. lia. }
  pose proof (flt_false_R r _ Hr (proj1 Hnx) Nr (proj2 Hnx) Hge) as Hv.
  assert (Vn : lane_R 1065353217 = (8388609 / 8388608)%R).
  { unfold lane_R.
    change (decode 1065353217) with (S754_finite false 8388609 (-23)).
    rewrite (SFR_finite_neg false 8388609 23). reflexivity. }
  rewrite Vn in Hv. lra.
Qed.

(** The small branch stays below one. *)
Lemma tanh_small_upper (a : lane) :
  lane_ok a -> sign_bit a = false -> magnitude a <> 0 ->
  flt a tanh_limit_small = true ->
  is_number (tanh_small_factor (a *! a) *! a +! a) = true /\
  (lane_R (tanh_small_factor (a *! a) *! a +! a) <= 1)%R.
Proof.
  intros Ha Hs Hm Hlt.
  lane_value tanh_limit_small. destruct CN as [Hl Nl].
  assert (Na : is_number a = true).
  { apply (is_number_flt a tanh_limit_small); try assumption.
    vm_compute. discriminate. }
  pose proof (flt_R a _ Ha Hl Na Nl Hlt) as Hup. rewrite CV in Hup.
  pose proof (lane_R_positive a Ha Na Hs Hm) as Hlo.
  pose proof (pw_pos (-149)) as Hu.
  assert (Ba : (Rabs (lane_R a) <= 625 / 1000)%R) by (apply Rabs_le; lra).
  assert (T : (10 ^ 29 = 100000000000000000000000000000)%R) by (simpl; lra).
  assert (T' : (10 ^ 40 = 10000000000000000000000000000000000000000)%R)
    by (simpl; lra).
  destruct (fmul_mag a a _ _ (391 / 1000) Ha Ha Na Na Ba Ba) as [Nq Bq];
    try lra.
  destruct (tanh_small_factor_bound (a *! a) (fmul_ok _ _) Nq Bq) as [Nw Bw].
  assert (Hw : lane_ok (tanh_small_factor (a *! a)))
    by (unfold tanh_small_factor; apply fmul_ok).
  generalize dependent (tanh_small_factor (a *! a)). intros w Nw Bw Hw.
  destruct (fmul_mag w a _ _ (2 / 10) Hw Ha Nw Na Bw Ba) as [Nt Bt]; try lra.
  pose proof (fmul_ok w a) as Ht.
  generalize dependent (w *! a). intros t Nt Bt Ht.
  destruct (fadd_mag t a _ _ 1 Ht Ha Nt Na Bt Ba) as [Nr Br]; try lra.
  split; [exact Nr|]. apply Rabs_bound in Br. lra.
Qed.

(** The medium branch stays below one. *)
Lemma tanh_medium_upper (a : lane) :
  lane_ok a -> is_number a = true -> (625 / 1000 <= lane_R a <= 22)%R ->
  is_number (tanh_medium a) = true /\ (lane_R (tanh_medium a) <= 1)%R.
Proof.
  intros Ha Na Va. unfold tanh_medium. cbv zeta.
  assert (T : (10 ^ 29 = 100000000000000000000000000000)%R) by (simpl; lra).
  destruct (fadd_near a a 44 Ha Ha Na Na) as [N2 E2].
  { apply Rabs_le. lra. } { lra. }
  pose proof (fadd_ok a a) as H2.
  assert (V2 : (6 / 5 <= lane_R (a +! a) <= 44001 / 1000)%R) by lra.
  clear E2.
  generalize dependent (a +! a). intros a2 N2 H2 V2.
  destruct (vec_exp_tanh_float_value a2 H2 N2 V2) as (HE & NE & VE).
  generalize dependent (vec_exp_tanh_float a2). intros E HE NE VE.
  assert (V1 : lane_R gen_one = 1%R) by (apply (lane_is_R _ 1); exact lane_is_one).
  assert (O1 : lane_ok gen_one /\ is_number gen_one = true)
    by (split; [lane_const | reflexivity]).
  assert (P1 : (2 <= pw 66)%R).
  { pose proof (pw_le 1 66 ltac:(lia)) as H.
    replace (pw 1) with 2%R in H by (rewrite pw_IZR by lia; reflexivity).
    exact H. }
  assert (P2 : pw 67 = (2 * pw 66)%R) by (apply (pw_succ 66)).
  assert (P3 : (pw 67 < pw 127)%R).
  { pose proof (pw_le (67 + 1) 127 ltac:(lia)) as H. rewrite pw_succ in H.
    pose proof (pw_pos 67). lra. }
  destruct (fadd_model E gen_one HE (proj1 O1) NE (proj2 O1)) as [Ny Ey].
  { rewrite V1, Rabs_pos_eq by lra. lra. }
  rewrite V1, (Rabs_pos_eq (lane_R E + 1)) in Ey by lra.
  apply Rabs_bound in Ey.
  pose proof (fadd_ok E gen_one) as Hy.
  assert (Vy : (29 / 10 <= lane_R (E +! gen_one) <= pw 67)%R) by lra.
  clear Ey.
  generalize dependent (E +! gen_one). intros y Ny Hy Vy.
  destruct (fdiv_two_bound y Hy Ny Vy) as [Nq Vq].
  pose proof (fdiv_ok tanh_two y) as Hq.
  generalize dependent (tanh_two /! y). intros q Nq Vq Hq.
  apply fsub_one_le_one; [assumption | assumption | lra].
Qed.

(** At a positive pattern that is not a NaN the kernel gives a number of
    at most one. *)
Lemma vec_tanh_float_upper (a : lane) :
  lane_ok a -> sign_bit a = false -> is_nan a = false -> magnitude a <> 0 ->
  is_number (vec_tanh_float a) = true /\ (lane_R (vec_tanh_float a) <= 1)%R.
Proof.
  intros Ha Hs Hn Hm.
  assert (V1 : lane_R gen_one = 1%R) by (apply (lane_is_R _ 1); exact lane_is_one).
  rewrite vec_tanh_float_branches by exact Ha. cbv zeta.
  rewrite (sign_clear_magnitude a Ha Hs).
  destruct (flt a tanh_limit_small) eqn:Hsmall.
  - apply tanh_small_upper; assumption.
  - rewrite sign_mask_and, Hs.
    replace (vor (if flt tanh_maxlogf_2 a then gen_one else tanh_medium a) 0)
      with (if flt tanh_maxlogf_2 a then gen_one else tanh_medium a)
      by (unfold vor; symmetry; apply Z.lor_0_r).
    destruct (flt tanh_maxlogf_2 a) eqn:Hbig.
    + split; [reflexivity | rewrite V1; lra].
    + lane_value tanh_limit_small. lane_value tanh_maxlogf_2.
      assert (Na : is_number a = true).
      { apply is_number_below; try assumption.
        rewrite flt_skey in Hbig by tauto.
        rewrite Hn in Hbig. cbn [negb andb] in Hbig.
        replace (is_nan tanh_maxlogf_2) with false in Hbig by reflexivity.
        cbn [negb andb] in Hbig. apply Z.ltb_ge in Hbig.
        destruct (lane_sign_cases a Ha) as [(_ & _ & K)|(K & _)];
          [|congruence].
        rewrite K in Hbig.
        replace (skey tanh_maxlogf_2) with 1102053376 in Hbig
          by (vm_compute; reflexivity).
        lia. }
      apply tanh_medium_upper; try assumption.
      pose proof (flt_false_R a _ Ha (proj1 CN) Na (proj2 CN) Hsmall) as L1.
      pose proof (flt_false_R _ a (proj1 CN0) Ha (proj2 CN0) Na Hbig) as L2.
      rewrite CV in L1. rewrite CV0 in L2. lra.
Qed.

(** X16.  On every lane that is neither a NaN nor a zero the hyperbolic
    tangent is a number with the sign of the lane, different from zero
    and at most one in magnitude. *)
Theorem vec_tanh_float_range (x : lane) :
  lane_ok x -> is_nan x = false -> magnitude x <> 0 ->
  is_number (vec_tanh_float x) = true /\
  sign_bit (vec_tanh_float x) = sign_bit x /\
  (0 < Rabs (lane_R (vec_tanh_float x)) <= 1)%R.
Proof.
  intros Hx Hn Hm.
  pose proof (magnitude_ok x) as Ha.
  pose proof (sign_bit_magnitude x) as Hs.
  assert (Hna : is_nan (magnitude x) = false)
    by (rewrite is_nan_magnitude; exact Hn).
  assert (Hma : magnitude (magnitude x) <> 0)
    by (rewrite magnitude_idem; exact Hm).
  pose proof (vec_tanh_float_positive _ Ha Hs Hna Hma) as Hpos.
  destruct (vec_tanh_float_upper _ Ha Hs Hna Hma) as [Nr Ur].
  assert (Hr : lane_ok (vec_tanh_float (magnitude x))).
  { rewrite vec_tanh_float_branches by exact Ha. cbv zeta.
    destruct (flt _ _); [apply fadd_ok|].
    apply vor_ok; [|apply vand_ok_r; lane_const].
    destruct (flt _ _); [lane_const | unfold tanh_medium; apply fsub_ok]. }
  destruct (positive_lane_sign _ Hr Hpos) as (Hsr & Hmr & _).
  assert (Lr : (0 < lane_R (vec_tanh_float (magnitude x)))%R).
  { pose proof (lane_R_positive _ Hr Nr Hsr Hmr) as L.
    pose proof (pw_pos (-149)). lra. }
  destruct (lane_sign_cases x Hx) as [(Hsx & Hxm & _)|(Hsx & _ & _)].
  - rewrite <- Hxm in *. rewrite Hsx.
    split; [exact Nr|]. split; [exact Hsr|].
    rewrite Rabs_pos_eq by lra. lra.
  - pose proof (fneg_negative x Hx Hsx) as Hf.
    assert (Hxf : x = fneg (magnitude x))
      by (rewrite <- Hf; symmetry; apply fneg_involutive).
    assert (Ht : vec_tanh_float x = fneg (vec_tanh_float (magnitude x))).
    { rewrite Hxf at 1. apply (vec_tanh_float_odd _ Ha Hna Hma). }
    rewrite Ht.
    rewrite is_number_fneg, sign_bit_fneg, lane_R_fneg, Hsr, Hsx, Rabs_Ropp.
    split; [exact Nr|]. split; [reflexivity|].
    rewrite Rabs_pos_eq by lra. lra.
Qed.

Lemma vec_tanh_float_range_witness :
  is_number (vec_tanh_float 3204448256) = true /\
  sign_bit (vec_tanh_float 3204448256) = sign_bit 3204448256 /\
  (0 < Rabs (lane_R (vec_tanh_float 3204448256%Z)) <= 1)%R.
Proof.
  apply (vec_tanh_float_range 3204448256);
    [lane_const | vm_compute; reflexivity | vm_compute; discriminate].
Defined.

End TanhRange.

(** ** The signed square root *)

Section SignedRoot.
Import Bits Lane Kernels.
Local Open Scope lane_scope.

Lemma pack_clear_bound (E F : Z) : 0 <= pack false E F < 2147483648.
Proof.
  unfold pack, sign_word.
  assert (H1 : 0 <= Z.land E 255 < 256).
  { change 255 with (Z.ones 8). rewrite Z.land_ones by lia.
    apply Z.mod_pos_bound. lia. }
  assert (H2 : 0 <= Z.land F 8388607 < 8388608).
  { change 8388607 with (Z.ones 23). rewrite Z.land_ones by lia.
    apply Z.mod_pos_bound. lia. }
  lia.
Qed.

Lemma fields_unique_sign (s : bool) (r : Z) :
  0 <= r < 2147483648 ->
  sign_bit (sign_word s + r) = s /\ magnitude (sign_word s + r) = r.
Proof.
  intros Hr.
  assert (Hok : lane_ok (sign_word s + r))
    by (unfold lane_ok, lane_mod, sign_word; destruct s; lia).
  rewrite (sign_bit_ge _ Hok). unfold magnitude, sign_word.
  destruct s.
  - split; [apply Z.leb_le; lia|].
    rewrite Z.add_comm, <- (Z.mul_1_l 2147483648) at 1.
    rewrite Z.mod_add by lia. apply Z.mod_small. exact Hr.
  - split; [apply Z.leb_gt; lia|].
    rewrite Z.add_0_l. apply Z.mod_small. exact Hr.
Qed.

(** The square root never sets the sign bit of a lane whose sign bit is
    clear. *)
Lemma fsqrt_sign_clear (a : lane) :
  lane_ok a -> sign_bit a = false -> 0 <= fsqrt a < 2147483648.
Proof.
  intros Ha Hs. unfold fsqrt.
  assert (Hd : decode a = S754_nan \/ decode a = S754_zero false \/
               decode a = S754_infinity false \/
               exists m e, decode a = S754_finite false m e).
  { destruct (is_nan a) eqn:Hn.
    - left. apply is_nan_decode; assumption.
    - right. rewrite <- Hs.
      destruct (decode_shape a Ha Hn) as [(D & _)|[(D & _)|(p & e & D & _)]];
        eauto. }
  destruct Hd as [D|[D|[D|(m & e & D)]]]; rewrite D; cbn [SFsqrt].
  - vm_compute. split; [discriminate | reflexivity].
  - vm_compute. split; [discriminate | reflexivity].
  - vm_compute. split; [discriminate | reflexivity].
  - destruct (SFsqrt_core_binary prec32 emax32 (Zpos m) e) as [[mz ez] lz].
    unfold binary_round_aux.
    destruct (shr_fexp prec32 emax32 mz ez lz) as [mrs' e'].
    destruct (shr_fexp prec32 emax32 _ e' loc_Exact) as [mrs'' e''].
    destruct (shr_m mrs'') as [|p|p].
    + vm_compute. split; [discriminate | reflexivity].
    + destruct (e'' <=? emax32 - prec32).
      * unfold encode. destruct (Zpos p <? 8388608); apply pack_clear_bound.
      * vm_compute. split; [discriminate | reflexivity].
    + vm_compute. split; [discriminate | reflexivity].
Qed.

(** X17.  The signed square root is the square root of the magnitude with
    the sign bit of the lane put back: it commutes with negation on every
    lane, and its sign bit is that of the lane. *)
Theorem vec_signed_sqrt_fneg (x : lane) :
  lane_ok x ->
  vec_signed_sqrt (fneg x) = fneg (vec_signed_sqrt x) /\
  sign_bit (vec_signed_sqrt x) = sign_bit x /\
  magnitude (vec_signed_sqrt x) = fsqrt (magnitude x).
Proof.
  intros Hx.
  assert (Hshape : forall y, lane_ok y ->
            vec_signed_sqrt y = sign_word (sign_bit y) + fsqrt (magnitude y)).
  { intros y Hy. unfold vec_signed_sqrt. cbv zeta.
    replace (vxor y (vand y gen_sign_mask)) with (magnitude y)
      by (rewrite <- (vxor_sign_abs y Hy); apply Z.lxor_comm).
    pose proof (fsqrt_sign_clear (magnitude y) (magnitude_ok y)
                  (sign_bit_magnitude y)) as Hr.
    rewrite sign_mask_and. unfold vor.
    destruct (sign_bit y); cbn [sign_word].
    - rewrite lor_disjoint_add; [reflexivity|].
      rewrite Z.land_comm. apply land_small_sign. exact Hr.
    - apply Z.lor_0_l. }
  pose proof (fsqrt_sign_clear (magnitude x) (magnitude_ok x)
                (sign_bit_magnitude x)) as Hr.
  rewrite (Hshape (fneg x) (fneg_ok x Hx)), (Hshape x Hx).
  rewrite magnitude_fneg, sign_bit_fneg.
  split; [|split].
  - symmetry. apply fneg_sign_word. exact Hr.
  - destruct (fields_unique_sign (sign_bit x) (fsqrt (magnitude x)) Hr) as [H _].
    exact H.
  - destruct (fields_unique_sign (sign_bit x) (fsqrt (magnitude x)) Hr) as [_ H].
    exact H.
Qed.

Lemma vec_signed_sqrt_fneg_witness :
  vec_signed_sqrt 3229614080 = 3221225472 /\
  vec_signed_sqrt (fneg 3229614080) = fneg (vec_signed_sqrt 3229614080).
Proof.
  split; [vm_compute; reflexivity|].
  apply (vec_signed_sqrt_fneg 3229614080). lane_const.
Defined.

End SignedRoot.

(** ** The power kernel *)

Section Power.
Import Bits Lane Kernels.
Local Open Scope lane_scope.

(** X18.  With exponent zero of either sign the power is exactly [1.0]
    whenever the logarithm kernel gives a number for the base. *)
Theorem vec_pow_zero_exponent (x : lane) :
  is_number (vec_log_float x) = true ->
  vec_pow x gen_zero = gen_one /\ vec_pow x (fneg gen_zero) = gen_one.
Proof.
  intros N. unfold vec_pow. cbv zeta.
  generalize dependent (vec_log_float x). intros l N.
  unfold fmul.
  change (decode gen_zero) with (S754_zero false).
  change (decode (fneg gen_zero)) with (S754_zero true).
  destruct (is_number_cases l N) as [(s & D)|(s & m & e & D)]; rewrite D;
    cbn [SFmul]; destruct s; split; vm_compute; reflexivity.
Qed.

Lemma vec_pow_zero_exponent_witness :
  vec_pow 1073741824 gen_zero = gen_one /\
  vec_pow 1073741824 (fneg gen_zero) = gen_one.
Proof.
  apply (vec_pow_zero_exponent 1073741824). vm_compute. reflexivity.
Defined.

End Power.

(** ** Signed powers *)

Section SignedPower.
Import Bits Lane Kernels.
Local Open Scope lane_scope.

(** Between [-86.9] and [88.3] the exponential is a positive pattern. *)
Lemma vec_exp_float_positive (x : lane) :
  lane_ok x -> is_number x = true ->
  (-869 / 10 <= lane_R x <= 883 / 10)%R ->
  positive_lane (vec_exp_float x).
Proof.
  intros Hx Nx Vx.
  rewrite (exp_bounds_inside x Hx Nx) by lra.
  destruct (exp_approx_form x Hx Nx ltac:(lra))
    as (p & n & -> & Hp & Np & Vp & Hnear).
  lane_value exp_log2e. rewrite CV in Hnear.
  apply Rabs_bound in Hnear.
  assert (Hn : -126 < n < 128) by (split; apply lt_IZR; lra).
  destruct (expo_field_half_two p Hp Np ltac:(lra)) as (E & F & Ep & HE & HF).
  pose proof (ldexp_float_ok p (wrap n) Hp) as Hr.
  revert Hr. rewrite Ep.
  destruct (ldexp_float_normal false E F n) as [Nr Vr]; try lia.
  intros Hr. apply positive_of_value; [exact Hr | exact Nr |].
  rewrite Vr, <- Ep. pose proof (pw_pos n). nra.
Qed.

(** X19.  While the product [y * log|x|] handed to the exponential lies in
    [[-86.9, 88.3]], the signed power has the sign bit of its base and
    commutes with negation of the base, bit for bit. *)
Theorem vec_signed_pow_sign (x y : lane) :
  lane_ok x ->
  is_number (y *! vec_log_float (magnitude x)) = true ->
  (-869 / 10 <= lane_R (y *! vec_log_float (magnitude x)) <= 883 / 10)%R ->
  sign_bit (vec_signed_pow x y) = sign_bit x /\
  magnitude (vec_signed_pow x y) = vec_pow (magnitude x) y /\
  vec_signed_pow (fneg x) y = fneg (vec_signed_pow x y).
Proof.
  intros Hx Nt Vt.
  assert (Hpos : positive_lane (vec_pow (magnitude x) y)).
  { unfold vec_pow. apply vec_exp_float_positive;
      [apply fmul_ok | exact Nt | exact Vt]. }
  assert (Hok : lane_ok (vec_pow (magnitude x) y)).
  { unfold vec_pow, vec_exp_float. cbv zeta.
    apply select_ok; [|apply gen_zero_ok].
    apply select_ok; [apply exp_approx_ok | apply max_float_ok]. }
  destruct (positive_lane_sign _ Hok Hpos) as (_ & _ & Hr).
  assert (Habs : forall v, lane_ok v ->
            vxor v (vand v gen_sign_mask) = magnitude v).
  { intros v Hv. rewrite <- (vxor_sign_abs v Hv). apply Z.lxor_comm. }
  unfold vec_signed_pow. cbv zeta.
  rewrite (Habs x Hx), (Habs (fneg x) (fneg_ok x Hx)), magnitude_fneg.
  clear Hpos Hok Nt Vt Habs.
  generalize dependent (vec_pow (magnitude x) y). intros P Hr.
  assert (Hshape : forall v,
            vor (vand v gen_sign_mask) P = sign_word (sign_bit v) + P).
  { intros v. rewrite sign_mask_and. unfold vor.
    destruct (sign_bit v); cbn [sign_word].
    - change gen_sign_mask with 2147483648.
      apply lor_disjoint_add.
      rewrite Z.land_comm. apply land_small_sign. exact Hr.
    - apply Z.lor_0_l. }
  rewrite !Hshape, sign_bit_fneg.
  destruct (fields_unique_sign (sign_bit x) P Hr) as [H1 H2].
  split; [exact H1|]. split; [exact H2|].
  symmetry. apply fneg_sign_word. exact Hr.
Qed.

Lemma vec_signed_pow_sign_witness :
  sign_bit (vec_signed_pow 3221225472 1077936128) = sign_bit 3221225472 /\
  magnitude (vec_signed_pow 3221225472 1077936128) =
    vec_pow (magnitude 3221225472) 1077936128 /\
  vec_signed_pow (fneg 3221225472) 1077936128 =
    fneg (vec_signed_pow 3221225472 1077936128).
Proof.
  assert (V : lane_R (1077936128 *! vec_log_float (magnitude 3221225472)) =
              (8721810 / 4194304)%R).
  { unfold lane_R.
    replace (decode (1077936128 *! vec_log_float (magnitude 3221225472)))
      with (S754_finite false 8721810 (-22)) by (vm_compute; reflexivity).
    rewrite (SFR_finite_neg false 8721810 22). reflexivity. }
  apply (vec_signed_pow_sign 3221225472 1077936128);
    [lane_const | vm_compute; reflexivity | rewrite V; lra].
Defined.

End SignedPower.

(** ** Range of the sine and cosine kernels *)

Section Quadrants.
Import Bits Lane Kernels.
Local Open Scope lane_scope.

(** The shapes a sign-clear pattern decodes to. *)
Lemma decode_sign_clear (a : lane) :
  lane_ok a -> sign_bit a = false ->
  decode a = S754_nan \/ decode a = S754_zero false \/
  decode a = S754_infinity false \/
  exists m e, decode a = S754_finite false m e.
Proof.
  intros Ha Hs.
  destruct (is_nan a) eqn:Hn.
  - left. apply is_nan_decode; assumption.
  - right. rewrite <- Hs.
    destruct (decode_shape a Ha Hn) as [(D & _)|[(D & _)|(p & e & D & _)]];
      eauto.
Qed.

Lemma encode_round_clear (mz ez : Z) (lz : location) :
  0 <= encode (binary_round_aux prec32 emax32 false mz ez lz) < 2147483648.
Proof.
  unfold binary_round_aux.
  destruct (shr_fexp prec32 emax32 mz ez lz) as [mrs' e'].
  destruct (shr_fexp prec32 emax32 _ e' loc_Exact) as [mrs'' e''].
  destruct (shr_m mrs'') as [|p|p].
  - vm_compute. split; [discriminate | reflexivity].
  - destruct (e'' <=? emax32 - prec32).
    + unfold encode. destruct (Zpos p <? 8388608); apply pack_clear_bound.
    + vm_compute. split; [discriminate | reflexivity].
  - vm_compute. split; [discriminate | reflexivity].
Qed.

(** A product of two sign-clear lanes, and the square of any lane, has a
    clear sign bit. *)
Lemma fmul_sign_clear (a b : lane) :
  lane_ok a -> lane_ok b -> sign_bit a = false -> sign_bit b = false ->
  0 <= a *! b < 2147483648.
Proof.
  intros Ha Hb Sa Sb. unfold fmul.
  destruct (decode_sign_clear a Ha Sa) as [D|[D|[D|(m & e & D)]]];
  destruct (decode_sign_clear b Hb Sb) as [D'|[D'|[D'|(m' & e' & D')]]];
  rewrite D, D'; cbn [SFmul xorb];
  first [ apply encode_round_clear
        | vm_compute; split; [discriminate | reflexivity] ].
Qed.

Lemma fmul_self_sign_clear (b : lane) : 0 <= b *! b < 2147483648.
Proof.
  unfold fmul.
  destruct (decode b) as [s|s| |s m e]; cbn [SFmul].
  - destruct s; vm_compute; split; (discriminate || reflexivity).
  - destruct s; vm_compute; split; (discriminate || reflexivity).
  - vm_compute; split; (discriminate || reflexivity).
  - replace (xorb s s) with false by (destruct s; reflexivity).
    apply encode_round_clear.
Qed.

(** A number with a clear sign bit is not below zero. *)
Lemma lane_R_sign_clear (r : lane) :
  0 <= r < 2147483648 -> (0 <= lane_R r)%R.
Proof.
  intros Hr.
  assert (Hok : lane_ok r) by (unfold lane_ok, lane_mod; lia).
  assert (Hs : sign_bit r = false).
  { rewrite (sign_bit_ge r Hok). apply Z.leb_gt. lia. }
  unfold lane_R.
  destruct (decode_sign_clear r Hok Hs) as [D|[D|[D|(m & e & D)]]];
    rewrite D; cbn [SFR cond_Zopp]; try lra.
  pose proof (powerRZ_lt 2 e ltac:(lra)).
  assert (0 < IZR (Zpos m))%R by (apply IZR_lt; lia).
  nra.
Qed.

(** Truncation of a number that is not below zero is its integer part. *)
Lemma truncate_floor (a : lane) :
  lane_ok a -> is_number a = true -> (0 <= lane_R a < 2147483648)%R ->
  exists k : Z, truncate_to_int a = k /\ 0 <= k < 2147483648 /\
                (IZR k <= lane_R a < IZR k + 1)%R.
Proof.
  intros Ha Na [Hlo Hhi].
  destruct (lane_R_number_cases a Ha Na) as [(Hz & s & D)|(s & m & e & D & _ & V)].
  - exists 0. unfold truncate_to_int. rewrite D, Hz.
    split; [reflexivity|]. split; [lia|]. lra.
  - pose proof (pw_pos e) as Hp.
    assert (Hm : (0 < IZR (Zpos m))%R) by (apply IZR_lt; lia).
    destruct s; [rewrite V in Hlo; nra|].
    rewrite Rmult_1_l in V.
    unfold truncate_to_int. rewrite D.
    destruct e as [|k|k].
    + assert (Hv : lane_R a = IZR (Zpos m)).
      { rewrite V. unfold pw. simpl. lra. }
      rewrite Hv in Hhi. apply lt_IZR in Hhi.
      exists (Zpos m).
      destruct (Z.ltb_spec (Zpos m) 2147483648); [|lia].
      split; [reflexivity|]. split; [lia|]. rewrite Hv. lra.
    + rewrite Z.shiftl_mul_pow2 by lia.
      assert (Hv : lane_R a = IZR (Zpos m * 2 ^ Zpos k)).
      { rewrite V, mult_IZR, <- pw_IZR by lia. reflexivity. }
      rewrite Hv in Hhi. apply lt_IZR in Hhi.
      exists (Zpos m * 2 ^ Zpos k).
      destruct (Z.ltb_spec (Zpos m * 2 ^ Zpos k) 2147483648); [|lia].
      pose proof (pow2_pos (Zpos k) ltac:(lia)).
      split; [reflexivity|]. split; [nia|]. rewrite Hv. lra.
    + rewrite Z.shiftr_div_pow2 by lia.
      change (- Zneg k) with (Zpos k).
      pose proof (pow2_pos (Zpos k) ltac:(lia)) as Hpk.
      pose proof (Z.div_mod (Zpos m) (2 ^ Zpos k) ltac:(lia)) as Hdm.
      pose proof (Z.mod_pos_bound (Zpos m) (2 ^ Zpos k) Hpk) as Hmb.
      set (q := Zpos m / 2 ^ Zpos k) in *.
      generalize dependent (Zpos m mod 2 ^ Zpos k). intros r Hdm Hmb.
      assert (P : (pw (Zneg k) * IZR (2 ^ Zpos k) = 1)%R).
      { rewrite <- pw_IZR by lia. rewrite <- pw_add.
        replace (Zneg k + Zpos k) with 0 by lia. reflexivity. }
      assert (Hq0 : 0 <= q) by (apply Z.div_pos; lia).
      assert (HPk : (0 < IZR (2 ^ Zpos k))%R) by (apply IZR_lt; lia).
      assert (Hv : (lane_R a * IZR (2 ^ Zpos k) = IZR (Zpos m))%R).
      { rewrite V. rewrite Rmult_assoc, P. lra. }
      assert (Hr : (0 <= IZR r < IZR (2 ^ Zpos k))%R)
        by (split; [apply IZR_le | apply IZR_lt]; lia).
      assert (Hqv : (IZR q <= lane_R a < IZR q + 1)%R).
      { rewrite Hdm in Hv. rewrite plus_IZR, mult_IZR in Hv.
        split.
        - apply (Rmult_le_reg_r (IZR (2 ^ Zpos k))); [exact HPk|]. nra.
        - apply (Rmult_lt_reg_r (IZR (2 ^ Zpos k))); [exact HPk|]. nra. }
      assert (Hq1 : q < 2147483648).
      { apply lt_IZR. lra. }
      exists q.
      destruct (Z.ltb_spec q 2147483648); [|lia].
      split; [reflexivity|]. split; [lia | exact Hqv].
Qed.

(** The quadrant index [(k + 1) & ~1]: the even integer among [k] and
    [k + 1]. *)
Lemma quadrant_index (k : Z) :
  0 <= k < 2147483647 ->
  iand (iadd k (int_vec 1)) (int_vec (Z.lnot 1)) = 2 * ((k + 1) / 2).
Proof.
  intros Hk. unfold iand, iadd, int_vec.
  change (wrap 1) with 1. change (wrap (Z.lnot 1)) with 4294967294.
  unfold wrap, lane_mod. rewrite Z.mod_small by lia.
  set (x := k + 1) in *.
  pose proof (Z.div_mod x 2 ltac:(lia)) as Hdm.
  pose proof (Z.mod_pos_bound x 2 ltac:(lia)) as Hmb.
  apply Z.bits_inj'. intros i Hi.
  rewrite Z.land_spec.
  destruct (Z.eq_dec i 0) as [->|Hi0].
  - rewrite Z.testbit_even_0. apply andb_false_r.
  - replace i with (Z.succ (i - 1)) at 3 by lia.
    rewrite Z.testbit_even_succ by lia.
    replace (Z.testbit x i) with (Z.testbit (x / 2) (i - 1)).
    + destruct (Z.ltb_spec i 32).
      * replace (Z.testbit 4294967294 i) with true; [apply andb_true_r|].
        change 4294967294 with (2 * Z.ones 31).
        replace i with (Z.succ (i - 1)) by lia.
        rewrite Z.testbit_even_succ by lia.
        symmetry. apply Z.ones_spec_low. lia.
      * assert (Hx : x / 2 < 2 ^ 31)
          by (apply Z.div_lt_upper_bound; change (2 ^ 31) with 2147483648; lia).
        rewrite (Z.bits_above_log2 (x / 2) (i - 1)).
        -- reflexivity.
        -- apply Z.div_pos; lia.
        -- destruct (Z.eq_dec (x / 2) 0) as [H0|H0];
             [rewrite H0; cbn; lia|].
           assert (Z.log2 (x / 2) < 31)
             by (apply Z.log2_lt_pow2; [apply Z.div_str_pos; lia | exact Hx]).
           lia.
    + rewrite <- Z.div2_div. rewrite Z.div2_spec.
      rewrite Z.shiftr_spec by lia. f_equal. lia.
Qed.

End Quadrants.

Section SinCosPoly.
Import Bits Lane Kernels.
Local Open Scope lane_scope.

(** A sum [u + 1] with [u] at most a tiny positive number does not round
    above one. *)
Lemma fadd_one_le_one (u : lane) :
  lane_ok u -> is_number u = true ->
  (- 1 <= lane_R u <= 1 / 10 ^ 30)%R ->
  is_number (u +! one_f) = true /\
  ((1 + lane_R u) * (1 - / 16777216) <= lane_R (u +! one_f) <= 1)%R.
Proof.
  intros Hu Nu Vu.
  assert (V1 : lane_R one_f = 1%R) by (apply (lane_is_R _ 1); exact lane_is_one).
  assert (O1 : lane_ok one_f /\ is_number one_f = true)
    by (split; [lane_const | reflexivity]).
  assert (T : (10 ^ 30 = 1000000000000000000000000000000)%R) by (simpl; lra).
  pose proof pw127_large as Hbig.
  assert (Hs : (0 <= lane_R u + 1)%R) by lra.
  destruct (fadd_model u one_f Hu (proj1 O1) Nu (proj2 O1)) as [Nr Er].
  { rewrite V1, Rabs_pos_eq by lra. lra. }
  rewrite V1, (Rabs_pos_eq (lane_R u + 1)) in Er by lra.
  apply Rabs_bound in Er.
  pose proof (fadd_ok u one_f) as Hr.
  generalize dependent (u +! one_f). intros r Nr Er Hr.
  split; [exact Nr|]. split; [lra|].
  destruct (Rle_or_lt (lane_R r) 1) as [|Hgt]; [assumption|exfalso].
  assert (Hlt : flt one_f r = true)
    by (apply flt_of_R; try tauto; rewrite V1; exact Hgt).
  apply flt_true_iff in Hlt; [|tauto|assumption].
  destruct Hlt as (_ & Hn & Hk).
  replace (skey one_f) with 1065353216 in Hk by reflexivity.
  assert (Hnx : lane_ok 1065353217 /\ is_number 1065353217 = true)
    by (split; [lane_const | reflexivity]).
  assert (Hge : flt r 1065353217 = false).
  { apply flt_false_of_le; [assumption | tauto |].
    replace (skey 1065353217) with 1065353217 by reflexivity. lia. }
  pose proof (flt_false_R r _ Hr (proj1 Hnx) Nr (proj2 Hnx) Hge) as Hv.
  assert (Vn : lane_R 1065353217 = (8388609 / 8388608)%R).
  { unfold lane_R.
    change (decode 1065353217) with (S754_finite false 8388609 (-23)).
    rewrite (SFR_finite_neg false 8388609 23). reflexivity. }
  rewrite Vn in Hv. lra.
Qed.

(** The cosine polynomial on a squared argument of at most [0.625]. *)
Lemma cos_poly_bound (z : lane) :
  lane_ok z -> is_number z = true -> (0 <= lane_R z <= 625 / 1000)%R ->
  is_number (((cos_c0 *! z -! cos_c1) *! z +! cos_c2) *! z *! z
             -! cos_half *! z +! one_f) = true /\
  (0 <= lane_R (((cos_c0 *! z -! cos_c1) *! z +! cos_c2) *! z *! z
                -! cos_half *! z +! one_f) <= 1)%R.
Proof.
  intros Hz Nz Vz.
  lane_value cos_c0. lane_value cos_c1. lane_value cos_c2. lane_value cos_half.
  assert (T : (10 ^ 29 = 100000000000000000000000000000)%R) by (simpl; lra).
  assert (T' : (10 ^ 40 = 10000000000000000000000000000000000000000)%R)
    by (simpl; lra).
  assert (T'' : (10 ^ 30 = 1000000000000000000000000000000)%R) by (simpl; lra).
  pose proof eta_small as He. pose proof (pw_pos (-150)) as Hep.
  pose proof pw127_large as Hbig.
  assert (Bz : (Rabs (lane_R z) <= 625 / 1000)%R) by (apply Rabs_le; lra).
  destruct (fmul_mag cos_c0 z (25 / 1000000) (625 / 1000) (2 / 100000)
              (proj1 CN) Hz (proj2 CN) Nz) as [N1 B1]; try lra.
  { rewrite CV. apply Rabs_le. lra. }
  pose proof (fmul_ok cos_c0 z) as H1.
  generalize dependent (cos_c0 *! z). intros n1 N1 B1 H1.
  apply Rabs_bound in B1.
  destruct (fsub_near n1 cos_c1 (15 / 10000) H1 (proj1 CN0) N1 (proj2 CN0))
    as [N2 E2].
  { rewrite CV0. apply Rabs_le. lra. } { lra. }
  rewrite CV0 in E2.
  pose proof (fsub_ok n1 cos_c1) as H2.
  assert (B2 : (Rabs (lane_R (n1 -! cos_c1)) <= 15 / 10000)%R)
    by (apply Rabs_le; lra).
  clear E2 B1.
  generalize dependent (n1 -! cos_c1). intros b1 N2 H2 B2.
  destruct (fmul_mag b1 z (15 / 10000) (625 / 1000) (1 / 1000)
              H2 Hz N2 Nz B2 Bz) as [N3 B3]; try lra.
  pose proof (fmul_ok b1 z) as H3.
  generalize dependent (b1 *! z). intros n2 N3 B3 H3.
  apply Rabs_bound in B3.
  destruct (fadd_near n2 cos_c2 (43 / 1000) H3 (proj1 CN1) N3 (proj2 CN1))
    as [N4 E4].
  { rewrite CV1. apply Rabs_le. lra. } { lra. }
  rewrite CV1 in E4.
  pose proof (fadd_ok n2 cos_c2) as H4.
  assert (B4 : (405 / 10000 <= lane_R (n2 +! cos_c2) <= 428 / 10000)%R) by lra.
  clear E4 B3.
  generalize dependent (n2 +! cos_c2). intros b2 N4 H4 B4.
  (* n3 = b2 * z *)
  assert (P3 : (0 <= lane_R b2 * lane_R z <= 428 / 10000 * lane_R z)%R) by nra.
  destruct (fmul_model b2 z H4 Hz N4 Nz) as [N5 E5].
  { rewrite Rabs_pos_eq by lra. lra. }
  rewrite (Rabs_pos_eq (lane_R b2 * lane_R z)) in E5 by lra.
  apply Rabs_bound in E5.
  pose proof (fmul_ok b2 z) as H5.
  assert (B5 : (- pw (-150) <= lane_R (b2 *! z)
                <= 429 / 10000 * lane_R z + pw (-150))%R) by lra.
  clear E5 P3.
  generalize dependent (b2 *! z). intros n3 N5 H5 B5.
  (* A = n3 * z *)
  assert (P4 : (- pw (-150) <= lane_R n3 * lane_R z
                <= 269 / 10000 * lane_R z + pw (-150))%R).
  { split; nra. }
  assert (R4 : (Rabs (lane_R n3 * lane_R z)
                <= 269 / 10000 * lane_R z + pw (-150))%R)
    by (apply Rabs_le; lra).
  destruct (fmul_model n3 z H5 Hz N5 Nz) as [N6 E6]; [lra|].
  apply Rabs_bound in E6.
  pose proof (fmul_ok n3 z) as H6.
  assert (B6 : (- (1 / 100) <= lane_R (n3 *! z)
                <= 270 / 10000 * lane_R z + 3 * pw (-150))%R) by lra.
  clear E6 P4 R4.
  generalize dependent (n3 *! z). intros A N6 H6 B6.
  (* h = 0.5 * z *)
  assert (P5 : (Rabs (lane_R cos_half * lane_R z) = lane_R z / 2)%R).
  { rewrite CV2, Rabs_pos_eq by lra. lra. }
  destruct (fmul_model cos_half z (proj1 CN2) Hz (proj2 CN2) Nz) as [N7 E7];
    [rewrite P5; lra|].
  rewrite P5 in E7. rewrite CV2 in E7. apply Rabs_bound in E7.
  pose proof (fmul_ok cos_half z) as H7.
  assert (B7 : (4999 / 10000 * lane_R z - pw (-150) <= lane_R (cos_half *! z)
                <= 5001 / 10000 * lane_R z + pw (-150))%R) by lra.
  clear E7 P5.
  generalize dependent (cos_half *! z). intros h N7 H7 B7.
  (* u = A - h *)
  destruct (fsub_model A h H6 H7 N6 N7) as [N8 E8].
  { assert (Rabs (lane_R A - lane_R h) <= 1)%R by (apply Rabs_le; lra). lra. }
  pose proof (fsub_ok A h) as H8.
  assert (B8 : (- (33 / 100) <= lane_R (A -! h) <= 5 * pw (-150))%R).
  { destruct (Rle_or_lt 0 (lane_R A - lane_R h)) as [Hd|Hd].
    - rewrite (Rabs_pos_eq _ Hd) in E8. apply Rabs_bound in E8. lra.
    - rewrite (Rabs_left _ Hd) in E8. apply Rabs_bound in E8. lra. }
  clear E8.
  generalize dependent (A -! h). intros u N8 H8 B8.
  destruct (fadd_one_le_one u H8 N8 ltac:(lra)) as [N9 B9].
  split; [exact N9|]. lra.
Qed.

End SinCosPoly.

Section SinCosRange.
Import Bits Lane Kernels.
Local Open Scope lane_scope.

Lemma fsub_mag (a b : lane) (A B C : R) :
  lane_ok a -> lane_ok b -> is_number a = true -> is_number b = true ->
  (Rabs (lane_R a) <= A)%R -> (Rabs (lane_R b) <= B)%R ->
  ((A + B) * (1 + / 16777216) <= C)%R -> (C <= 10 ^ 29)%R ->
  is_number (a -! b) = true /\ (Rabs (lane_R (a -! b)) <= C)%R.
Proof.
  intros Ha Hb Na Nb HA HB HC Hbig. rewrite fsub_as_fadd.
  apply (fadd_mag a (fneg b) A B C); try assumption.
  - apply fneg_ok; exact Hb.
  - rewrite is_number_fneg; exact Nb.
  - rewrite lane_R_fneg, Rabs_Ropp. exact HB.
Qed.

(** The sine polynomial on a reduced argument. *)
Lemma sin_poly_bound (b z : lane) :
  lane_ok b -> is_number b = true -> (Rabs (lane_R b) <= 79 / 100)%R ->
  lane_ok z -> is_number z = true -> (Rabs (lane_R z) <= 625 / 1000)%R ->
  is_number (((sin_c0 *! z +! sin_c1) *! z -! sin_c2) *! z *! b +! b) = true /\
  (Rabs (lane_R (((sin_c0 *! z +! sin_c1) *! z -! sin_c2) *! z *! b +! b))
   <= 9 / 10)%R.
Proof.
  intros Hb Nb Bb Hz Nz Bz.
  lane_value sin_c0. lane_value sin_c1. lane_value sin_c2.
  assert (T : (10 ^ 29 = 100000000000000000000000000000)%R) by (simpl; lra).
  assert (T' : (10 ^ 40 = 10000000000000000000000000000000000000000)%R)
    by (simpl; lra).
  destruct (fmul_mag sin_c0 z (2 / 10000) (625 / 1000) (13 / 100000)
              (proj1 CN) Hz (proj2 CN) Nz) as [N1 B1]; try lra.
  { rewrite CV. apply Rabs_le. lra. }
  pose proof (fmul_ok sin_c0 z) as H1.
  generalize dependent (sin_c0 *! z). intros n1 N1 B1 H1.
  destruct (fadd_mag n1 sin_c1 (13 / 100000) (84 / 10000) (86 / 10000)
              H1 (proj1 CN0) N1 (proj2 CN0)) as [N2 B2]; try lra.
  { rewrite CV0. apply Rabs_le. lra. }
  pose proof (fadd_ok n1 sin_c1) as H2.
  generalize dependent (n1 +! sin_c1). intros b1 N2 B2 H2.
  destruct (fmul_mag b1 z (86 / 10000) (625 / 1000) (54 / 10000)
              H2 Hz N2 Nz) as [N3 B3]; try lra.
  pose proof (fmul_ok b1 z) as H3.
  generalize dependent (b1 *! z). intros n2 N3 B3 H3.
  destruct (fsub_mag n2 sin_c2 (54 / 10000) (167 / 1000) (173 / 1000)
              H3 (proj1 CN1) N3 (proj2 CN1)) as [N4 B4]; try lra.
  { rewrite CV1. apply Rabs_le. lra. }
  pose proof (fsub_ok n2 sin_c2) as H4.
  generalize dependent (n2 -! sin_c2). intros b2 N4 B4 H4.
  destruct (fmul_mag b2 z (173 / 1000) (625 / 1000) (109 / 1000)
              H4 Hz N4 Nz) as [N5 B5]; try lra.
  pose proof (fmul_ok b2 z) as H5.
  generalize dependent (b2 *! z). intros n3 N5 B5 H5.
  destruct (fmul_mag n3 b (109 / 1000) (79 / 100) (87 / 1000)
              H5 Hb N5 Nb) as [N6 B6]; try lra.
  pose proof (fmul_ok n3 b) as H6.
  generalize dependent (n3 *! b). intros n4 N6 B6 H6.
  apply (fadd_mag n4 b (87 / 1000) (79 / 100)); try assumption; lra.
Qed.

End SinCosRange.

Section SinCosReduce.
Import Bits Lane Kernels.
Local Open Scope lane_scope.

Lemma convert_to_float_small (j : Z) :
  0 <= j < 16777216 -> lane_is (convert_to_float j) j.
Proof.
  intros Hj. unfold convert_to_float.
  replace (signed j) with j.
  - apply lane_is_zfloat. lia.
  - unfold signed, wrap, lane_mod. rewrite Z.mod_small by lia.
    destruct (j <? 2147483648) eqn:E; [reflexivity|].
    apply Z.ltb_ge in E. lia.
Qed.

(** The quadrant index of an argument of at most 500 and the reduced
    argument, which stays close to the interval [-pi/4, pi/4]. *)
Lemma sincos_reduce (a : lane) :
  0 <= a < 2147483648 -> is_number a = true -> (lane_R a <= 500)%R ->
  let j := iand (iadd (truncate_to_int (a *! four_over_pi)) (int_vec 1))
                (int_vec (Z.lnot 1)) in
  let y := convert_to_float j in
  is_number (((a -! y *! DP1) -! y *! DP2) -! y *! DP3) = true /\
  (Rabs (lane_R (((a -! y *! DP1) -! y *! DP2) -! y *! DP3)) <= 79 / 100)%R.
Proof.
  intros Ha Na Va.
  assert (Hok : lane_ok a) by (unfold lane_ok, lane_mod; lia).
  pose proof (lane_R_sign_clear a Ha) as Pa.
  lane_value four_over_pi. lane_value DP1. lane_value DP2. lane_value DP3.
  assert (T : (10 ^ 29 = 100000000000000000000000000000)%R) by (simpl; lra).
  assert (T' : (10 ^ 40 = 10000000000000000000000000000000000000000)%R)
    by (simpl; lra).
  assert (Sc : sign_bit four_over_pi = false) by reflexivity.
  assert (Sa : sign_bit a = false).
  { rewrite (sign_bit_ge a Hok). apply Z.leb_gt. lia. }
  pose proof (fmul_sign_clear a four_over_pi Hok (proj1 CN) Sa Sc) as SY.
  apply lane_R_sign_clear in SY.
  destruct (fmul_near a four_over_pi 640 Hok (proj1 CN) Na (proj2 CN))
    as [NY EY].
  { rewrite CV. apply Rabs_le. lra. } { lra. }
  rewrite CV in EY.
  pose proof (fmul_ok a four_over_pi) as HY.
  generalize dependent (a *! four_over_pi). intros Y SY NY EY HY.
  destruct (truncate_floor Y HY NY ltac:(lra)) as (k & -> & Hk & Vk).
  assert (Hk' : k < 640).
  { apply lt_IZR. lra. }
  rewrite (quadrant_index k) by lia.
  pose proof (Z.div_mod (k + 1) 2 ltac:(lia)) as Hdm.
  pose proof (Z.mod_pos_bound (k + 1) 2 ltac:(lia)) as Hmb.
  assert (Hj : k <= 2 * ((k + 1) / 2) <= k + 1) by lia.
  generalize dependent (2 * ((k + 1) / 2)). intros j _ Hj.
  cbv zeta.
  pose proof (convert_to_float_small j ltac:(lia)) as Ly.
  pose proof (lane_is_R _ _ Ly) as Vy.
  destruct Ly as (Hy & Ny & _).
  assert (BJ : (IZR k <= IZR j <= IZR k + 1)%R).
  { split; [apply IZR_le; lia|]. rewrite <- plus_IZR. apply IZR_le; lia. }
  assert (Pk : (0 <= IZR k)%R) by (apply IZR_le; lia).
  generalize dependent (convert_to_float j). intros y Hy Ny Vy.
  (* y * DP1 *)
  destruct (fmul_near y DP1 512 Hy (proj1 CN0) Ny (proj2 CN0)) as [N1 E1].
  { rewrite Vy, CV0. apply Rabs_le. lra. } { lra. }
  rewrite Vy, CV0 in E1.
  pose proof (fmul_ok y DP1) as H1.
  generalize dependent (y *! DP1). intros t1 N1 E1 H1.
  destruct (fsub_near a t1 1 Hok H1 Na N1) as [N2 E2].
  { apply Rabs_le. lra. } { lra. }
  pose proof (fsub_ok a t1) as H2.
  generalize dependent (a -! t1). intros s1 N2 E2 H2.
  destruct (fmul_near y DP2 1 Hy (proj1 CN1) Ny (proj2 CN1)) as [N3 E3].
  { rewrite Vy, CV1. apply Rabs_le. lra. } { lra. }
  rewrite Vy, CV1 in E3.
  pose proof (fmul_ok y DP2) as H3.
  generalize dependent (y *! DP2). intros t2 N3 E3 H3.
  destruct (fsub_near s1 t2 1 H2 H3 N2 N3) as [N4 E4].
  { apply Rabs_le. lra. } { lra. }
  pose proof (fsub_ok s1 t2) as H4.
  generalize dependent (s1 -! t2). intros s2 N4 E4 H4.
  destruct (fmul_near y DP3 1 Hy (proj1 CN2) Ny (proj2 CN2)) as [N5 E5].
  { rewrite Vy, CV2. apply Rabs_le. lra. } { lra. }
  rewrite Vy, CV2 in E5.
  pose proof (fmul_ok y DP3) as H5.
  generalize dependent (y *! DP3). intros t3 N5 E5 H5.
  destruct (fsub_near s2 t3 1 H4 H5 N4 N5) as [N6 E6].
  { apply Rabs_le. lra. } { lra. }
  split; [exact N6|]. apply Rabs_le. lra.
Qed.

End SinCosReduce.

Section SinCosBound.
Import Bits Lane Kernels.
Local Open Scope lane_scope.

Lemma land_four (j : Z) : Z.land j 4 = if Z.testbit j 2 then 4 else 0.
Proof.
  apply Z.bits_inj'. intros i Hi.
  rewrite Z.land_spec. change 4 with (Z.shiftl 1 2) at 1.
  destruct (Z.eq_dec i 2) as [->|Hne].
  - destruct (Z.testbit j 2); reflexivity.
  - assert (Hb : Z.testbit (Z.shiftl 1 2) i = false).
    { rewrite Z.shiftl_spec by lia.
      destruct (Z.ltb_spec i 2) as [Hlt|Hge].
      - apply Z.testbit_neg_r. lia.
      - replace (i - 2) with (Z.succ (i - 3)) by lia.
        change 1 with (2 * 0 + 1). rewrite Z.testbit_odd_succ by lia.
        apply Z.bits_0. }
    rewrite Hb, andb_false_r.
    destruct (Z.testbit j 2).
    + change 4 with (Z.shiftl 1 2). symmetry. exact Hb.
    + symmetry. apply Z.bits_0.
Qed.

Lemma ldiff_four (m : Z) : Z.ldiff 4 m = if Z.testbit m 2 then 0 else 4.
Proof.
  apply Z.bits_inj'. intros i Hi.
  rewrite Z.ldiff_spec.
  destruct (Z.eq_dec i 2) as [->|Hne].
  - destruct (Z.testbit m 2); reflexivity.
  - assert (Hb : Z.testbit 4 i = false).
    { change 4 with (Z.shiftl 1 2). rewrite Z.shiftl_spec by lia.
      destruct (Z.ltb_spec i 2) as [Hlt|Hge].
      - apply Z.testbit_neg_r. lia.
      - replace (i - 2) with (Z.succ (i - 3)) by lia.
        change 1 with (2 * 0 + 1). rewrite Z.testbit_odd_succ by lia.
        apply Z.bits_0. }
    rewrite Hb. cbn [andb].
    destruct (Z.testbit m 2).
    + symmetry. apply Z.bits_0.
    + symmetry. exact Hb.
Qed.

(** The sign words of the two kernels hold the sign bit only. *)
Lemma sin_sign_word (x j : lane) :
  vxor (vand x gen_sign_mask) (slli (iand j (int_vec 4)) 29) = 0 \/
  vxor (vand x gen_sign_mask) (slli (iand j (int_vec 4)) 29) = gen_sign_mask.
Proof.
  rewrite sign_mask_and. unfold iand, int_vec. change (wrap 4) with 4.
  rewrite land_four.
  destruct (sign_bit x), (Z.testbit j 2); vm_compute; tauto.
Qed.

Lemma cos_sign_word (m : lane) :
  slli (iandnot m (int_vec 4)) 29 = 0 \/
  slli (iandnot m (int_vec 4)) 29 = gen_sign_mask.
Proof.
  unfold iandnot, int_vec. change (wrap 4) with 4. rewrite ldiff_four.
  destruct (Z.testbit m 2); vm_compute; tauto.
Qed.

Lemma vxor_sign_word (a w : lane) :
  w = 0 \/ w = gen_sign_mask ->
  is_number (vxor a w) = is_number a /\
  Rabs (lane_R (vxor a w)) = Rabs (lane_R a).
Proof.
  intros [->| ->].
  - unfold vxor. rewrite Z.lxor_0_r. split; reflexivity.
  - change (vxor a gen_sign_mask) with (fneg a).
    rewrite is_number_fneg, lane_R_fneg, Rabs_Ropp. split; reflexivity.
Qed.

(** Both polynomials of a reduced argument, whichever is selected and
    whatever sign is put on it, stay within [-1, 1]. *)
Lemma sincos_select_bound (a : lane) (c : bool) (w : lane) :
  0 <= a < 2147483648 -> is_number a = true -> (lane_R a <= 500)%R ->
  w = 0 \/ w = gen_sign_mask ->
  let j := iand (iadd (truncate_to_int (a *! four_over_pi)) (int_vec 1))
                (int_vec (Z.lnot 1)) in
  let y := convert_to_float j in
  let base := ((a -! y *! DP1) -! y *! DP2) -! y *! DP3 in
  let z := base *! base in
  let p1 := ((cos_c0 *! z -! cos_c1) *! z +! cos_c2) *! z *! z
            -! cos_half *! z +! one_f in
  let p2 := ((sin_c0 *! z +! sin_c1) *! z -! sin_c2) *! z *! base +! base in
  is_number (vxor (select p1 p2 (mask_of c)) w) = true /\
  (Rabs (lane_R (vxor (select p1 p2 (mask_of c)) w)) <= 1)%R.
Proof.
  intros Ha Na Va Hw.
  pose proof (sincos_reduce a Ha Na Va) as Hred. cbv zeta in Hred.
  cbv zeta.
  match type of Hred with
  | is_number ?b = true /\ _ =>
      assert (Hb : lane_ok b) by apply fsub_ok; generalize dependent b
  end.
  intros b [Nb Bb] Hb.
  assert (T : (10 ^ 29 = 100000000000000000000000000000)%R) by (simpl; lra).
  assert (T' : (10 ^ 40 = 10000000000000000000000000000000000000000)%R)
    by (simpl; lra).
  pose proof (lane_R_sign_clear _ (fmul_self_sign_clear b)) as Pz.
  apply Rabs_bound in Bb.
  assert (Sq : (0 <= lane_R b * lane_R b <= 6241 / 10000)%R) by nra.
  destruct (fmul_near b b (6241 / 10000) Hb Hb Nb Nb) as [Nz Ez].
  { apply Rabs_le. lra. } { lra. }
  pose proof (fmul_ok b b) as Hz.
  assert (Vz : (0 <= lane_R (b *! b) <= 625 / 1000)%R) by lra.
  clear Ez Pz Sq.
  generalize dependent (b *! b). intros z Nz Hz Vz.
  destruct (cos_poly_bound z Hz Nz Vz) as [N1 B1].
  destruct (sin_poly_bound b z Hb Nb ltac:(apply Rabs_le; lra) Hz Nz
              ltac:(apply Rabs_le; lra)) as [N2 B2].
  match type of N1 with
  | is_number ?p = true =>
      assert (H1 : lane_ok p) by apply fadd_ok; generalize dependent p
  end.
  intros p1 N1 B1 H1.
  match type of N2 with
  | is_number ?p = true =>
      assert (H2 : lane_ok p) by apply fadd_ok; generalize dependent p
  end.
  intros p2 N2 B2 H2.
  rewrite (select_mask p1 p2 c H1 H2).
  destruct (vxor_sign_word (if c then p2 else p1) w Hw) as [-> ->].
  destruct c; split; try assumption.
  - lra.
  - apply Rabs_le. lra.
Qed.

(** X20.  For a number of magnitude at most 500 the sine and the cosine
    kernel return numbers of magnitude at most one. *)
Theorem vec_sin_cos_bounded (x : lane) :
  lane_ok x -> is_number x = true -> (Rabs (lane_R x) <= 500)%R ->
  (is_number (vec_sin_float x) = true /\
   (Rabs (lane_R (vec_sin_float x)) <= 1)%R) /\
  (is_number (vec_cos_float x) = true /\
   (Rabs (lane_R (vec_cos_float x)) <= 1)%R).
Proof.
  intros Hx Nx Vx.
  destruct (magnitude_R x Hx Nx) as [Na Ra].
  pose proof (magnitude_bound x) as Ha.
  rewrite <- Ra in Vx.
  split.
  - unfold vec_sin_float. cbv zeta. rewrite abs_magnitude. unfold imask_eq.
    match goal with
    | |- context [select _ _ (mask_of ?c)] =>
        match goal with
        | |- context [vxor (select _ _ _) ?w] =>
            pose proof (sincos_select_bound (magnitude x) c w Ha Na Vx
                          (sin_sign_word x _)) as H
        end
    end.
    exact H.
  - unfold vec_cos_float. cbv zeta. rewrite abs_magnitude. unfold imask_eq.
    match goal with
    | |- context [select _ _ (mask_of ?c)] =>
        match goal with
        | |- context [vxor (select _ _ _) ?w] =>
            pose proof (sincos_select_bound (magnitude x) c w Ha Na Vx
                          (cos_sign_word _)) as H
        end
    end.
    exact H.
Qed.

Lemma vec_sin_cos_bounded_witness :
  (is_number (vec_sin_float 3225419776) = true /\
   (Rabs (lane_R (vec_sin_float 3225419776%Z)) <= 1)%R) /\
  (is_number (vec_cos_float 3225419776) = true /\
   (Rabs (lane_R (vec_cos_float 3225419776%Z)) <= 1)%R).
Proof.
  apply (vec_sin_cos_bounded 3225419776).
  - lane_const.
  - reflexivity.
  - assert (V : lane_R 3225419776 = (- 3)%R).
    { unfold lane_R.
      change (decode 3225419776) with (S754_finite true 12582912 (-22)).
      rewrite (SFR_finite_neg true 12582912 22). cbn [cond_Zopp].
      simpl. lra. }
    rewrite V. apply Rabs_le. lra.
Defined.

End SinCosBound.

